(** * Fleet: osquery service and policy recorder

    A shallow embedding of the agent-facing osquery service
    (package [service]: detail, label and distributed query ingestion,
    [SubmitDistributedQueryResults]) and of the policy recorder
    ([RecordPolicyQueryExecutions] of the mysql datastore), followed by the
    properties of these functions.

    Conventions of the embedding:
    - Go [string] is [string] (a sequence of bytes); [map[string]string] is
      [gmap string string], and indexing a missing key gives the empty string;
    - Go [int], [int64] and [uint] (64-bit platform) are [Z], with every
      conversion and wrap-around written out;
    - a [time.Time] is a number of nanoseconds in [Z], and so is a
      [time.Duration];
    - a Go [error] is a value of the inductive type [error]; [nil] is [None];
    - the datastore, the result store, the clock and the logger are the fields
      of a [service] record over an abstract collaborator state; every call
      to one of them is appended to a trace. *)

From Stdlib Require Import ZArith Ascii String.
From stdpp Require Import gmap strings list sorting pretty.

Local Open Scope string_scope.
Local Open Scope Z_scope.

(** ** Strings (Go package [strings]) *)

Module Strings.

(** [strings.HasPrefix s p]. *)
Definition HasPrefix (s p : string) : bool := String.prefix p s.

Fixpoint drop (n : nat) (s : string) : string :=
  match n, s with
  | O, _ => s
  | S n', String _ r => drop n' r
  | S _, EmptyString => EmptyString
  end.

(** [strings.TrimPrefix s p]: [s] without the leading [p], or [s] itself. *)
Definition TrimPrefix (s p : string) : string :=
  if HasPrefix s p then drop (String.length p) s else s.

Definition is_dot (c : ascii) : bool := Ascii.eqb c "."%char.

Fixpoint TrimLeftDots (s : string) : string :=
  match s with
  | String c r => if is_dot c then TrimLeftDots r else s
  | EmptyString => EmptyString
  end.

Fixpoint TrimRightDots (s : string) : string :=
  match s with
  | String c r =>
      match TrimRightDots r with
      | EmptyString => if is_dot c then EmptyString else String c EmptyString
      | r' => String c r'
      end
  | EmptyString => EmptyString
  end.

(** [strings.Trim s "."]: all leading and trailing dots removed. *)
Definition TrimDots (s : string) : string := TrimRightDots (TrimLeftDots s).

(** [strings.ToLower] on the ASCII range: bytes [A]..[Z] are mapped to
    [a]..[z]; other bytes are kept. *)
Definition lower_byte (c : ascii) : ascii :=
  let n := N_of_ascii c in
  if ((65 <=? n) && (n <=? 90))%N then ascii_of_N (n + 32) else c.

Fixpoint ToLower (s : string) : string :=
  match s with
  | String c r => String (lower_byte c) (ToLower r)
  | EmptyString => EmptyString
  end.

(** [strings.Contains s sub]. *)
Fixpoint Contains (s sub : string) : bool :=
  String.prefix sub s ||
  match s with
  | String _ r => Contains r sub
  | EmptyString => false
  end.

End Strings.

(** ** Integers *)

(** Conversion to [uint]: the value modulo [2^64]. *)
Definition to_uint (z : Z) : Z := z mod 2 ^ 64.

(** Wrap-around of [int64] arithmetic. *)
Definition wrap64 (z : Z) : Z := (z + 2 ^ 63) mod 2 ^ 64 - 2 ^ 63.

(** ** Errors *)

(** The two failures of package [strconv]. *)
Inductive NumErr : Set := ErrSyntax | ErrRange.

(** The error values that flow through the service.  [NumError] is
    [*strconv.NumError]; [Wrapped] is the result of [errors.Wrap];
    [osqueryError] is the struct of the service; [pubsubError] is an error
    that implements the interface [pubsub.Error]; [otherError] is any other
    error of a collaborator, known by its text. *)
Inductive error : Type :=
| NumError (fn num : string) (e : NumErr)
| Wrapped (cause : error) (msg : string)
| osqueryError (message : string) (nodeInvalid : bool)
| pubsubError (msg : string) (noSubscriber : bool)
| otherError (msg : string).

Definition NumErr_text (e : NumErr) : string :=
  match e with
  | ErrSyntax => "invalid syntax"
  | ErrRange => "value out of range"
  end.

(** The method [Error()], given [strconv.Quote]. *)
Fixpoint Error (Quote : string -> string) (e : error) : string :=
  match e with
  | NumError fn num k =>
      "strconv." ++ fn ++ ": parsing " ++ Quote num ++ ": " ++ NumErr_text k
  | Wrapped cause msg => msg ++ ": " ++ Error Quote cause
  | osqueryError message _ => message
  | pubsubError msg _ => msg
  | otherError msg => msg
  end.

(** The method [NodeInvalid()] of [osqueryError]. *)
Definition NodeInvalid (e : error) : bool :=
  match e with
  | osqueryError _ b => b
  | _ => false
  end.

(** ** Package [strconv] *)

Module Strconv.

Definition maxUint64 : Z := 2 ^ 64 - 1.

(** The digit loop of [ParseUint] in base 10: a byte that is no digit is a
    syntax error; an overflow of [n * 10] or of [n * 10 + d] is a range
    error, reported with the largest value. *)
Fixpoint ParseUint_loop (s : string) (n : Z) : Z * option NumErr :=
  match s with
  | EmptyString => (n, None)
  | String c r =>
      let b := Z.of_N (N_of_ascii c) in
      if (48 <=? b) && (b <=? 57) then
        let d := b - 48 in
        if maxUint64 / 10 + 1 <=? n then (maxUint64, Some ErrRange)
        else
          let n1 := n * 10 + d in
          if maxUint64 <? n1 then (maxUint64, Some ErrRange)
          else ParseUint_loop r n1
      else (0, Some ErrSyntax)
  end.

(** [strconv.ParseUint(s, 10, 64)]. *)
Definition ParseUint (s : string) : Z * option NumErr :=
  match s with
  | EmptyString => (0, Some ErrSyntax)
  | _ => ParseUint_loop s 0
  end.

(** [strconv.ParseInt(s, 10, 64)]: value and error kind. *)
Definition ParseInt_raw (s : string) : Z * option NumErr :=
  match s with
  | EmptyString => (0, Some ErrSyntax)
  | String c r =>
      let neg := Ascii.eqb c "-"%char in
      let s' := if Ascii.eqb c "+"%char || neg then r else s in
      match ParseUint s' with
      | (_, Some ErrSyntax) => (0, Some ErrSyntax)
      | (un, _) =>
          let cutoff := 2 ^ 63 in
          if negb neg && (cutoff <=? un) then (cutoff - 1, Some ErrRange)
          else if neg && (cutoff <? un) then (- cutoff, Some ErrRange)
          else (if neg then - un else un, None)
      end
  end.

Definition with_NumError (fn s : string) (r : Z * option NumErr)
  : Z * option error :=
  (r.1, NumError fn s <$> r.2).

Definition ParseInt (s : string) : Z * option error :=
  with_NumError "ParseInt" s (ParseInt_raw s).

(** [strconv.Atoi(s)] with a 64-bit [int]: its fast path for short
    strings computes what [ParseInt] does. *)
Definition Atoi (s : string) : Z * option error :=
  with_NumError "Atoi" s (ParseInt_raw s).

End Strconv.

(** Sometimes osquery gives an empty string where an integer is expected. *)
Definition emptyToZero (val : string) : string :=
  if decide (val = "") then "0" else val.

(** ** The data model (package [kolide]) *)

(** A result row of osquery: column name to value. *)
Abbreviation row := (gmap string string).

(** Indexing a Go map: the zero value when the key is absent. *)
Definition col (r : row) (k : string) : string := default "" (r !! k).

(** [kolide.NetworkInterface]. *)
Record NetworkInterface : Type := mkNetworkInterface {
  MAC : string;
  IPAddress : string;
  Broadcast : string;
  IBytes : Z;
  IErrors : Z;
  Interface : string;
  IPackets : Z;
  LastChange : Z;
  Mask : string;
  Metric : Z;
  MTU : Z;
  OBytes : Z;
  OErrors : Z;
  OPackets : Z;
  PointToPoint : string;
  Type_ : Z
}.

(** [kolide.Host], with the fields the service reads or writes. *)
Record Host : Type := mkHost {
  ID : Z;
  DetailUpdateTime : Z;
  HostName : string;
  UUID : string;
  Platform : string;
  OsqueryVersion : string;
  OSVersion : string;
  Build : string;
  PlatformLike : string;
  CodeName : string;
  Uptime : Z;
  PhysicalMemory : Z;
  CPUType : string;
  CPUSubtype : string;
  CPUBrand : string;
  CPUPhysicalCores : Z;
  CPULogicalCores : Z;
  HardwareVendor : string;
  HardwareModel : string;
  HardwareVersion : string;
  HardwareSerial : string;
  ComputerName : string;
  NetworkInterfaces : list NetworkInterface;
  DistributedInterval : Z;
  LoggerTLSPeriod : Z;
  ConfigTLSRefresh : Z
}.

(** Field assignments [host.F = v]. *)
Definition set_DetailUpdateTime (v : Z) (h : Host) : Host :=
  let '(mkHost x0 _ x2 x3 x4 x5 x6 x7 x8 x9 x10 x11 x12 x13 x14 x15 x16 x17
    x18 x19 x20 x21 x22 x23 x24 x25) := h in
  mkHost x0 v x2 x3 x4 x5 x6 x7 x8 x9 x10 x11 x12 x13 x14 x15 x16 x17 x18
    x19 x20 x21 x22 x23 x24 x25.
Definition set_HostName (v : string) (h : Host) : Host :=
  let '(mkHost x0 x1 _ x3 x4 x5 x6 x7 x8 x9 x10 x11 x12 x13 x14 x15 x16 x17
    x18 x19 x20 x21 x22 x23 x24 x25) := h in
  mkHost x0 x1 v x3 x4 x5 x6 x7 x8 x9 x10 x11 x12 x13 x14 x15 x16 x17 x18
    x19 x20 x21 x22 x23 x24 x25.
Definition set_UUID (v : string) (h : Host) : Host :=
  let '(mkHost x0 x1 x2 _ x4 x5 x6 x7 x8 x9 x10 x11 x12 x13 x14 x15 x16 x17
    x18 x19 x20 x21 x22 x23 x24 x25) := h in
  mkHost x0 x1 x2 v x4 x5 x6 x7 x8 x9 x10 x11 x12 x13 x14 x15 x16 x17 x18
    x19 x20 x21 x22 x23 x24 x25.
Definition set_Platform (v : string) (h : Host) : Host :=
  let '(mkHost x0 x1 x2 x3 _ x5 x6 x7 x8 x9 x10 x11 x12 x13 x14 x15 x16 x17
    x18 x19 x20 x21 x22 x23 x24 x25) := h in
  mkHost x0 x1 x2 x3 v x5 x6 x7 x8 x9 x10 x11 x12 x13 x14 x15 x16 x17 x18
    x19 x20 x21 x22 x23 x24 x25.
Definition set_OsqueryVersion (v : string) (h : Host) : Host :=
  let '(mkHost x0 x1 x2 x3 x4 _ x6 x7 x8 x9 x10 x11 x12 x13 x14 x15 x16 x17
    x18 x19 x20 x21 x22 x23 x24 x25) := h in
  mkHost x0 x1 x2 x3 x4 v x6 x7 x8 x9 x10 x11 x12 x13 x14 x15 x16 x17 x18
    x19 x20 x21 x22 x23 x24 x25.
Definition set_OSVersion (v : string) (h : Host) : Host :=
  let '(mkHost x0 x1 x2 x3 x4 x5 _ x7 x8 x9 x10 x11 x12 x13 x14 x15 x16 x17
    x18 x19 x20 x21 x22 x23 x24 x25) := h in
  mkHost x0 x1 x2 x3 x4 x5 v x7 x8 x9 x10 x11 x12 x13 x14 x15 x16 x17 x18
    x19 x20 x21 x22 x23 x24 x25.
Definition set_Build (v : string) (h : Host) : Host :=
  let '(mkHost x0 x1 x2 x3 x4 x5 x6 _ x8 x9 x10 x11 x12 x13 x14 x15 x16 x17
    x18 x19 x20 x21 x22 x23 x24 x25) := h in
  mkHost x0 x1 x2 x3 x4 x5 x6 v x8 x9 x10 x11 x12 x13 x14 x15 x16 x17 x18
    x19 x20 x21 x22 x23 x24 x25.
Definition set_PlatformLike (v : string) (h : Host) : Host :=
  let '(mkHost x0 x1 x2 x3 x4 x5 x6 x7 _ x9 x10 x11 x12 x13 x14 x15 x16 x17
    x18 x19 x20 x21 x22 x23 x24 x25) := h in
  mkHost x0 x1 x2 x3 x4 x5 x6 x7 v x9 x10 x11 x12 x13 x14 x15 x16 x17 x18
    x19 x20 x21 x22 x23 x24 x25.
Definition set_CodeName (v : string) (h : Host) : Host :=
  let '(mkHost x0 x1 x2 x3 x4 x5 x6 x7 x8 _ x10 x11 x12 x13 x14 x15 x16 x17
    x18 x19 x20 x21 x22 x23 x24 x25) := h in
  mkHost x0 x1 x2 x3 x4 x5 x6 x7 x8 v x10 x11 x12 x13 x14 x15 x16 x17 x18
    x19 x20 x21 x22 x23 x24 x25.
Definition set_Uptime (v : Z) (h : Host) : Host :=
  let '(mkHost x0 x1 x2 x3 x4 x5 x6 x7 x8 x9 _ x11 x12 x13 x14 x15 x16 x17
    x18 x19 x20 x21 x22 x23 x24 x25) := h in
  mkHost x0 x1 x2 x3 x4 x5 x6 x7 x8 x9 v x11 x12 x13 x14 x15 x16 x17 x18 x19
    x20 x21 x22 x23 x24 x25.
Definition set_PhysicalMemory (v : Z) (h : Host) : Host :=
  let '(mkHost x0 x1 x2 x3 x4 x5 x6 x7 x8 x9 x10 _ x12 x13 x14 x15 x16 x17
    x18 x19 x20 x21 x22 x23 x24 x25) := h in
  mkHost x0 x1 x2 x3 x4 x5 x6 x7 x8 x9 x10 v x12 x13 x14 x15 x16 x17 x18 x19
    x20 x21 x22 x23 x24 x25.
Definition set_CPUType (v : string) (h : Host) : Host :=
  let '(mkHost x0 x1 x2 x3 x4 x5 x6 x7 x8 x9 x10 x11 _ x13 x14 x15 x16 x17
    x18 x19 x20 x21 x22 x23 x24 x25) := h in
  mkHost x0 x1 x2 x3 x4 x5 x6 x7 x8 x9 x10 x11 v x13 x14 x15 x16 x17 x18 x19
    x20 x21 x22 x23 x24 x25.
Definition set_CPUSubtype (v : string) (h : Host) : Host :=
  let '(mkHost x0 x1 x2 x3 x4 x5 x6 x7 x8 x9 x10 x11 x12 _ x14 x15 x16 x17
    x18 x19 x20 x21 x22 x23 x24 x25) := h in
  mkHost x0 x1 x2 x3 x4 x5 x6 x7 x8 x9 x10 x11 x12 v x14 x15 x16 x17 x18 x19
    x20 x21 x22 x23 x24 x25.
Definition set_CPUBrand (v : string) (h : Host) : Host :=
  let '(mkHost x0 x1 x2 x3 x4 x5 x6 x7 x8 x9 x10 x11 x12 x13 _ x15 x16 x17
    x18 x19 x20 x21 x22 x23 x24 x25) := h in
  mkHost x0 x1 x2 x3 x4 x5 x6 x7 x8 x9 x10 x11 x12 x13 v x15 x16 x17 x18 x19
    x20 x21 x22 x23 x24 x25.
Definition set_CPUPhysicalCores (v : Z) (h : Host) : Host :=
  let '(mkHost x0 x1 x2 x3 x4 x5 x6 x7 x8 x9 x10 x11 x12 x13 x14 _ x16 x17
    x18 x19 x20 x21 x22 x23 x24 x25) := h in
  mkHost x0 x1 x2 x3 x4 x5 x6 x7 x8 x9 x10 x11 x12 x13 x14 v x16 x17 x18 x19
    x20 x21 x22 x23 x24 x25.
Definition set_CPULogicalCores (v : Z) (h : Host) : Host :=
  let '(mkHost x0 x1 x2 x3 x4 x5 x6 x7 x8 x9 x10 x11 x12 x13 x14 x15 _ x17
    x18 x19 x20 x21 x22 x23 x24 x25) := h in
  mkHost x0 x1 x2 x3 x4 x5 x6 x7 x8 x9 x10 x11 x12 x13 x14 x15 v x17 x18 x19
    x20 x21 x22 x23 x24 x25.
Definition set_HardwareVendor (v : string) (h : Host) : Host :=
  let '(mkHost x0 x1 x2 x3 x4 x5 x6 x7 x8 x9 x10 x11 x12 x13 x14 x15 x16 _
    x18 x19 x20 x21 x22 x23 x24 x25) := h in
  mkHost x0 x1 x2 x3 x4 x5 x6 x7 x8 x9 x10 x11 x12 x13 x14 x15 x16 v x18 x19
    x20 x21 x22 x23 x24 x25.
Definition set_HardwareModel (v : string) (h : Host) : Host :=
  let '(mkHost x0 x1 x2 x3 x4 x5 x6 x7 x8 x9 x10 x11 x12 x13 x14 x15 x16 x17
    _ x19 x20 x21 x22 x23 x24 x25) := h in
  mkHost x0 x1 x2 x3 x4 x5 x6 x7 x8 x9 x10 x11 x12 x13 x14 x15 x16 x17 v x19
    x20 x21 x22 x23 x24 x25.
Definition set_HardwareVersion (v : string) (h : Host) : Host :=
  let '(mkHost x0 x1 x2 x3 x4 x5 x6 x7 x8 x9 x10 x11 x12 x13 x14 x15 x16 x17
    x18 _ x20 x21 x22 x23 x24 x25) := h in
  mkHost x0 x1 x2 x3 x4 x5 x6 x7 x8 x9 x10 x11 x12 x13 x14 x15 x16 x17 x18 v
    x20 x21 x22 x23 x24 x25.
Definition set_HardwareSerial (v : string) (h : Host) : Host :=
  let '(mkHost x0 x1 x2 x3 x4 x5 x6 x7 x8 x9 x10 x11 x12 x13 x14 x15 x16 x17
    x18 x19 _ x21 x22 x23 x24 x25) := h in
  mkHost x0 x1 x2 x3 x4 x5 x6 x7 x8 x9 x10 x11 x12 x13 x14 x15 x16 x17 x18
    x19 v x21 x22 x23 x24 x25.
Definition set_ComputerName (v : string) (h : Host) : Host :=
  let '(mkHost x0 x1 x2 x3 x4 x5 x6 x7 x8 x9 x10 x11 x12 x13 x14 x15 x16 x17
    x18 x19 x20 _ x22 x23 x24 x25) := h in
  mkHost x0 x1 x2 x3 x4 x5 x6 x7 x8 x9 x10 x11 x12 x13 x14 x15 x16 x17 x18
    x19 x20 v x22 x23 x24 x25.
Definition set_NetworkInterfaces (v : list NetworkInterface) (h : Host) : Host :=
  let '(mkHost x0 x1 x2 x3 x4 x5 x6 x7 x8 x9 x10 x11 x12 x13 x14 x15 x16 x17
    x18 x19 x20 x21 _ x23 x24 x25) := h in
  mkHost x0 x1 x2 x3 x4 x5 x6 x7 x8 x9 x10 x11 x12 x13 x14 x15 x16 x17 x18
    x19 x20 x21 v x23 x24 x25.
Definition set_DistributedInterval (v : Z) (h : Host) : Host :=
  let '(mkHost x0 x1 x2 x3 x4 x5 x6 x7 x8 x9 x10 x11 x12 x13 x14 x15 x16 x17
    x18 x19 x20 x21 x22 _ x24 x25) := h in
  mkHost x0 x1 x2 x3 x4 x5 x6 x7 x8 x9 x10 x11 x12 x13 x14 x15 x16 x17 x18
    x19 x20 x21 x22 v x24 x25.
Definition set_LoggerTLSPeriod (v : Z) (h : Host) : Host :=
  let '(mkHost x0 x1 x2 x3 x4 x5 x6 x7 x8 x9 x10 x11 x12 x13 x14 x15 x16 x17
    x18 x19 x20 x21 x22 x23 _ x25) := h in
  mkHost x0 x1 x2 x3 x4 x5 x6 x7 x8 x9 x10 x11 x12 x13 x14 x15 x16 x17 x18
    x19 x20 x21 x22 x23 v x25.
Definition set_ConfigTLSRefresh (v : Z) (h : Host) : Host :=
  let '(mkHost x0 x1 x2 x3 x4 x5 x6 x7 x8 x9 x10 x11 x12 x13 x14 x15 x16 x17
    x18 x19 x20 x21 x22 x23 x24 _) := h in
  mkHost x0 x1 x2 x3 x4 x5 x6 x7 x8 x9 x10 x11 x12 x13 x14 x15 x16 x17 x18
    x19 x20 x21 x22 x23 x24 v.

(** ** The detail query registry *)

(** What an ingestion function leaves behind: the host as mutated through
    the pointer it received (also when it fails), the key-value lists it gave
    to the logger, and the error it returned. *)
Record IngestOut : Type := mkIngestOut {
  out_host : Host;
  out_log : list (list string);
  out_err : option error
}.

Definition IngestFunc : Type := Host -> list row -> IngestOut.

Record DetailQuery : Type := mkDetailQuery {
  Query : string;
  Ingest : IngestFunc
}.

(** The logger call of an ingestion function that skips its rows. *)
Definition ingest_warning (msg : string) : list string :=
  ["component"; "service"; "method"; "IngestFunc"; "err"; msg].

Definition expected_single (name : string) (rows : list row) : list string :=
  ingest_warning
    ("detail_query_" ++ name ++ " expected single result got "
       ++ pretty (length rows)).

(** [if f, err = strconv.ParseInt(emptyToZero(s), 10, 64); err != nil
    { f = -1 }]. *)
Definition ParseInt_or_minus1 (s : string) : Z :=
  match Strconv.ParseInt (emptyToZero s) with
  | (_, Some _) => -1
  | (v, None) => v
  end.

(** The body of the loop of [network_interface] for one row: the interface
    to append, or the error the function returns with. *)
Definition network_interface_row (r : row) : error + NetworkInterface :=
  let ibytes := ParseInt_or_minus1 (col r "ibytes") in
  let ierrors := ParseInt_or_minus1 (col r "ierrors") in
  let ipackets := ParseInt_or_minus1 (col r "ipackets") in
  match
    match r !! "last_change" with
    | Some lastChange => Strconv.ParseInt (emptyToZero lastChange)
    | None => (0, None)
    end
  with
  | (_, Some err) => inl err
  | (lastChange, None) =>
  match Strconv.Atoi (emptyToZero (col r "metric")) with
  | (_, Some err) => inl err
  | (metric, None) =>
  match Strconv.Atoi (emptyToZero (col r "mtu")) with
  | (_, Some err) => inl err
  | (mtu, None) =>
  let obytes := ParseInt_or_minus1 (col r "obytes") in
  let oerrors := ParseInt_or_minus1 (col r "oerrors") in
  let opackets := ParseInt_or_minus1 (col r "opackets") in
  match Strconv.Atoi (emptyToZero (col r "type")) with
  | (_, Some err) => inl err
  | (type, None) =>
      inr {| MAC := col r "mac";
             IPAddress := col r "address";
             Broadcast := col r "broadcast";
             IBytes := ibytes;
             IErrors := ierrors;
             Interface := col r "interface";
             IPackets := ipackets;
             LastChange := lastChange;
             Mask := col r "mask";
             Metric := metric;
             MTU := mtu;
             OBytes := obytes;
             OErrors := oerrors;
             OPackets := opackets;
             PointToPoint := col r "point_to_point";
             Type_ := type |}
  end end end end.

Fixpoint network_interface_loop (rows : list row)
    (networkInterfaces : list NetworkInterface)
  : error + list NetworkInterface :=
  match rows with
  | [] => inr networkInterfaces
  | r :: rows' =>
      match network_interface_row r with
      | inl err => inl err
      | inr nic => network_interface_loop rows' (networkInterfaces ++ [nic])
      end
  end.

Definition ingest_network_interface : IngestFunc := fun host rows =>
  match rows with
  | [] =>
      mkIngestOut host
        [ingest_warning
           "detail_query_network_interface expected 1 or more results"]
        None
  | _ =>
      match network_interface_loop rows [] with
      | inl err => mkIngestOut host [] (Some err)
      | inr networkInterfaces =>
          mkIngestOut (set_NetworkInterfaces networkInterfaces host) [] None
      end
  end.

Definition ingest_os_version : IngestFunc := fun host rows =>
  match rows with
  | [r0] =>
      let host :=
        set_OSVersion
          (col r0 "name" ++ " " ++ col r0 "major" ++ "." ++ col r0 "minor"
             ++ "." ++ col r0 "patch") host in
      let host := set_OSVersion (Strings.TrimDots (OSVersion host)) host in
      let host :=
        match r0 !! "build" with
        | Some build => set_Build build host
        | None => host
        end in
      let host := set_Platform (col r0 "platform") host in
      let host := set_PlatformLike (col r0 "platform_like") host in
      let host := set_CodeName (col r0 "code_name") host in
      let host :=
        if bool_decide (Platform host = "")
           && Strings.Contains (Strings.ToLower (col r0 "name")) "centos"
        then set_Platform "centos" host
        else host in
      mkIngestOut host [] None
  | _ => mkIngestOut host [expected_single "os_version" rows] None
  end.

(** The [switch] of [osquery_flags] on the flag name: which variable the
    parsed value of the row goes to. *)
Inductive Flag : Set :=
| distributed_interval
| config_tls_refresh
| config_refresh
| logger_tls_period.

Definition flag_of_name (name : string) : option Flag :=
  if bool_decide (name = "distributed_interval") then Some distributed_interval
  else if bool_decide (name = "config_tls_refresh") then Some config_tls_refresh
  else if bool_decide (name = "config_refresh") then Some config_refresh
  else if bool_decide (name = "logger_tls_period") then Some logger_tls_period
  else None.

Definition flag_name (f : Flag) : string :=
  match f with
  | distributed_interval => "distributed_interval"
  | config_tls_refresh => "config_tls_refresh"
  | config_refresh => "config_refresh"
  | logger_tls_period => "logger_tls_period"
  end.

(** The loop of [osquery_flags]: the host and the two local variables
    [configTLSRefresh] and [configRefresh] after the rows, and the error the
    function returns with from inside the loop. *)
Fixpoint osquery_flags_loop (rows : list row) (host : Host)
    (configTLSRefresh configRefresh : Z) : Host * Z * Z * option error :=
  match rows with
  | [] => (host, configTLSRefresh, configRefresh, None)
  | r :: rows' =>
      match flag_of_name (col r "name") with
      | None => osquery_flags_loop rows' host configTLSRefresh configRefresh
      | Some f =>
          match Strconv.Atoi (emptyToZero (col r "value")) with
          | (_, Some err) =>
              (host, configTLSRefresh, configRefresh,
               Some (Wrapped err ("parsing " ++ flag_name f)))
          | (interval, None) =>
              match f with
              | distributed_interval =>
                  osquery_flags_loop rows'
                    (set_DistributedInterval (to_uint interval) host)
                    configTLSRefresh configRefresh
              | config_tls_refresh =>
                  osquery_flags_loop rows' host (to_uint interval) configRefresh
              | config_refresh =>
                  osquery_flags_loop rows' host configTLSRefresh
                    (to_uint interval)
              | logger_tls_period =>
                  osquery_flags_loop rows'
                    (set_LoggerTLSPeriod (to_uint interval) host)
                    configTLSRefresh configRefresh
              end
          end
      end
  end.

Definition ingest_osquery_flags : IngestFunc := fun host rows =>
  match osquery_flags_loop rows host 0 0 with
  | (host, _, _, Some err) => mkIngestOut host [] (Some err)
  | (host, configTLSRefresh, configRefresh, None) =>
      let host :=
        if bool_decide (configTLSRefresh ≠ 0)
        then set_ConfigTLSRefresh configTLSRefresh host
        else set_ConfigTLSRefresh configRefresh host in
      mkIngestOut host [] None
  end.

Definition ingest_osquery_info : IngestFunc := fun host rows =>
  match rows with
  | [r0] => mkIngestOut (set_OsqueryVersion (col r0 "version") host) [] None
  | _ => mkIngestOut host [expected_single "osquery_info" rows] None
  end.

(** The two fields the loop of [osquery_flags] assigns, as optional
    writes: [None] leaves the field as it is. *)
Definition write_intervals (distributedInterval loggerTLSPeriod : option Z)
    (host : Host) : Host :=
  let host :=
    match distributedInterval with
    | Some v => set_DistributedInterval v host
    | None => host
    end in
  match loggerTLSPeriod with
  | Some v => set_LoggerTLSPeriod v host
  | None => host
  end.

(** What the loop of [osquery_flags] writes, read off the rows alone: the
    last value for each of the two fields of the host, the two local
    variables, and the error. *)
Fixpoint osquery_flags_writes (rows : list row) (di lp : option Z)
    (configTLSRefresh configRefresh : Z)
  : option Z * option Z * Z * Z * option error :=
  match rows with
  | [] => (di, lp, configTLSRefresh, configRefresh, None)
  | r :: rows' =>
      match flag_of_name (col r "name") with
      | None => osquery_flags_writes rows' di lp configTLSRefresh configRefresh
      | Some f =>
          match Strconv.Atoi (emptyToZero (col r "value")) with
          | (_, Some err) =>
              (di, lp, configTLSRefresh, configRefresh,
               Some (Wrapped err ("parsing " ++ flag_name f)))
          | (interval, None) =>
              match f with
              | distributed_interval =>
                  osquery_flags_writes rows' (Some (to_uint interval)) lp
                    configTLSRefresh configRefresh
              | config_tls_refresh =>
                  osquery_flags_writes rows' di lp (to_uint interval)
                    configRefresh
              | config_refresh =>
                  osquery_flags_writes rows' di lp configTLSRefresh
                    (to_uint interval)
              | logger_tls_period =>
                  osquery_flags_writes rows' di (Some (to_uint interval))
                    configTLSRefresh configRefresh
              end
          end
      end
  end.

(** The value of a flag as the agent reported it: the parsed value of the
    last row that carries the name of the flag, and [init] when no row
    does. *)
Definition flag_value (f : Flag) (rows : list row) (init : Z) : Z :=
  foldl
    (λ acc r,
       if bool_decide (col r "name" = flag_name f)
       then to_uint (Strconv.Atoi (emptyToZero (col r "value"))).1
       else acc)
    init rows.

(** In [system_info] the result of [Atoi] is assigned to the field of the
    host before the error is looked at. *)
Definition ingest_system_info : IngestFunc := fun host rows =>
  match rows with
  | [r0] =>
      let '(n, err) := Strconv.Atoi (emptyToZero (col r0 "physical_memory")) in
      let host := set_PhysicalMemory n host in
      match err with
      | Some err => mkIngestOut host [] (Some err)
      | None =>
      let host := set_HostName (col r0 "hostname") host in
      let host := set_UUID (col r0 "uuid") host in
      let host := set_CPUType (col r0 "cpu_type") host in
      let host := set_CPUSubtype (col r0 "cpu_subtype") host in
      let host := set_CPUBrand (col r0 "cpu_brand") host in
      let '(n, err) :=
        Strconv.Atoi (emptyToZero (col r0 "cpu_physical_cores")) in
      let host := set_CPUPhysicalCores n host in
      match err with
      | Some err => mkIngestOut host [] (Some err)
      | None =>
      let '(n, err) :=
        Strconv.Atoi (emptyToZero (col r0 "cpu_logical_cores")) in
      let host := set_CPULogicalCores n host in
      match err with
      | Some err => mkIngestOut host [] (Some err)
      | None =>
      let host := set_HardwareVendor (col r0 "hardware_vendor") host in
      let host := set_HardwareModel (col r0 "hardware_model") host in
      let host := set_HardwareVersion (col r0 "hardware_version") host in
      let host := set_HardwareSerial (col r0 "hardware_serial") host in
      let host := set_ComputerName (col r0 "computer_name") host in
      mkIngestOut host [] None
      end end end
  | _ => mkIngestOut host [expected_single "system_info" rows] None
  end.

(** [time.Second], in nanoseconds. *)
Definition Second : Z := 1000000000.

Definition ingest_uptime : IngestFunc := fun host rows =>
  match rows with
  | [r0] =>
      match Strconv.Atoi (emptyToZero (col r0 "total_seconds")) with
      | (_, Some err) => mkIngestOut host [] (Some err)
      | (uptimeSeconds, None) =>
          mkIngestOut (set_Uptime (wrap64 (uptimeSeconds * Second)) host)
            [] None
      end
  | _ => mkIngestOut host [expected_single "uptime" rows] None
  end.

(** The byte 34, the double quote of the flag names in a query text. *)
Definition dq : string := String (ascii_of_nat 34) EmptyString.

Definition network_interface_query : string :=
"select ia.interface, address, mask, broadcast, point_to_point,
                               id.interface, mac, id.type, mtu, metric, ipackets, opackets,
                               ibytes, obytes, ierrors, oerrors, idrops, odrops, last_change
                        from interface_details id join interface_addresses ia
                               on ia.interface = id.interface where length(mac) > 0
                               order by (ibytes + obytes) desc".

Definition osquery_flags_query : string :=
  "select name, value from osquery_flags where name in ("
    ++ dq ++ "distributed_interval" ++ dq ++ ", "
    ++ dq ++ "config_tls_refresh" ++ dq ++ ", "
    ++ dq ++ "config_refresh" ++ dq ++ ", "
    ++ dq ++ "logger_tls_period" ++ dq ++ ")".

(** The entries of the map [detailQueries]. *)
Definition detailQueries_entries : list (string * DetailQuery) :=
  [ ("network_interface",
     mkDetailQuery network_interface_query ingest_network_interface);
    ("os_version",
     mkDetailQuery "select * from os_version limit 1" ingest_os_version);
    ("osquery_flags",
     mkDetailQuery osquery_flags_query ingest_osquery_flags);
    ("osquery_info",
     mkDetailQuery "select * from osquery_info limit 1" ingest_osquery_info);
    ("system_info",
     mkDetailQuery "select * from system_info limit 1" ingest_system_info);
    ("uptime",
     mkDetailQuery "select * from uptime limit 1" ingest_uptime) ].

Definition detailQueries : gmap string DetailQuery :=
  list_to_map detailQueries_entries.

(** The names of the definitions whose ingestion expects exactly one row. *)
Definition single_row_queries : list string :=
  ["os_version"; "osquery_info"; "system_info"; "uptime"].

Definition hostLabelQueryPrefix : string := "kolide_label_query_".
Definition hostDetailQueryPrefix : string := "kolide_detail_query_".
Definition hostDistributedQueryPrefix : string := "kolide_distributed_query_".

(** [time.Hour], in nanoseconds. *)
Definition Hour : Z := 3600 * Second.

Definition detailUpdateInterval : Z := 1 * Hour.

(** Modelled from the spec: the types of package [kolide] that the service
    passes to its collaborators are not part of the sources at hand.  A
    distributed query campaign has an identifier, an originating query and a
    status among pending, running and complete; an execution record has the
    host, the campaign and a status among succeeded and failed. *)
Inductive QueryStatus : Set := QueryPending | QueryRunning | QueryComplete.

Record DistributedQueryCampaign : Type := mkCampaign {
  Campaign_ID : Z;
  Campaign_QueryID : Z;
  Status : QueryStatus
}.

Definition set_Status (v : QueryStatus) (c : DistributedQueryCampaign)
  : DistributedQueryCampaign :=
  mkCampaign (Campaign_ID c) (Campaign_QueryID c) v.

Inductive ExecutionStatus : Set := ExecutionSucceeded | ExecutionFailed.

Record DistributedQueryExecution : Type := mkExecution {
  Execution_HostID : Z;
  Execution_CampaignID : Z;
  Execution_Status : ExecutionStatus
}.

(** [kolide.DistributedQueryResult], the envelope given to the result
    store. *)
Record DistributedQueryResult : Type := mkResult {
  Result_CampaignID : Z;
  Result_Host : Host;
  Result_Rows : list row;
  Result_Error : option string
}.

(** [kolide.OsqueryStatus] is an integer; [kolide.StatusOK] is zero. *)
Definition StatusOK : Z := 0.

(** ** The service and its collaborators *)

(** A call to a collaborator, with its arguments. *)
Inductive Event : Type :=
| EvLog (keyvals : list string)
| EvNow
| EvWriteResult (res : DistributedQueryResult)
| EvDistributedQueryCampaign (id : Z)
| EvSaveDistributedQueryCampaign (campaign : DistributedQueryCampaign)
| EvNewDistributedQueryExecution (exec : DistributedQueryExecution)
| EvRecordLabelQueryExecutions (host : Host) (results : gmap Z bool) (t : Z)
| EvSaveHost (host : Host).

(** The collaborators of the service over their state [W]: the datastore
    [ds], the result store and the clock.  Each call returns its Go results
    and the next state. *)
Record service (W : Type) : Type := mkService {
  ds_DistributedQueryCampaign :
    Z -> W -> (error + DistributedQueryCampaign) * W;
  ds_SaveDistributedQueryCampaign :
    DistributedQueryCampaign -> W -> option error * W;
  ds_NewDistributedQueryExecution :
    DistributedQueryExecution -> W -> (error + DistributedQueryExecution) * W;
  ds_RecordLabelQueryExecutions :
    Host -> gmap Z bool -> Z -> W -> option error * W;
  ds_SaveHost : Host -> W -> option error * W;
  resultStore_WriteResult : DistributedQueryResult -> W -> option error * W;
  clock_Now : W -> Z * W
}.

Arguments ds_DistributedQueryCampaign {W} _ _ _.
Arguments ds_SaveDistributedQueryCampaign {W} _ _ _.
Arguments ds_NewDistributedQueryExecution {W} _ _ _.
Arguments ds_RecordLabelQueryExecutions {W} _ _ _ _ _.
Arguments ds_SaveHost {W} _ _ _.
Arguments resultStore_WriteResult {W} _ _ _.
Arguments clock_Now {W} _ _.

(** A computation of the service: from the state of the collaborators to a
    result, the next state and the trace of the calls it made, in order. *)
Definition M (W A : Type) : Type := W -> A * W * list Event.

Definition ret {W A} (a : A) : M W A := fun w => (a, w, []).

Definition bind {W A B} (m : M W A) (k : A -> M W B) : M W B :=
  fun w =>
    let '(a, w1, t1) := m w in
    let '(b, w2, t2) := k a w1 in
    (b, w2, (t1 ++ t2)%list).

#[global] Instance M_ret {W} : MRet (M W) := fun A a => ret a.
#[global] Instance M_bind {W} : MBind (M W) := fun A B k m => bind m k.

(** A call to a collaborator: run it on the state and record it. *)
Definition call {W R} (ev : Event) (op : W -> R * W) : M W R :=
  fun w => let '(r, w') := op w in (r, w', [ev]).

(** [svc.logger.Log(keyvals...)]. *)
Definition Log {W} (keyvals : list string) : M W unit :=
  fun w => (tt, w, [EvLog keyvals]).

Fixpoint Logs {W} (l : list (list string)) : M W unit :=
  match l with
  | [] => ret tt
  | kv :: l' => _ ← Log kv; Logs l'
  end.

(** The result and the trace of a computation from a state. *)
Definition result_of {W A} (m : M W A) (w : W) : A := (m w).1.1.
Definition trace_of {W A} (m : M W A) (w : W) : list Event := (m w).2.

Section Service.

Context {W : Type}.

(** [strconv.Quote], which [*strconv.NumError] uses for its text. *)
Variable Quote : string -> string.

Variable svc : service W.

Definition Now : M W Z := call EvNow (clock_Now svc).

Definition WriteResult (res : DistributedQueryResult) : M W (option error) :=
  call (EvWriteResult res) (resultStore_WriteResult svc res).

Definition DistributedQueryCampaignByID (id : Z)
  : M W (error + DistributedQueryCampaign) :=
  call (EvDistributedQueryCampaign id) (ds_DistributedQueryCampaign svc id).

Definition SaveDistributedQueryCampaign (campaign : DistributedQueryCampaign)
  : M W (option error) :=
  call (EvSaveDistributedQueryCampaign campaign)
    (ds_SaveDistributedQueryCampaign svc campaign).

Definition NewDistributedQueryExecution (exec : DistributedQueryExecution)
  : M W (error + DistributedQueryExecution) :=
  call (EvNewDistributedQueryExecution exec)
    (ds_NewDistributedQueryExecution svc exec).

Definition RecordLabelQueryExecutions (host : Host) (results : gmap Z bool)
    (t : Z) : M W (option error) :=
  call (EvRecordLabelQueryExecutions host results t)
    (ds_RecordLabelQueryExecutions svc host results t).

Definition SaveHost (host : Host) : M W (option error) :=
  call (EvSaveHost host) (ds_SaveHost svc host).

(** [hostDetailQueries]: the detail queries to send to the host, none when
    its details are fresh. *)
Definition hostDetailQueries (host : Host) : M W (gmap string string) :=
  now ← Now;
  if now - detailUpdateInterval <? DetailUpdateTime host
  then mret ∅
  else
    mret (list_to_map
            ((λ '(name, query), (hostDetailQueryPrefix ++ name, Query query))
               <$> map_to_list detailQueries)).

(** [ingestDetailQuery]: the host as the ingestion function left it, and the
    error. *)
Definition ingestDetailQuery (host : Host) (name : string) (rows : list row)
  : M W (Host * option error) :=
  let trimmedQuery := Strings.TrimPrefix name hostDetailQueryPrefix in
  match detailQueries !! trimmedQuery with
  | None =>
      mret (host,
            Some (osqueryError ("unknown detail query " ++ trimmedQuery) false))
  | Some query =>
      let out := Ingest query host rows in
      _ ← Logs (out_log out);
      match out_err out with
      | Some err =>
          mret (out_host out,
                Some (osqueryError
                        ("ingesting query " ++ name ++ ": " ++ Error Quote err)
                        false))
      | None => mret (out_host out, None)
      end
  end.

(** [ingestLabelQuery]: the map [results] after the call, and the error. *)
Definition ingestLabelQuery (host : Host) (query : string) (rows : list row)
    (results : gmap Z bool) : gmap Z bool * option error :=
  let trimmedQuery := Strings.TrimPrefix query hostLabelQueryPrefix in
  match Strconv.Atoi (emptyToZero trimmedQuery) with
  | (_, Some err) =>
      (results, Some (Wrapped err "converting query from string to int"))
  | (trimmedQueryNum, None) =>
      (<[to_uint trimmedQueryNum := (0 <? length rows)%nat]> results, None)
  end.

(** The type assertion [err.(pubsub.Error)] and the method [NoSubscriber]. *)
Definition is_NoSubscriber (err : error) : bool :=
  match err with
  | pubsubError _ noSubscriber => noSubscriber
  | _ => false
  end.

Definition ingestDistributedQuery (host : Host) (name : string)
    (rows : list row) (failed : bool) : M W (option error) :=
  let trimmedQuery := Strings.TrimPrefix name hostDistributedQueryPrefix in
  match Strconv.Atoi (emptyToZero trimmedQuery) with
  | (_, Some _) =>
      mret (Some (osqueryError
                    ("unable to parse campaign ID: " ++ trimmedQuery) false))
  | (campaignID, None) =>
      let res :=
        mkResult (to_uint campaignID) host rows
          (if failed then Some "failed" else None) in
      (* Record execution of the query *)
      let record : M W (option error) :=
        let status := if failed then ExecutionFailed else ExecutionSucceeded in
        let exec := mkExecution (ID host) (to_uint campaignID) status in
        r ← NewDistributedQueryExecution exec;
        match r with
        | inl err =>
            mret (Some (osqueryError
                          ("recording execution: " ++ Error Quote err) false))
        | inr _ => mret None
        end in
      err ← WriteResult res;
      match err with
      | None => record
      | Some err =>
          if negb (is_NoSubscriber err) then
            mret (Some (osqueryError
                          ("writing results: " ++ Error Quote err) false))
          else
            c ← DistributedQueryCampaignByID (to_uint campaignID);
            match c with
            | inl err =>
                mret (Some (osqueryError
                              ("loading orphaned campaign: "
                                 ++ Error Quote err) false))
            | inr campaign =>
                let campaign := set_Status QueryComplete campaign in
                err ← SaveDistributedQueryCampaign campaign;
                match err with
                | Some err =>
                    mret (Some (osqueryError
                                  ("closing orphaned campaign: "
                                     ++ Error Quote err) false))
                | None => record
                end
            end
      end
  end.

(** The variables of [SubmitDistributedQueryResults] that its loop
    updates. *)
Record SubmitVars : Type := mkSubmitVars {
  host_ : Host;
  detailUpdated : bool;
  labelResults : gmap Z bool
}.

(** The [switch] of the loop for one entry [query], [rows] of the results:
    the variables after it and the value of [err]. *)
Definition submit_entry (statuses : gmap string Z) (v : SubmitVars)
    (query : string) (rows : list row) : M W (SubmitVars * option error) :=
  if Strings.HasPrefix query hostDetailQueryPrefix then
    '(host, err) ← ingestDetailQuery (host_ v) query rows;
    mret (mkSubmitVars host true (labelResults v), err)
  else if Strings.HasPrefix query hostLabelQueryPrefix then
    let '(results, err) :=
      ingestLabelQuery (host_ v) query rows (labelResults v) in
    mret (mkSubmitVars (host_ v) (detailUpdated v) results, err)
  else if Strings.HasPrefix query hostDistributedQueryPrefix then
    let failed :=
      match statuses !! query with
      | Some status => bool_decide (status ≠ StatusOK)
      | None => false
      end in
    err ← ingestDistributedQuery (host_ v) query rows failed;
    mret (v, err)
  else
    mret (v, Some (osqueryError ("unknown query prefix: " ++ query) false)).

(** The loop [for query, rows := range results]: [results] lists the entries
    of the map in the order the iteration visits them.  The loop ends at the
    first entry whose ingestion fails, with the error the function
    returns. *)
Fixpoint submit_loop (statuses : gmap string Z)
    (results : list (string * list row)) (v : SubmitVars)
  : M W (SubmitVars * option error) :=
  match results with
  | [] => mret (v, None)
  | (query, rows) :: results' =>
      '(v, err) ← submit_entry statuses v query rows;
      match err with
      | Some err =>
          mret (v, Some (osqueryError
                           ("failed to ingest result: " ++ Error Quote err)
                           false))
      | None => submit_loop statuses results' v
      end
  end.

(** What follows the loop.  Last, the host is saved when a label or a
    detail query was ingested. *)
Definition submit_save_host (v : SubmitVars) (host : Host)
  : M W (option error) :=
  if (0 <? size (labelResults v))%nat || detailUpdated v then
    err ← SaveHost host;
    match err with
    | Some err =>
        mret (Some (osqueryError
                      ("failed to update host details: " ++ Error Quote err)
                      false))
    | None => mret None
    end
  else mret None.

(** Before that, the time of the detail update is set when a detail query
    was ingested. *)
Definition submit_stamp (v : SubmitVars) : M W (option error) :=
  if detailUpdated v then
    now ← Now;
    submit_save_host v (set_DetailUpdateTime now (host_ v))
  else submit_save_host v (host_ v).

(** First, the label results are recorded, if there are any. *)
Definition submit_save (v : SubmitVars) : M W (option error) :=
  if (0 <? size (labelResults v))%nat then
    now ← Now;
    err ← RecordLabelQueryExecutions (host_ v) (labelResults v) now;
    match err with
    | Some err =>
        mret (Some (osqueryError
                      ("failed to save labels: " ++ Error Quote err) false))
    | None => submit_stamp v
    end
  else submit_stamp v.

(** [SubmitDistributedQueryResults]: [ctx] is the host of the request
    context, if any. *)
Definition SubmitDistributedQueryResults (ctx : option Host)
    (results : list (string * list row)) (statuses : gmap string Z)
  : M W (option error) :=
  match ctx with
  | None =>
      mret (Some (osqueryError
                    "internal error: missing host from request context" false))
  | Some host =>
      '(v, err) ← submit_loop statuses results (mkSubmitVars host false ∅);
      match err with
      | Some err => mret (Some err)
      | None => submit_save v
      end
  end.

End Service.

(** ** The policy recorder (package [mysql]) *)

Module Policies.

(** A value bound to a placeholder of a statement. *)
Inductive SqlArg : Type :=
| ArgTime (t : Z)
| ArgUint (n : Z)
| ArgBoolPtr (b : option bool).

(** [sort.Slice] by insertion: the slice in an order where no element is
    [less] than one before it. *)
Fixpoint insert_sorted (less : Z -> Z -> bool) (x : Z) (l : list Z) : list Z :=
  match l with
  | [] => [x]
  | y :: l' => if less x y then x :: l else y :: insert_sorted less x l'
  end.

Fixpoint sort_Slice (less : Z -> Z -> bool) (l : list Z) : list Z :=
  match l with
  | [] => []
  | x :: l' => insert_sorted less x (sort_Slice less l')
  end.

(** [strings.Join]. *)
Fixpoint Join (elems : list string) (sep : string) : string :=
  match elems with
  | [] => ""
  | [e] => e
  | e :: elems' => e ++ sep ++ Join elems' sep
  end.

(** The first loop: the keys of [results] as the iteration [iter] yields
    them, then sorted. *)
Definition orderedIDs (iter : list Z) : list Z :=
  sort_Slice Z.ltb (foldl (λ ids policyID, (ids ++ [policyID])%list) [] iter).

(** The second loop: one group of placeholders and four values per policy. *)
Fixpoint bind_loop (results : gmap Z (option bool)) (updated : Z) (host : Host)
    (ids : list Z) (vals : list SqlArg) (bindvars : list string)
  : list SqlArg * list string :=
  match ids with
  | [] => (vals, bindvars)
  | policyID :: ids' =>
      let matches := default None (results !! policyID) in
      bind_loop results updated host ids'
        (vals ++ [ArgTime updated; ArgUint policyID; ArgUint (ID host);
                  ArgBoolPtr matches])
        (bindvars ++ ["(?,?,?,?)"])
  end.

Definition insert_head : string :=
  "INSERT INTO policy_membership_history (updated_at, policy_id, host_id, passes)"
    ++ String (ascii_of_nat 10)
         (String (ascii_of_nat 9) (String (ascii_of_nat 9)
            (String (ascii_of_nat 9) (String (ascii_of_nat 9) "VALUES ")))).

(** The statement the recorder gives to the writer: its text and the
    values it binds. *)
Definition policy_insert (iter : list Z) (host : Host)
    (results : gmap Z (option bool)) (updated : Z) : string * list SqlArg :=
  let '(vals, bindvars) :=
    bind_loop results updated host (orderedIDs iter) [] [] in
  (insert_head ++ Join bindvars ",", vals).

(** [RecordPolicyQueryExecutions]: [iter] is the order in which the first
    loop meets the keys of [results]; [ExecContext] is the writer and
    [Sprint] the formatting of the values in the text of the error.  The
    result is the statements executed and the error. *)
Definition RecordPolicyQueryExecutions
    (ExecContext : string -> list SqlArg -> option error)
    (Sprint : list SqlArg -> string)
    (iter : list Z) (host : Host) (results : gmap Z (option bool))
    (updated : Z) : list (string * list SqlArg) * option error :=
  let '(query, vals) := policy_insert iter host results updated in
  ([(query, vals)],
   match ExecContext query vals with
   | Some err =>
       Some (Wrapped err ("insert policy_membership (" ++ Sprint vals ++ ")"))
   | None => None
   end).

(** The four values the recorder binds for one policy. *)
Definition policy_row (results : gmap Z (option bool)) (updated : Z)
    (host : Host) (policyID : Z) : list SqlArg :=
  [ArgTime updated; ArgUint policyID; ArgUint (ID host);
   ArgBoolPtr (default None (results !! policyID))].

(** The policy identifiers a list of bound values carries, a row of four
    values at a time. *)
Fixpoint bound_policy_ids (vals : list SqlArg) : list Z :=
  match vals with
  | _ :: ArgUint policyID :: _ :: _ :: vals' =>
      policyID :: bound_policy_ids vals'
  | _ => []
  end.

End Policies.

(** The envelope and the execution record of a result. *)
Definition envelope (host : Host) (campaignID : Z) (rows : list row) (failed : bool)
  : DistributedQueryResult :=
  mkResult (to_uint campaignID) host rows (if failed then Some "failed" else None).

Definition execution (host : Host) (campaignID : Z) (failed : bool)
  : DistributedQueryExecution :=
  mkExecution (ID host) (to_uint campaignID)
    (if failed then ExecutionFailed else ExecutionSucceeded).

Section Runs.

Context {W : Type} (Quote : string → string) (svc : service W).

(** The runs of [ingestDistributedQuery] for a campaign identifier that
    parses, by the answers of the collaborators. *)
Inductive collected (host : Host) (campaignID : Z) (rows : list row)
    (failed : bool) (w : W) : option error → list Event → Prop :=
| collected_published w1 r w2 :
    resultStore_WriteResult svc (envelope host campaignID rows failed) w
    = (None, w1) →
    ds_NewDistributedQueryExecution svc (execution host campaignID failed) w1
    = (r, w2) →
    collected host campaignID rows failed w
      match r with
      | inl err =>
          Some (osqueryError ("recording execution: " ++ Error Quote err) false)
      | inr _ => None
      end
      [EvWriteResult (envelope host campaignID rows failed);
       EvNewDistributedQueryExecution (execution host campaignID failed)]
| collected_publish_failed err w1 :
    resultStore_WriteResult svc (envelope host campaignID rows failed) w
    = (Some err, w1) →
    is_NoSubscriber err = false →
    collected host campaignID rows failed w
      (Some (osqueryError ("writing results: " ++ Error Quote err) false))
      [EvWriteResult (envelope host campaignID rows failed)]
| collected_orphan_not_loaded err w1 err' w2 :
    resultStore_WriteResult svc (envelope host campaignID rows failed) w
    = (Some err, w1) →
    is_NoSubscriber err = true →
    ds_DistributedQueryCampaign svc (to_uint campaignID) w1 = (inl err', w2) →
    collected host campaignID rows failed w
      (Some (osqueryError
               ("loading orphaned campaign: " ++ Error Quote err') false))
      [EvWriteResult (envelope host campaignID rows failed);
       EvDistributedQueryCampaign (to_uint campaignID)]
| collected_orphan_not_closed err w1 campaign w2 err' w3 :
    resultStore_WriteResult svc (envelope host campaignID rows failed) w
    = (Some err, w1) →
    is_NoSubscriber err = true →
    ds_DistributedQueryCampaign svc (to_uint campaignID) w1
    = (inr campaign, w2) →
    ds_SaveDistributedQueryCampaign svc (set_Status QueryComplete campaign) w2
    = (Some err', w3) →
    collected host campaignID rows failed w
      (Some (osqueryError
               ("closing orphaned campaign: " ++ Error Quote err') false))
      [EvWriteResult (envelope host campaignID rows failed);
       EvDistributedQueryCampaign (to_uint campaignID);
       EvSaveDistributedQueryCampaign (set_Status QueryComplete campaign)]
| collected_orphan_closed err w1 campaign w2 w3 r w4 :
    resultStore_WriteResult svc (envelope host campaignID rows failed) w
    = (Some err, w1) →
    is_NoSubscriber err = true →
    ds_DistributedQueryCampaign svc (to_uint campaignID) w1
    = (inr campaign, w2) →
    ds_SaveDistributedQueryCampaign svc (set_Status QueryComplete campaign) w2
    = (None, w3) →
    ds_NewDistributedQueryExecution svc (execution host campaignID failed) w3
    = (r, w4) →
    collected host campaignID rows failed w
      match r with
      | inl err =>
          Some (osqueryError ("recording execution: " ++ Error Quote err) false)
      | inr _ => None
      end
      [EvWriteResult (envelope host campaignID rows failed);
       EvDistributedQueryCampaign (to_uint campaignID);
       EvSaveDistributedQueryCampaign (set_Status QueryComplete campaign);
       EvNewDistributedQueryExecution (execution host campaignID failed)].

(** The collaborators answered so that the result was delivered, or the
    orphaned campaign closed: the publication succeeded, or it failed for
    want of subscribers and the campaign was then loaded and saved. *)
Definition delivered_or_closed (host : Host) (campaignID : Z)
    (rows : list row) (failed : bool) (w : W) : Prop :=
  (∃ w1,
     resultStore_WriteResult svc (envelope host campaignID rows failed) w
     = (None, w1))
  ∨ (∃ err w1 campaign w2 w3,
       resultStore_WriteResult svc (envelope host campaignID rows failed) w
       = (Some err, w1)
       ∧ is_NoSubscriber err = true
       ∧ ds_DistributedQueryCampaign svc (to_uint campaignID) w1
         = (inr campaign, w2)
       ∧ ds_SaveDistributedQueryCampaign svc
           (set_Status QueryComplete campaign) w2 = (None, w3)).

End Runs.

(** ** The result submission, read off the batch *)

(** The calls that persist a mutation of the agent: its label memberships
    and the host. *)
Definition persists (ev : Event) : bool :=
  match ev with
  | EvRecordLabelQueryExecutions _ _ _ | EvSaveHost _ => true
  | _ => false
  end.

Definition is_RecordLabelQueryExecutions (ev : Event) : bool :=
  match ev with
  | EvRecordLabelQueryExecutions _ _ _ => true
  | _ => false
  end.

(** A query name under none of the three prefixes. *)
Definition unrecognized (query : string) : Prop :=
  Strings.HasPrefix query hostDetailQueryPrefix = false
  ∧ Strings.HasPrefix query hostLabelQueryPrefix = false
  ∧ Strings.HasPrefix query hostDistributedQueryPrefix = false.

(** The label a query name stands for, when what follows the prefix is a
    number. *)
Definition label_id (query : string) : option Z :=
  match
    Strconv.Atoi (emptyToZero (Strings.TrimPrefix query hostLabelQueryPrefix))
  with
  | (n, None) => Some (to_uint n)
  | (_, Some _) => None
  end.

(** The label memberships a batch reports, entry after entry in the order of
    the iteration: true for a label whose query returned a row. *)
Definition label_step (m : gmap Z bool) (entry : string * list row)
  : gmap Z bool :=
  if Strings.HasPrefix entry.1 hostDetailQueryPrefix then m
  else if Strings.HasPrefix entry.1 hostLabelQueryPrefix then
    match label_id entry.1 with
    | Some id => <[id := (0 <? length entry.2)%nat]> m
    | None => m
    end
  else m.

Definition label_memberships (results : list (string * list row))
    (m : gmap Z bool) : gmap Z bool :=
  foldl label_step m results.

(** Every call of a computation satisfies [P]. *)
Definition emits {W A} (P : Event → Prop) (m : M W A) : Prop :=
  ∀ w, Forall P (m w).2.

(** A numeric field whose text, the empty string taken as zero, is no
    integer of 64 bits in base ten: [strconv.Atoi] and [strconv.ParseInt]
    return an error for it. *)
Definition parse_fails (s : string) : Prop :=
  (Strconv.ParseInt_raw (emptyToZero s)).2 ≠ None.

(** The columns of a row of [network_interface] whose parse error the
    function returns. *)
Definition strict_columns_fail (r : row) : Prop :=
  parse_fails (col r "metric") ∨ parse_fails (col r "mtu")
  ∨ parse_fails (col r "type")
  ∨ ∃ lastChange, r !! "last_change" = Some lastChange ∧ parse_fails lastChange.

(** The counters of an interface taken from a row: the parsed value, or
    minus one. *)
Definition counters_of (r : row) (nic : NetworkInterface) : Prop :=
  IBytes nic = ParseInt_or_minus1 (col r "ibytes")
  ∧ IErrors nic = ParseInt_or_minus1 (col r "ierrors")
  ∧ IPackets nic = ParseInt_or_minus1 (col r "ipackets")
  ∧ OBytes nic = ParseInt_or_minus1 (col r "obytes")
  ∧ OErrors nic = ParseInt_or_minus1 (col r "oerrors")
  ∧ OPackets nic = ParseInt_or_minus1 (col r "opackets").

(** A row with the text of zero in the column, when the row has it empty or
    has it not: the numeric field as the normalization reads it. *)
Definition zero_if_empty (column : string) (r : row) : row :=
  if decide (col r column = "") then <[column := "0"]> r else r.

(** The numeric columns of a row of [network_interface] and of
    [system_info]. *)
Definition network_interface_numbers : list string :=
  ["ibytes"; "ierrors"; "ipackets"; "last_change"; "metric"; "mtu";
   "obytes"; "oerrors"; "opackets"; "type"].

Definition system_info_numbers : list string :=
  ["physical_memory"; "cpu_physical_cores"; "cpu_logical_cores"].

(** An ingestion function is idempotent when a second ingestion of the same
    rows, into the host the first one left, changes nothing. *)
Definition idempotent (f : IngestFunc) : Prop :=
  ∀ host rows, f (out_host (f host rows)) rows = f host rows.

(** ** Formatting of integers *)

(** [strconv.Itoa]: the decimal digits of an [int], after a minus sign when
    it is negative. *)
Definition Itoa (i : Z) : string := pretty i.

(** ** The session of an agent *)

(** The answer of the datastore to [AuthenticateHost]: the host, an error
    of the type [kolide.NotFoundError], or another error. *)
Inductive AuthResult : Type :=
| AuthOk (host : Host)
| AuthNotFound (err : error)
| AuthFailed (err : error).

(** The part of the application configuration that the enrollment reads. *)
Record AppConfig : Type := mkAppConfig {
  EnrollSecret : string
}.

(** [svc.config.Osquery]. *)
Record OsqueryConfig : Type := mkOsqueryConfig {
  NodeKeySize : Z;
  LabelUpdateInterval : Z
}.

(** A call of the session: one of the calls of the submission, or a call to
    the datastore for the authentication, the enrollment or the queries of a
    host. *)
Inductive SessionEvent : Type :=
| SvCore (ev : Event)
| SvAuthenticateHost (nodeKey : string)
| SvMarkHostSeen (host : Host) (t : Z)
| SvAppConfig
| SvEnrollHost (hostIdentifier : string) (nodeKeySize : Z)
| SvLabelQueriesForHost (host : Host) (cutoff : Z)
| SvDistributedQueriesForHost (host : Host).

(** The datastore of the session over the state [W].  [MarkHostSeen]
    receives a pointer to the host and answers with the host as it left it;
    [EnrollHost] answers with the node key of the new host; the two maps of
    queries are given by their entries in the order of the iteration. *)
Record session_store (W : Type) : Type := mkSessionStore {
  ds_AuthenticateHost : string → W → AuthResult * W;
  ds_MarkHostSeen : Host → Z → W → (option error * Host) * W;
  ds_AppConfig : W → (error + AppConfig) * W;
  ds_EnrollHost : string → Z → W → (error + string) * W;
  ds_LabelQueriesForHost :
    Host → Z → W → (error + list (string * string)) * W;
  ds_DistributedQueriesForHost : Host → W → (error + list (Z * string)) * W
}.

Arguments ds_AuthenticateHost {W} _ _ _.
Arguments ds_MarkHostSeen {W} _ _ _ _.
Arguments ds_AppConfig {W} _ _.
Arguments ds_EnrollHost {W} _ _ _ _.
Arguments ds_LabelQueriesForHost {W} _ _ _ _.
Arguments ds_DistributedQueriesForHost {W} _ _ _.

(** A computation of the session, with its trace. *)
Definition MS (W A : Type) : Type := W → A * W * list SessionEvent.

Definition retS {W A} (a : A) : MS W A := fun w => (a, w, []).

Definition bindS {W A B} (m : MS W A) (k : A → MS W B) : MS W B :=
  fun w =>
    let '(a, w1, t1) := m w in
    let '(b, w2, t2) := k a w1 in
    (b, w2, (t1 ++ t2)%list).

Definition callS {W R} (ev : SessionEvent) (op : W → R * W) : MS W R :=
  fun w => let '(r, w') := op w in (r, w', [ev]).

(** A computation of the submission run inside the session. *)
Definition liftS {W A} (m : M W A) : MS W A :=
  fun w => let '(a, w', t) := m w in (a, w', SvCore <$> t).

Section Session.

Context {W : Type}.

Variable Quote : string → string.
Variable svc : service W.
Variable store : session_store W.
Variable config : OsqueryConfig.

Definition AuthenticateHost (nodeKey : string) : MS W (error + Host) :=
  if bool_decide (nodeKey = "") then
    retS (inl (osqueryError "authentication error: missing node key" true))
  else
    bindS (callS (SvAuthenticateHost nodeKey)
             (ds_AuthenticateHost store nodeKey)) (λ r,
    match r with
    | AuthNotFound _ =>
        retS (inl (osqueryError
                     ("authentication error: invalid node key: " ++ nodeKey)
                     true))
    | AuthFailed err =>
        retS (inl (osqueryError
                     ("authentication error: " ++ Error Quote err) false))
    | AuthOk host =>
        (* Update the "seen" time used to calculate online status *)
        bindS (liftS (Now svc)) (λ now,
        bindS (callS (SvMarkHostSeen host now)
                 (ds_MarkHostSeen store host now)) (λ '(err, host),
        match err with
        | Some err =>
            retS (inl (osqueryError
                         ("failed to mark host seen: " ++ Error Quote err)
                         false))
        | None => retS (inr host)
        end))
    end).

Definition EnrollAgent (enrollSecret hostIdentifier : string)
  : MS W (error + string) :=
  bindS (callS SvAppConfig (ds_AppConfig store)) (λ r,
  match r with
  | inl err =>
      retS (inl (osqueryError
                   ("getting enroll secret: " ++ Error Quote err) true))
  | inr appConfig =>
      if bool_decide (enrollSecret ≠ EnrollSecret appConfig) then
        retS (inl (osqueryError "invalid enroll secret" true))
      else
        bindS (callS (SvEnrollHost hostIdentifier (NodeKeySize config))
                 (ds_EnrollHost store hostIdentifier (NodeKeySize config)))
          (λ r,
        match r with
        | inl err =>
            retS (inl (osqueryError
                         ("enrollment failed: " ++ Error Quote err) true))
        | inr nodeKey => retS (inr nodeKey)
        end)
  end).

(** The two loops of [GetDistributedQueries] that add the label queries and
    the queries of the campaigns to the map. *)
Definition add_label_queries (labelQueries : list (string * string))
    (queries : gmap string string) : gmap string string :=
  foldl (λ queries '(name, query), <[hostLabelQueryPrefix ++ name := query]> queries)
    queries labelQueries.

Definition add_distributed_queries (distributedQueries : list (Z * string))
    (queries : gmap string string) : gmap string string :=
  foldl
    (λ queries '(id, query),
       <[hostDistributedQueryPrefix ++ Itoa (wrap64 id) := query]> queries)
    queries distributedQueries.

Definition GetDistributedQueries (ctx : option Host)
  : MS W (error + gmap string string * Z) :=
  match ctx with
  | None =>
      retS (inl (osqueryError
                   "internal error: missing host from request context" false))
  | Some host =>
      bindS (liftS (hostDetailQueries svc host)) (λ queries,
      (* Retrieve the label queries that should be updated *)
      bindS (liftS (Now svc)) (λ now,
      let cutoff := now - LabelUpdateInterval config in
      bindS (callS (SvLabelQueriesForHost host cutoff)
               (ds_LabelQueriesForHost store host cutoff)) (λ r,
      match r with
      | inl err =>
          retS (inl (osqueryError
                       ("retrieving label queries: " ++ Error Quote err)
                       false))
      | inr labelQueries =>
          let queries := add_label_queries labelQueries queries in
          bindS (callS (SvDistributedQueriesForHost host)
                   (ds_DistributedQueriesForHost store host)) (λ r,
          match r with
          | inl err =>
              retS (inl (osqueryError
                           ("retrieving query campaigns: " ++ Error Quote err)
                           false))
          | inr distributedQueries =>
              let queries :=
                add_distributed_queries distributedQueries queries in
              let accelerate :=
                if bool_decide (HostName host = "")
                   && bool_decide (Platform host = "")
                then 10 else 0 in
              retS (inr (queries, accelerate))
          end)
      end)))
  end.

End Session.

(** A name of the map that [GetDistributedQueries] returns, with its
    text, is one that the submission takes: the name of a definition of the
    registry under the prefix of the detail queries, with the text of that
    definition; a number of an [int] under the prefix of the label queries,
    as [ingestLabelQuery] parses it; or a number of an [int] under the
    prefix of the distributed queries, as [ingestDistributedQuery] parses
    it. *)
Definition accepted_name (key text : string) : Prop :=
  (Strings.HasPrefix key hostDetailQueryPrefix = true
   ∧ ∃ query,
       detailQueries !! Strings.TrimPrefix key hostDetailQueryPrefix
       = Some query
       ∧ Query query = text)
  ∨ (Strings.HasPrefix key hostLabelQueryPrefix = true
     ∧ ∃ id,
         Strconv.Atoi
           (emptyToZero (Strings.TrimPrefix key hostLabelQueryPrefix))
         = (id, None))
  ∨ (Strings.HasPrefix key hostDistributedQueryPrefix = true
     ∧ ∃ id,
         Strconv.Atoi
           (emptyToZero (Strings.TrimPrefix key hostDistributedQueryPrefix))
         = (id, None)).

(** ** The policy queries of a host (package [mysql]) *)

(** The number of bytes [c] in a string. *)
Fixpoint count_byte (c : ascii) (s : string) : nat :=
  match s with
  | EmptyString => 0
  | String c' r => (if Ascii.eqb c' c then 1 else 0) + count_byte c r
  end.

(** The rows of the two selections of [PolicyQueriesForHost]: the
    identifier of a policy, as a string, and the text of its query. *)
Abbreviation policy_rows := (list (string * string)).

(** The loops [for _, row := range rows { results[row.Id] = row.Query }]. *)
Definition add_policy_rows (rows : policy_rows) (results : gmap string string)
  : gmap string string :=
  foldl (λ results '(id, query), <[id := query]> results) results rows.

Definition select_global_policies : string :=
  "SELECT p.id, q.query FROM policies p JOIN queries q ON (p.query_id=q.id) WHERE team_id is NULL".

Definition select_team_policies : string :=
  "SELECT p.id, q.query FROM policies p JOIN queries q ON (p.query_id=q.id) WHERE team_id = ?".

(** [PolicyQueriesForHost]: [SelectContext] is the reader, from the text of
    a selection and its arguments to the rows or an error, and [teamID] is
    the field [TeamID] of the host, the only one the function reads.  The
    result is the selections made, in order, and the map or the error. *)
Definition PolicyQueriesForHost
    (SelectContext : string → list Policies.SqlArg → error + policy_rows)
    (teamID : option Z)
  : list (string * list Policies.SqlArg) * (error + gmap string string) :=
  match SelectContext select_global_policies [] with
  | inl err =>
      ([(select_global_policies, [])],
       inl (Wrapped err "selecting policies for host"))
  | inr globalRows =>
      match teamID with
      | Some teamID =>
          match
            SelectContext select_team_policies [Policies.ArgUint teamID]
          with
          | inl err =>
              ([(select_global_policies, []);
                (select_team_policies, [Policies.ArgUint teamID])],
               inl (Wrapped err "selecting policies for host in team"))
          | inr teamRows =>
              ([(select_global_policies, []);
                (select_team_policies, [Policies.ArgUint teamID])],
               inr (add_policy_rows teamRows (add_policy_rows globalRows ∅)))
          end
      | None =>
          ([(select_global_policies, [])],
           inr (add_policy_rows [] (add_policy_rows globalRows ∅)))
      end
  end.

(** The query of the last row of a list that carries an identifier. *)
Definition last_query (id : string) (rows : policy_rows) : option string :=
  foldl (λ found '(id', query), if bool_decide (id' = id) then Some query else found)
    None rows.

(** ** The selections of policies (package [mysql]) *)

Definition nl : string := String (ascii_of_nat 10) EmptyString.
Definition tab : string := String (ascii_of_nat 9) EmptyString.

(** The text that [policyDB] and [listPoliciesDB] share, up to the
    condition. *)
Definition select_policies : string :=
  "SELECT" ++ nl
  ++ "       " ++ tab ++ tab ++ "p.*," ++ nl
  ++ "       " ++ tab ++ tab ++ "q.name as query_name," ++ nl
  ++ "       " ++ tab ++ tab
  ++ "(select count(*) from policy_membership where policy_id=p.id and passes=true) as passing_host_count,"
  ++ nl
  ++ "       " ++ tab ++ tab
  ++ "(select count(*) from policy_membership where policy_id=p.id and passes=false) as failing_host_count"
  ++ nl
  ++ tab ++ tab
  ++ "FROM policies p JOIN queries q ON (p.query_id=q.id) WHERE ".

(** The statement of [policyDB] and its arguments. *)
Definition policyDB_statement (id : Z) (teamID : option Z)
  : string * list Policies.SqlArg :=
  let teamWhere := "TRUE" in
  let args := [Policies.ArgUint id] in
  let '(teamWhere, args) :=
    match teamID with
    | Some teamID =>
        ("team_id = ?", (args ++ [Policies.ArgUint teamID])%list)
    | None => (teamWhere, args)
    end in
  (select_policies ++ "p.id=? AND " ++ teamWhere, args).

(** The statement of [listPoliciesDB] and its arguments. *)
Definition listPoliciesDB_statement (teamID : option Z)
  : string * list Policies.SqlArg :=
  let teamWhere := "p.team_id is NULL" in
  let args := [] in
  let '(teamWhere, args) :=
    match teamID with
    | Some teamID =>
        ("p.team_id = ?", (args ++ [Policies.ArgUint teamID])%list)
    | None => (teamWhere, args)
    end in
  (select_policies ++ teamWhere, args).

Section PolicySelections.

(** [fleet.Policy] is not among the sources at hand: the selections are
    taken over any type of policies. *)
Context {Policy : Type}.

(** [policyDB]: [GetContext] is the reader of one row. *)
Definition policyDB
    (GetContext : string → list Policies.SqlArg → error + Policy)
    (id : Z) (teamID : option Z) : error + Policy :=
  let '(query, args) := policyDB_statement id teamID in
  match GetContext query args with
  | inl err => inl (Wrapped err "getting policy")
  | inr policy => inr policy
  end.

(** [listPoliciesDB]: [SelectContext] is the reader of rows. *)
Definition listPoliciesDB
    (SelectContext : string → list Policies.SqlArg → error + list Policy)
    (teamID : option Z) : error + list Policy :=
  let '(query, args) := listPoliciesDB_statement teamID in
  match SelectContext query args with
  | inl err => inl (Wrapped err "listing policies")
  | inr policies => inr policies
  end.

(** [Policy], [TeamPolicy], [ListGlobalPolicies] and [ListTeamPolicies]. *)
Definition GlobalPolicy GetContext (id : Z) : error + Policy :=
  policyDB GetContext id None.

Definition TeamPolicy GetContext (teamID policyID : Z) : error + Policy :=
  policyDB GetContext policyID (Some teamID).

Definition ListGlobalPolicies SelectContext : error + list Policy :=
  listPoliciesDB SelectContext None.

Definition ListTeamPolicies SelectContext (teamID : Z) : error + list Policy :=
  listPoliciesDB SelectContext (Some teamID).

End PolicySelections.

(** ** The detail entries of a batch *)

(** What the ingestion of one entry of a batch leaves of the host, when
    the entry is a detail query of the registry; the host itself
    otherwise. *)
Definition detail_step (host : Host) (entry : string * list row) : Host :=
  if Strings.HasPrefix entry.1 hostDetailQueryPrefix then
    match
      detailQueries !! Strings.TrimPrefix entry.1 hostDetailQueryPrefix
    with
    | Some query => out_host (Ingest query host entry.2)
    | None => host
    end
  else host.

(** The host after the entries of a batch, in the order of the iteration. *)
Definition ingested_details (results : list (string * list row)) (host : Host)
  : Host :=
  foldl detail_step host results.

(** Two ingestion functions commute: the host after both does not depend on
    which one runs first. *)
Definition commute (f g : IngestFunc) : Prop :=
  ∀ host rows1 rows2,
    out_host (g (out_host (f host rows1)) rows2)
    = out_host (f (out_host (g host rows2)) rows1).

(** ** Further readings of a trace *)

Definition is_SaveHost (ev : Event) : bool :=
  match ev with
  | EvSaveHost _ => true
  | _ => false
  end.

(** The number of calls of a trace that a test selects. *)
Definition calls (test : Event → bool) (trace : list Event) : nat :=
  length (filter (λ ev, test ev = true) trace).

(** The value of [failed] that the loop of the submission derives from the
    statuses for a distributed query. *)
Definition reported_failed (statuses : gmap string Z) (query : string) : bool :=
  match statuses !! query with
  | Some status => bool_decide (status ≠ StatusOK)
  | None => false
  end.

(** ** Further readings of strings and rows *)

Definition starts_with_dot (s : string) : bool :=
  match s with
  | String c _ => Strings.is_dot c
  | EmptyString => false
  end.

Fixpoint ends_with_dot (s : string) : bool :=
  match s with
  | EmptyString => false
  | String c EmptyString => Strings.is_dot c
  | String _ r => ends_with_dot r
  end.

(** The columns of a row of [network_interface] that are copied as they
    are. *)
Definition copied_columns (r : row) (nic : NetworkInterface) : Prop :=
  MAC nic = col r "mac"
  ∧ IPAddress nic = col r "address"
  ∧ Broadcast nic = col r "broadcast"
  ∧ Interface nic = col r "interface"
  ∧ Mask nic = col r "mask"
  ∧ PointToPoint nic = col r "point_to_point".

(** ** Sample values *)

Module Sample.

Definition host : Host :=
  mkHost 1 0 "" "" "" "" "" "" "" "" 0 0 "" "" "" 0 0 "" "" "" "" "" [] 0 0 0.

(** The result map [{7: true, 3: false, 5: true}]. *)
Definition policy_results : gmap Z (option bool) :=
  <[7 := Some true]> (<[3 := Some false]> (<[5 := Some true]> ∅)).

(** A row of [os_version] of a CentOS 6 host, where osquery leaves the
    platform empty. *)
Definition centos_row : row :=
  <["name" := "CentOS"]> (<["major" := "6"]> (<["minor" := "10"]> ∅)).

Definition flag_row (name value : string) : row :=
  <["name" := name]> (<["value" := value]> ∅).

(** The legacy flag reported as zero, its successor as thirty. *)
Definition flags_legacy_zero : list row :=
  [flag_row "config_tls_refresh" "0"; flag_row "config_refresh" "30"].

(** A row of [network_interface] whose counter of bytes is no number. *)
Definition nic_row_bad_ibytes : row :=
  <["mac" := "aa:bb"]> (<["ibytes" := "abc"]> (<["mtu" := "1500"]> ∅)).

(** A rendering of [strconv.Quote] for texts without special bytes. *)
Definition quote (s : string) : string := dq ++ s ++ dq.

Definition campaign : DistributedQueryCampaign := mkCampaign 1 42 QueryRunning.

(** A service without state: the result store answers [publish], the
    datastore loads [campaign] and answers [save] when asked to save a
    campaign; every other call succeeds, and the clock shows 5000. *)
Definition svc (publish save : option error) : service unit :=
  {| ds_DistributedQueryCampaign := λ _ w, (inr campaign, w);
     ds_SaveDistributedQueryCampaign := λ _ w, (save, w);
     ds_NewDistributedQueryExecution := λ exec w, (inr exec, w);
     ds_RecordLabelQueryExecutions := λ _ _ _ w, (None, w);
     ds_SaveHost := λ _ w, (None, w);
     resultStore_WriteResult := λ _ w, (publish, w);
     clock_Now := λ w, (5000, w) |}.

(** The same service with a result store without subscribers and a
    datastore that does not find the campaign. *)
Definition svc_campaign_missing : service unit :=
  {| ds_DistributedQueryCampaign := λ _ w, (inl (otherError "not found"), w);
     ds_SaveDistributedQueryCampaign := λ _ w, (None, w);
     ds_NewDistributedQueryExecution := λ exec w, (inr exec, w);
     ds_RecordLabelQueryExecutions := λ _ _ _ w, (None, w);
     ds_SaveHost := λ _ w, (None, w);
     resultStore_WriteResult :=
       λ _ w, (Some (pubsubError "no subscriber" true), w);
     clock_Now := λ w, (5000, w) |}.

Definition no_subscriber : error := pubsubError "no subscriber" true.
Definition broken_pipe : error := otherError "broken pipe".

(** A batch of two label queries, the first without rows. *)
Definition label_batch : list (string * list row) :=
  [("kolide_label_query_1", []); ("kolide_label_query_2", [centos_row])].

Definition label_results : gmap Z bool := <[1 := false]> (<[2 := true]> ∅).

(** A batch of two names that stand for the label 1, the first with a row
    and the second without, and the same batch as an iteration that starts
    at the other entry visits it. *)
Definition alias_batch : list (string * list row) :=
  [("kolide_label_query_1", [centos_row]); ("kolide_label_query_01", [])].

Definition alias_batch_reversed : list (string * list row) :=
  [("kolide_label_query_01", []); ("kolide_label_query_1", [centos_row])].

(** A batch of one detail query that returned no row. *)
Definition uptime_batch : list (string * list row) :=
  [("kolide_detail_query_uptime", [])].

(** The interval of the distributed queries reported as minus one. *)
Definition flags_negative : list row := [flag_row "distributed_interval" "-1"].

(** A host whose details were updated one hour before the origin of the
    times. *)
Definition stale_host : Host := set_DetailUpdateTime (- 3600000000000) host.

(** A datastore of the session that knows the node key k1, has the
    secret s3cret, and hands out one label query and one campaign. *)
Definition store : session_store unit :=
  {| ds_AuthenticateHost := λ nodeKey w,
       (if bool_decide (nodeKey = "k1") then AuthOk host
        else AuthNotFound (otherError "not found"), w);
     ds_MarkHostSeen := λ host _ w, (None, host, w);
     ds_AppConfig := λ w, (inr (mkAppConfig "s3cret"), w);
     ds_EnrollHost := λ _ _ w, (inr "k2", w);
     ds_LabelQueriesForHost := λ _ _ w, (inr [("1", "select 1")], w);
     ds_DistributedQueriesForHost := λ _ w, (inr [(7, "select 7")], w) |}.

Definition osquery_config : OsqueryConfig := mkOsqueryConfig 24 3600000000000.

Definition handed_out : gmap string string :=
  <["kolide_label_query_1" := "select 1"]>
    (<["kolide_distributed_query_7" := "select 7"]> ∅).

(** A row of [uptime]. *)
Definition uptime_row : row := <["total_seconds" := "86400"]> ∅.

(** A batch of two detail queries, and the same batch as an iteration that
    starts at the other entry visits it. *)
Definition details_batch : list (string * list row) :=
  [("kolide_detail_query_uptime", [uptime_row]);
   ("kolide_detail_query_os_version", [centos_row])].

Definition details_batch_reversed : list (string * list row) :=
  [("kolide_detail_query_os_version", [centos_row]);
   ("kolide_detail_query_uptime", [uptime_row])].

End Sample.

(** * Properties *)

(** ** The policy recorder *)

Section PolicyRecorder.

Import Policies.

Lemma insert_sorted_Permutation less x l : insert_sorted less x l ≡ₚ x :: l.
Proof.
  induction l as [|y l IH]; simpl; [done|].
  destruct (less x y); [done|].
  rewrite IH. apply perm_swap.
Qed.

Lemma sort_Slice_Permutation less l : sort_Slice less l ≡ₚ l.
Proof.
  induction l as [|x l IH]; simpl; [done|].
  by rewrite insert_sorted_Permutation, IH.
Qed.

Lemma insert_sorted_le x l :
  StronglySorted Z.le l → StronglySorted Z.le (insert_sorted Z.ltb x l).
Proof.
  induction 1 as [|y l Hl IH Hy]; simpl.
  - repeat constructor.
  - destruct (Z.ltb_spec x y) as [Hlt|Hge].
    + constructor; [by constructor|].
      constructor; [lia|].
      eapply Forall_impl; [exact Hy|]. intros z Hz. simpl in Hz. lia.
    + constructor; [exact IH|].
      rewrite insert_sorted_Permutation. by constructor.
Qed.

Lemma sort_Slice_le l : StronglySorted Z.le (sort_Slice Z.ltb l).
Proof.
  induction l as [|x l IH]; simpl; [constructor|by apply insert_sorted_le].
Qed.

Lemma StronglySorted_le_NoDup_lt (l : list Z) :
  StronglySorted Z.le l → NoDup l → StronglySorted Z.lt l.
Proof.
  induction 1 as [|x l Hl IH Hx]; intros Hnd; [constructor|].
  apply NoDup_cons in Hnd as [Hnotin Hnd].
  constructor; [by apply IH|].
  apply Forall_forall. intros y Hy.
  rewrite Forall_forall in Hx. specialize (Hx y Hy).
  assert (x ≠ y) by (intros ->; done). lia.
Qed.

Lemma collect_keys (iter acc : list Z) :
  foldl (λ ids policyID, (ids ++ [policyID])%list) acc iter = (acc ++ iter)%list.
Proof.
  revert acc. induction iter as [|x iter IH]; intros acc; simpl.
  - by rewrite app_nil_r.
  - rewrite IH. by rewrite <- app_assoc.
Qed.

Lemma bind_loop_spec results updated host ids vals bindvars :
  bind_loop results updated host ids vals bindvars
  = ((vals ++ ids ≫= policy_row results updated host)%list,
     (bindvars ++ replicate (length ids) "(?,?,?,?)")%list).
Proof.
  revert vals bindvars.
  induction ids as [|x ids IH]; intros vals bindvars.
  - simpl. by rewrite !app_nil_r.
  - cbn [bind_loop length replicate]. rewrite IH, bind_cons.
    unfold policy_row at 2. by rewrite <- !app_assoc.
Qed.

Lemma bound_policy_ids_rows results updated host ids :
  bound_policy_ids (ids ≫= policy_row results updated host) = ids.
Proof.
  induction ids as [|x ids IH]; [done|].
  rewrite bind_cons. unfold policy_row at 1. simpl. by rewrite IH.
Qed.

Lemma orderedIDs_Permutation iter : orderedIDs iter ≡ₚ iter.
Proof.
  unfold orderedIDs. by rewrite sort_Slice_Permutation, collect_keys.
Qed.

Lemma orderedIDs_unique iter iter' :
  iter ≡ₚ iter' → orderedIDs iter = orderedIDs iter'.
Proof.
  intros Hp.
  apply (StronglySorted_unique Z.le); try apply sort_Slice_le.
  by rewrite !orderedIDs_Permutation.
Qed.

(** C1. Whatever the order [iter] in which the keys of the result map are
    met, the statement given to the writer binds the rows of four values of
    the policies in strictly ascending order of identifier, one row for each
    key of the map and no other, each with the value the map holds for it;
    the statement is the same for every iteration order, it has one group of
    placeholders per row, and it is the one statement executed. *)
Theorem record_policy_rows_ascending
    (Exec : string → list SqlArg → option error) (Sprint : list SqlArg → string)
    (iter : list Z) (host : Host) (results : gmap Z (option bool))
    (updated : Z) :
  iter ≡ₚ (map_to_list results).*1 →
  let stmt := policy_insert iter host results updated in
  let ids := bound_policy_ids stmt.2 in
  stmt.2 = ids ≫= policy_row results updated host
  ∧ StronglySorted Z.lt ids
  ∧ NoDup ids
  ∧ (∀ policyID, policyID ∈ ids ↔ is_Some (results !! policyID))
  ∧ (∀ policyID matches,
       results !! policyID = Some matches →
       policy_row results updated host policyID
       = [ArgTime updated; ArgUint policyID; ArgUint (ID host);
          ArgBoolPtr matches])
  ∧ stmt.1
    = insert_head ++ Join (replicate (size results) "(?,?,?,?)") ","
  ∧ (∀ iter', iter' ≡ₚ (map_to_list results).*1 →
       policy_insert iter' host results updated = stmt)
  ∧ (RecordPolicyQueryExecutions Exec Sprint iter host results updated).1
    = [stmt].
Proof.
  intros Hperm stmt ids.
  assert (Hstmt : stmt
    = (insert_head
         ++ Join (replicate (length (orderedIDs iter)) "(?,?,?,?)") ",",
       orderedIDs iter ≫= policy_row results updated host)).
  { unfold stmt, policy_insert. by rewrite bind_loop_spec. }
  assert (Hids : ids = orderedIDs iter).
  { unfold ids. rewrite Hstmt. simpl. apply bound_policy_ids_rows. }
  assert (Hp : ids ≡ₚ (map_to_list results).*1).
  { by rewrite Hids, orderedIDs_Permutation. }
  assert (Hnd : NoDup ids).
  { rewrite Hp. apply NoDup_fst_map_to_list. }
  repeat split.
  - rewrite Hids, Hstmt. done.
  - apply StronglySorted_le_NoDup_lt; [|done].
    rewrite Hids. apply sort_Slice_le.
  - done.
  - rewrite Hp. intros Hin.
    apply list_elem_of_fmap in Hin as [[k v] [-> Hin]].
    apply elem_of_map_to_list in Hin. by exists v.
  - rewrite Hp. intros [v Hv].
    apply list_elem_of_fmap. exists (policyID, v).
    split; [done|]. by apply elem_of_map_to_list.
  - intros policyID matches Hm. unfold policy_row. by rewrite Hm.
  - rewrite Hstmt. simpl. do 3 f_equal.
    rewrite <- Hids, Hp, length_fmap. apply length_map_to_list.
  - intros iter' Hperm'. unfold policy_insert.
    rewrite !bind_loop_spec. fold stmt. rewrite Hstmt.
    rewrite (orderedIDs_unique iter' iter); [done|].
    by rewrite Hperm, Hperm'.
  - unfold RecordPolicyQueryExecutions. fold stmt. by destruct stmt.
Qed.

Lemma record_policy_rows_ascending_witness :
  bound_policy_ids
    (policy_insert [7; 3; 5] Sample.host Sample.policy_results 1000).2
  = [3; 5; 7]
  ∧ StronglySorted Z.lt
      (bound_policy_ids
         (policy_insert [7; 3; 5] Sample.host Sample.policy_results 1000).2).
Proof.
  split; [vm_compute; reflexivity|].
  apply (record_policy_rows_ascending (λ _ _, None) (λ _, "") [7; 3; 5]
           Sample.host Sample.policy_results 1000).
  apply (bool_decide_unpack _). vm_compute. reflexivity.
Defined.

End PolicyRecorder.

(** ** The detail query registry *)

Lemma detailQueries_names_NoDup : NoDup detailQueries_entries.*1.
Proof. apply (bool_decide_unpack _). vm_compute. reflexivity. Qed.

Lemma detailQueries_lookup name query :
  detailQueries !! name = Some query ↔ (name, query) ∈ detailQueries_entries.
Proof.
  unfold detailQueries. symmetry.
  apply elem_of_list_to_map, detailQueries_names_NoDup.
Qed.

(** The ingestion function of a definition of the registry, by name. *)
Lemma detailQueries_ingest name query :
  detailQueries !! name = Some query →
  (name = "network_interface" ∧ Ingest query = ingest_network_interface)
  ∨ (name = "os_version" ∧ Ingest query = ingest_os_version)
  ∨ (name = "osquery_flags" ∧ Ingest query = ingest_osquery_flags)
  ∨ (name = "osquery_info" ∧ Ingest query = ingest_osquery_info)
  ∨ (name = "system_info" ∧ Ingest query = ingest_system_info)
  ∨ (name = "uptime" ∧ Ingest query = ingest_uptime).
Proof.
  rewrite detailQueries_lookup. unfold detailQueries_entries.
  rewrite !elem_of_cons, elem_of_nil.
  intros [H|[H|[H|[H|[H|[H|[]]]]]]]; inversion H; subst; simpl; tauto.
Qed.

Lemma detailQueries_lookup_os_version :
  detailQueries !! "os_version"
  = Some (mkDetailQuery "select * from os_version limit 1" ingest_os_version).
Proof.
  apply detailQueries_lookup. unfold detailQueries_entries.
  rewrite !elem_of_cons. tauto.
Qed.


(** The definitions of the registry that expect exactly one row. *)
Lemma single_row_ingest name rows host :
  name ∈ single_row_queries →
  length rows ≠ 1%nat →
  ∀ query, detailQueries !! name = Some query →
  Ingest query host rows = mkIngestOut host [expected_single name rows] None.
Proof.
  intros Hname Hlen query Hq.
  assert (Hrows : ∀ r, rows ≠ [r]) by (intros r ->; done).
  unfold single_row_queries in Hname.
  rewrite !elem_of_cons, elem_of_nil in Hname.
  destruct (detailQueries_ingest _ _ Hq)
    as [[-> E]|[[-> E]|[[-> E]|[[-> E]|[[-> E]|[-> E]]]]]];
    try (exfalso; destruct Hname as [?|[?|[?|[?|[]]]]]; discriminate);
    rewrite E;
    destruct rows as [|r [|r' rows']]; try done; by destruct (Hrows r).
Qed.

(** C8. A definition that expects exactly one row (os_version,
    osquery_info, system_info, uptime) and is given no row, or more than
    one, returns no error, leaves every field of the host as it was, so that
    no row, the first one included, is used, and gives one warning to the
    logger. *)
Theorem single_row_mismatch_skipped (name : string) (query : DetailQuery)
    (host : Host) (rows : list row) :
  name ∈ single_row_queries →
  detailQueries !! name = Some query →
  length rows ≠ 1%nat →
  out_err (Ingest query host rows) = None
  ∧ out_host (Ingest query host rows) = host
  ∧ out_log (Ingest query host rows) = [expected_single name rows].
Proof.
  intros Hname Hq Hlen.
  by rewrite (single_row_ingest name rows host Hname Hlen query Hq).
Qed.

Lemma single_row_mismatch_skipped_witness :
  out_host
    (ingest_os_version Sample.host [Sample.centos_row; Sample.centos_row])
  = Sample.host.
Proof.
  apply (single_row_mismatch_skipped "os_version"
           (mkDetailQuery "select * from os_version limit 1" ingest_os_version)
           Sample.host [Sample.centos_row; Sample.centos_row]).
  - unfold single_row_queries. rewrite !elem_of_cons. tauto.
  - exact detailQueries_lookup_os_version.
  - simpl. lia.
Defined.

(** *** Idempotence *)

(** Reduction of field assignments and field reads on a host. *)
Ltac host_cbn :=
  cbn [ID DetailUpdateTime HostName UUID Platform OsqueryVersion OSVersion
    Build PlatformLike CodeName Uptime PhysicalMemory CPUType CPUSubtype
    CPUBrand CPUPhysicalCores CPULogicalCores HardwareVendor HardwareModel
    HardwareVersion HardwareSerial ComputerName NetworkInterfaces
    DistributedInterval LoggerTLSPeriod ConfigTLSRefresh
    set_DetailUpdateTime set_HostName set_UUID set_Platform
    set_OsqueryVersion set_OSVersion set_Build set_PlatformLike
    set_CodeName set_Uptime set_PhysicalMemory set_CPUType set_CPUSubtype
    set_CPUBrand set_CPUPhysicalCores set_CPULogicalCores
    set_HardwareVendor set_HardwareModel set_HardwareVersion
    set_HardwareSerial set_ComputerName set_NetworkInterfaces
    set_DistributedInterval set_LoggerTLSPeriod set_ConfigTLSRefresh
    out_host out_log out_err write_intervals] in *.

Lemma set_DistributedInterval_write v di lp host :
  set_DistributedInterval v (write_intervals di lp host)
  = write_intervals (Some v) lp host.
Proof. by destruct host, di, lp. Qed.

Lemma set_LoggerTLSPeriod_write v di lp host :
  set_LoggerTLSPeriod v (write_intervals di lp host)
  = write_intervals di (Some v) host.
Proof. by destruct host, di, lp. Qed.

Lemma osquery_flags_loop_writes rows :
  ∀ host di lp tls cr,
    osquery_flags_loop rows (write_intervals di lp host) tls cr
    = let '(di', lp', tls', cr', err) := osquery_flags_writes rows di lp tls cr in
      (write_intervals di' lp' host, tls', cr', err).
Proof.
  induction rows as [|r rows IH]; intros host di lp tls cr; [done|].
  cbn [osquery_flags_loop osquery_flags_writes].
  destruct (flag_of_name (col r "name")) as [f|]; [|apply IH].
  destruct (Strconv.Atoi (emptyToZero (col r "value"))) as [n [err|]];
    [done|].
  destruct f.
  - rewrite set_DistributedInterval_write. apply IH.
  - apply IH.
  - apply IH.
  - rewrite set_LoggerTLSPeriod_write. apply IH.
Qed.

Lemma osquery_flags_loop_from host rows :
  osquery_flags_loop rows host 0 0
  = let '(di, lp, tls, cr, err) := osquery_flags_writes rows None None 0 0 in
    (write_intervals di lp host, tls, cr, err).
Proof. apply (osquery_flags_loop_writes rows host None None). Qed.

Lemma ingest_network_interface_idempotent : idempotent ingest_network_interface.
Proof.
  intros host rows. unfold ingest_network_interface.
  destruct rows as [|r rows]; [done|].
  destruct (network_interface_loop (r :: rows) []) as [err|nics]; [done|].
  by destruct host.
Qed.

Lemma ingest_os_version_idempotent : idempotent ingest_os_version.
Proof.
  intros host rows. unfold ingest_os_version.
  destruct rows as [|r0 [|r1 rows]]; try done.
  destruct host. host_cbn.
  destruct (r0 !! "build"); host_cbn;
    destruct (bool_decide (col r0 "platform" = "")
              && Strings.Contains (Strings.ToLower (col r0 "name")) "centos")
      eqn:E;
    host_cbn; rewrite E; reflexivity.
Qed.

Lemma ingest_osquery_flags_idempotent : idempotent ingest_osquery_flags.
Proof.
  intros host rows. unfold ingest_osquery_flags.
  rewrite osquery_flags_loop_from.
  destruct (osquery_flags_writes rows None None 0 0)
    as [[[[di lp] tls] cr] [err|]] eqn:E; host_cbn;
    rewrite osquery_flags_loop_from, E.
  - by destruct host, di, lp.
  - destruct (bool_decide (tls ≠ 0)); by destruct host, di, lp.
Qed.

Lemma ingest_osquery_info_idempotent : idempotent ingest_osquery_info.
Proof.
  intros host rows. unfold ingest_osquery_info.
  destruct rows as [|r0 [|r1 rows]]; try done. by destruct host.
Qed.

Lemma ingest_system_info_idempotent : idempotent ingest_system_info.
Proof.
  intros host rows. unfold ingest_system_info.
  destruct rows as [|r0 [|r1 rows]]; try done.
  destruct (Strconv.Atoi (emptyToZero (col r0 "physical_memory")))
    as [n1 [e1|]]; [by destruct host|].
  destruct (Strconv.Atoi (emptyToZero (col r0 "cpu_physical_cores")))
    as [n2 [e2|]]; [by destruct host|].
  destruct (Strconv.Atoi (emptyToZero (col r0 "cpu_logical_cores")))
    as [n3 [e3|]]; by destruct host.
Qed.

Lemma ingest_uptime_idempotent : idempotent ingest_uptime.
Proof.
  intros host rows. unfold ingest_uptime.
  destruct rows as [|r0 [|r1 rows]]; try done.
  destruct (Strconv.Atoi (emptyToZero (col r0 "total_seconds")))
    as [n [e|]]; [done|]. by destruct host.
Qed.

(** C9. For every definition of the registry and every list of rows,
    ingesting the rows into the host that a first ingestion of the same rows
    left gives that host again, and the same error and warnings. *)
Theorem detail_ingestion_idempotent (name : string) (query : DetailQuery)
    (host : Host) (rows : list row) :
  detailQueries !! name = Some query →
  out_host (Ingest query (out_host (Ingest query host rows)) rows)
  = out_host (Ingest query host rows)
  ∧ Ingest query (out_host (Ingest query host rows)) rows
    = Ingest query host rows.
Proof.
  intros Hq.
  assert (Hi : idempotent (Ingest query)).
  { destruct (detailQueries_ingest _ _ Hq)
      as [[_ E]|[[_ E]|[[_ E]|[[_ E]|[[_ E]|[_ E]]]]]]; rewrite E.
    - apply ingest_network_interface_idempotent.
    - apply ingest_os_version_idempotent.
    - apply ingest_osquery_flags_idempotent.
    - apply ingest_osquery_info_idempotent.
    - apply ingest_system_info_idempotent.
    - apply ingest_uptime_idempotent. }
  by rewrite Hi.
Qed.

Lemma detail_ingestion_idempotent_witness :
  out_host
    (ingest_os_version
       (out_host (ingest_os_version Sample.host [Sample.centos_row]))
       [Sample.centos_row])
  = out_host (ingest_os_version Sample.host [Sample.centos_row]).
Proof.
  apply (detail_ingestion_idempotent "os_version"
           (mkDetailQuery "select * from os_version limit 1" ingest_os_version)
           Sample.host [Sample.centos_row]).
  exact detailQueries_lookup_os_version.
Defined.

(** *** The two refresh flags *)

Lemma flag_of_name_Some name f :
  flag_of_name name = Some f → name = flag_name f.
Proof.
  unfold flag_of_name. repeat case_bool_decide; intros [= <-]; by subst.
Qed.

Lemma flag_of_name_None name f : flag_of_name name = None → name ≠ flag_name f.
Proof.
  unfold flag_of_name. repeat case_bool_decide; try done.
  intros _. by destruct f.
Qed.

Lemma flag_name_inj f g : flag_name f = flag_name g → f = g.
Proof. by destruct f, g. Qed.

(** The two local variables after a loop without error hold the last value
    reported for their flag. *)
Lemma osquery_flags_writes_locals rows :
  ∀ di lp tls cr di' lp' tls' cr',
    osquery_flags_writes rows di lp tls cr = (di', lp', tls', cr', None) →
    tls' = flag_value config_tls_refresh rows tls
    ∧ cr' = flag_value config_refresh rows cr.
Proof.
  unfold flag_value.
  induction rows as [|r rows IH]; intros di lp tls cr di' lp' tls' cr' H.
  - by injection H as _ _ <- <-.
  - cbn [osquery_flags_writes] in H. cbn [foldl].
    destruct (flag_of_name (col r "name")) as [f|] eqn:Hf.
    + apply flag_of_name_Some in Hf. rewrite Hf.
      destruct (Strconv.Atoi (emptyToZero (col r "value"))) as [n [err|]];
        [done|].
      destruct f; apply IH in H; exact H.
    + rewrite !bool_decide_eq_false_2 by (by apply flag_of_name_None).
      by apply IH in H.
Qed.

(** C7. When the ingestion of the osquery flags returns no error, the
    [ConfigTLSRefresh] of the host is the value reported for the legacy flag
    config_tls_refresh when that value is not zero, and otherwise, the flag
    being absent or reported as zero, the value reported for config_refresh
    (zero when that one is absent too). *)
Theorem config_tls_refresh_precedence (host : Host) (rows : list row) :
  out_err (ingest_osquery_flags host rows) = None →
  ConfigTLSRefresh (out_host (ingest_osquery_flags host rows))
  = if bool_decide (flag_value config_tls_refresh rows 0 ≠ 0)
    then flag_value config_tls_refresh rows 0
    else flag_value config_refresh rows 0.
Proof.
  unfold ingest_osquery_flags. rewrite osquery_flags_loop_from.
  destruct (osquery_flags_writes rows None None 0 0)
    as [[[[di lp] tls] cr] [err|]] eqn:E; [done|].
  intros _. apply osquery_flags_writes_locals in E as [<- <-].
  destruct (bool_decide (tls ≠ 0)); by destruct host, di, lp.
Qed.

Lemma config_tls_refresh_precedence_witness :
  ConfigTLSRefresh
    (out_host (ingest_osquery_flags Sample.host Sample.flags_legacy_zero))
  = 30.
Proof.
  rewrite (config_tls_refresh_precedence Sample.host Sample.flags_legacy_zero).
  - vm_compute. reflexivity.
  - vm_compute. reflexivity.
Defined.

(** *** Numeric fields *)

Lemma Atoi_error s : parse_fails s ↔ (Strconv.Atoi (emptyToZero s)).2 ≠ None.
Proof.
  unfold parse_fails, Strconv.Atoi, Strconv.with_NumError.
  by destruct (Strconv.ParseInt_raw (emptyToZero s)) as [v [k|]].
Qed.

Lemma ParseInt_error s :
  parse_fails s ↔ (Strconv.ParseInt (emptyToZero s)).2 ≠ None.
Proof.
  unfold parse_fails, Strconv.ParseInt, Strconv.with_NumError.
  by destruct (Strconv.ParseInt_raw (emptyToZero s)) as [v [k|]].
Qed.

Lemma Atoi_fails s :
  parse_fails s → ∃ v err, Strconv.Atoi (emptyToZero s) = (v, Some err).
Proof.
  rewrite Atoi_error.
  destruct (Strconv.Atoi (emptyToZero s)) as [v [err|]]; [eauto|done].
Qed.

Lemma ParseInt_fails s :
  parse_fails s → ∃ v err, Strconv.ParseInt (emptyToZero s) = (v, Some err).
Proof.
  rewrite ParseInt_error.
  destruct (Strconv.ParseInt (emptyToZero s)) as [v [err|]]; [eauto|done].
Qed.

Lemma ParseInt_or_minus1_fails s : parse_fails s → ParseInt_or_minus1 s = -1.
Proof.
  intros (v & err & E)%ParseInt_fails. unfold ParseInt_or_minus1. by rewrite E.
Qed.

Lemma ParseInt_or_minus1_parses s :
  ¬ parse_fails s →
  Strconv.ParseInt (emptyToZero s) = (ParseInt_or_minus1 s, None).
Proof.
  rewrite ParseInt_error. unfold ParseInt_or_minus1.
  destruct (Strconv.ParseInt (emptyToZero s)) as [v [err|]]; [|done].
  intros H. by destruct H.
Qed.

Lemma ingest_system_info_fails host r0 column :
  column ∈ ["physical_memory"; "cpu_physical_cores"; "cpu_logical_cores"] →
  parse_fails (col r0 column) →
  is_Some (out_err (ingest_system_info host [r0])).
Proof.
  rewrite !elem_of_cons, elem_of_nil.
  intros Hc (v & err & E)%Atoi_fails. unfold ingest_system_info.
  destruct (Strconv.Atoi (emptyToZero (col r0 "physical_memory")))
    as [n1 [e1|]] eqn:E1; [by eexists|].
  destruct (Strconv.Atoi (emptyToZero (col r0 "cpu_physical_cores")))
    as [n2 [e2|]] eqn:E2; [by eexists|].
  destruct (Strconv.Atoi (emptyToZero (col r0 "cpu_logical_cores")))
    as [n3 [e3|]] eqn:E3; [by eexists|].
  destruct Hc as [->|[->|[->|[]]]]; congruence.
Qed.

Lemma ingest_uptime_fails host r0 :
  parse_fails (col r0 "total_seconds") →
  is_Some (out_err (ingest_uptime host [r0])).
Proof.
  intros (v & err & E)%Atoi_fails. unfold ingest_uptime. rewrite E.
  by eexists.
Qed.

Lemma osquery_flags_writes_fails rows r f :
  r ∈ rows →
  flag_of_name (col r "name") = Some f →
  parse_fails (col r "value") →
  ∀ di lp tls cr, is_Some (osquery_flags_writes rows di lp tls cr).2.
Proof.
  intros Hin Hf (v & err & E)%Atoi_fails.
  induction rows as [|r' rows IH]; [by apply elem_of_nil in Hin|].
  intros di lp tls cr. cbn [osquery_flags_writes].
  apply elem_of_cons in Hin as [<-|Hin].
  - rewrite Hf, E. by eexists.
  - specialize (IH Hin).
    destruct (flag_of_name (col r' "name")) as [f'|]; [|apply IH].
    destruct (Strconv.Atoi (emptyToZero (col r' "value"))) as [n [e|]];
      [by eexists|].
    destruct f'; apply IH.
Qed.

Lemma ingest_osquery_flags_fails host rows r f :
  r ∈ rows →
  flag_of_name (col r "name") = Some f →
  parse_fails (col r "value") →
  is_Some (out_err (ingest_osquery_flags host rows)).
Proof.
  intros Hin Hf Hp. unfold ingest_osquery_flags.
  rewrite osquery_flags_loop_from.
  pose proof (osquery_flags_writes_fails rows r f Hin Hf Hp None None 0 0) as H.
  destruct (osquery_flags_writes rows None None 0 0)
    as [[[[di lp] tls] cr] [err|]]; [by eexists|].
  by destruct H.
Qed.

(** The interface built from a row whose strict columns parse. *)
Lemma network_interface_row_cases r :
  (strict_columns_fail r ∧ ∃ err, network_interface_row r = inl err)
  ∨ (¬ strict_columns_fail r
     ∧ ∃ nic, network_interface_row r = inr nic
         ∧ counters_of r nic).
Proof.
  unfold network_interface_row, strict_columns_fail, counters_of.
  rewrite !Atoi_error.
  setoid_rewrite ParseInt_error.
  destruct (r !! "last_change") as [lc|].
  - destruct (Strconv.ParseInt (emptyToZero lc)) as [v0 [e0|]] eqn:E0.
    { left. split; [|by eexists]. do 3 right. exists lc. by rewrite E0. }
    destruct (Strconv.Atoi (emptyToZero (col r "metric"))) as [v1 [e1|]].
    { left. split; [|by eexists]. by left. }
    destruct (Strconv.Atoi (emptyToZero (col r "mtu"))) as [v2 [e2|]].
    { left. split; [|by eexists]. right. by left. }
    destruct (Strconv.Atoi (emptyToZero (col r "type"))) as [v3 [e3|]].
    { left. split; [|by eexists]. do 2 right. by left. }
    right. split; [|by eexists].
    intros [H|[H|[H|(lc' & [= <-] & H)]]]; try done.
    by rewrite E0 in H.
  - destruct (Strconv.Atoi (emptyToZero (col r "metric"))) as [v1 [e1|]].
    { left. split; [|by eexists]. by left. }
    destruct (Strconv.Atoi (emptyToZero (col r "mtu"))) as [v2 [e2|]].
    { left. split; [|by eexists]. right. by left. }
    destruct (Strconv.Atoi (emptyToZero (col r "type"))) as [v3 [e3|]].
    { left. split; [|by eexists]. do 2 right. by left. }
    right. split; [|by eexists].
    by intros [H|[H|[H|(lc' & [=] & H)]]].
Qed.

Lemma network_interface_loop_fails rows r :
  r ∈ rows → strict_columns_fail r →
  ∀ acc, ∃ err, network_interface_loop rows acc = inl err.
Proof.
  intros Hin Hr. induction rows as [|r' rows IH]; intros acc;
    [by apply elem_of_nil in Hin|].
  cbn [network_interface_loop].
  apply elem_of_cons in Hin as [<-|Hin].
  - destruct (network_interface_row_cases r)
      as [(_ & err & ->)|(Hn & _)]; [by eexists|done].
  - destruct (network_interface_row r') as [err|nic]; [by eexists|].
    by apply IH.
Qed.

Lemma network_interface_loop_succeeds rows :
  (∀ r, r ∈ rows → ¬ strict_columns_fail r) →
  ∀ acc, ∃ nics,
    network_interface_loop rows acc = inr (acc ++ nics)%list
    ∧ Forall2 counters_of rows nics.
Proof.
  induction rows as [|r rows IH]; intros Hok acc.
  - exists []. by rewrite app_nil_r.
  - cbn [network_interface_loop].
    destruct (network_interface_row_cases r)
      as [(Hf & _)|(_ & nic & -> & Hc)].
    { destruct (Hok r); [by left|done]. }
    destruct (IH (λ r' Hr', Hok r' (list_elem_of_further _ _ _ Hr'))
                (acc ++ [nic])%list) as (nics & -> & HF).
    exists (nic :: nics). rewrite <- app_assoc. split; [done|].
    by constructor.
Qed.

(** A row with an empty numeric field is read as the row with zero in that
    field. *)
Lemma emptyToZero_idem s : emptyToZero (emptyToZero s) = emptyToZero s.
Proof. unfold emptyToZero. by repeat case_decide. Qed.

Lemma lookup_zero_if_empty_ne column r k :
  k ≠ column → zero_if_empty column r !! k = r !! k.
Proof.
  intros Hk. unfold zero_if_empty. case_decide; [|done].
  by rewrite lookup_insert_ne.
Qed.

Lemma col_zero_if_empty_ne column r k :
  k ≠ column → col (zero_if_empty column r) k = col r k.
Proof. intros Hk. unfold col. by rewrite lookup_zero_if_empty_ne. Qed.

Lemma emptyToZero_col_zero_if_empty column r :
  emptyToZero (col (zero_if_empty column r) column)
  = emptyToZero (col r column).
Proof.
  unfold zero_if_empty. case_decide as H; [|done].
  unfold col at 1. rewrite lookup_insert_eq, H. reflexivity.
Qed.

Lemma emptyToZero_col_zero_if_empty_any column r k :
  emptyToZero (col (zero_if_empty column r) k) = emptyToZero (col r k).
Proof.
  destruct (decide (k = column)) as [->|Hk].
  - apply emptyToZero_col_zero_if_empty.
  - by rewrite col_zero_if_empty_ne.
Qed.

Lemma last_change_zero_if_empty r :
  match zero_if_empty "last_change" r !! "last_change" with
  | Some lastChange => Strconv.ParseInt (emptyToZero lastChange)
  | None => (0, None)
  end
  = match r !! "last_change" with
    | Some lastChange => Strconv.ParseInt (emptyToZero lastChange)
    | None => (0, None)
    end.
Proof.
  unfold zero_if_empty, col.
  destruct (r !! "last_change") as [lastChange|] eqn:E; cbn [default].
  - case_decide as H; [|by rewrite E]. cbn in H. subst lastChange.
    rewrite lookup_insert_eq. by vm_compute.
  - case_decide as H; [|done]. rewrite lookup_insert_eq. by vm_compute.
Qed.

Lemma network_interface_row_zero_if_empty column r :
  column ∈ network_interface_numbers →
  network_interface_row (zero_if_empty column r) = network_interface_row r.
Proof.
  intros Hc. unfold network_interface_row, ParseInt_or_minus1.
  rewrite !emptyToZero_col_zero_if_empty_any.
  assert (Hlc :
    match zero_if_empty column r !! "last_change" with
    | Some lastChange => Strconv.ParseInt (emptyToZero lastChange)
    | None => (0, None)
    end
    = match r !! "last_change" with
      | Some lastChange => Strconv.ParseInt (emptyToZero lastChange)
      | None => (0, None)
      end).
  { destruct (decide (column = "last_change")) as [->|Hne].
    - apply last_change_zero_if_empty.
    - by rewrite lookup_zero_if_empty_ne. }
  rewrite Hlc.
  unfold network_interface_numbers in Hc.
  rewrite !elem_of_cons, elem_of_nil in Hc.
  by destruct Hc as [->|[->|[->|[->|[->|[->|[->|[->|[->|[->|[]]]]]]]]]]];
    rewrite !col_zero_if_empty_ne by done.
Qed.

Lemma network_interface_loop_zero_if_empty column rows :
  column ∈ network_interface_numbers →
  ∀ acc,
    network_interface_loop (zero_if_empty column <$> rows) acc
    = network_interface_loop rows acc.
Proof.
  intros Hc. induction rows as [|r rows IH]; intros acc; [done|].
  cbn [fmap list_fmap network_interface_loop].
  rewrite network_interface_row_zero_if_empty by done.
  destruct (network_interface_row r); [done|]. apply IH.
Qed.

Lemma ingest_network_interface_zero_if_empty column host rows :
  column ∈ network_interface_numbers →
  ingest_network_interface host (zero_if_empty column <$> rows)
  = ingest_network_interface host rows.
Proof.
  intros Hc. unfold ingest_network_interface.
  rewrite network_interface_loop_zero_if_empty by done.
  by destruct rows.
Qed.

Lemma ingest_system_info_zero_if_empty column host rows :
  column ∈ system_info_numbers →
  ingest_system_info host (zero_if_empty column <$> rows)
  = ingest_system_info host rows.
Proof.
  intros Hc. destruct rows as [|r0 [|r1 rows]]; [done| |].
  - cbn [fmap list_fmap]. unfold ingest_system_info.
    rewrite !emptyToZero_col_zero_if_empty_any.
    unfold system_info_numbers in Hc.
    rewrite !elem_of_cons, elem_of_nil in Hc.
    by destruct Hc as [->|[->|[->|[]]]];
      rewrite !col_zero_if_empty_ne by done.
  - cbn [fmap list_fmap]. unfold ingest_system_info, expected_single.
    cbn [length]. by rewrite length_fmap.
Qed.

Lemma ingest_uptime_zero_if_empty host rows :
  ingest_uptime host (zero_if_empty "total_seconds" <$> rows)
  = ingest_uptime host rows.
Proof.
  destruct rows as [|r0 [|r1 rows]]; [done| |].
  - cbn [fmap list_fmap]. unfold ingest_uptime.
    by rewrite emptyToZero_col_zero_if_empty.
  - cbn [fmap list_fmap]. unfold ingest_uptime, expected_single.
    cbn [length]. by rewrite length_fmap.
Qed.

Lemma osquery_flags_loop_zero_if_empty rows :
  ∀ host configTLSRefresh configRefresh,
    osquery_flags_loop (zero_if_empty "value" <$> rows) host
      configTLSRefresh configRefresh
    = osquery_flags_loop rows host configTLSRefresh configRefresh.
Proof.
  induction rows as [|r rows IH]; intros host tls refresh; [done|].
  cbn [fmap list_fmap osquery_flags_loop].
  rewrite emptyToZero_col_zero_if_empty, col_zero_if_empty_ne by done.
  destruct (flag_of_name (col r "name")) as [f|]; [|apply IH].
  destruct (Strconv.Atoi (emptyToZero (col r "value"))) as [n [err|]];
    [done|].
  destruct f; apply IH.
Qed.

Lemma ingest_osquery_flags_zero_if_empty host rows :
  ingest_osquery_flags host (zero_if_empty "value" <$> rows)
  = ingest_osquery_flags host rows.
Proof.
  unfold ingest_osquery_flags. by rewrite osquery_flags_loop_zero_if_empty.
Qed.

(** C6, as amended. The empty string is taken as zero before parsing, so
    that the empty string parses to 0 and 12345 to 12345: every ingestion
    function with a numeric field does with rows where such a field is
    empty, or missing, what it does with the same rows and zero in that
    field.  In system_info, uptime and osquery_flags every parse failure
    that remains returns an error, and so does one of the columns metric,
    mtu, type or of a present last_change in a row of network_interface.  A
    parse failure of one of the six traffic counters of network_interface
    returns no error: the counter is stored as minus one. *)
Theorem numeric_fields_normalized :
  emptyToZero "" = "0"
  ∧ (∀ s, s ≠ "" → emptyToZero s = s)
  ∧ Strconv.Atoi (emptyToZero "") = (0, None)
  ∧ Strconv.ParseInt (emptyToZero "") = (0, None)
  ∧ Strconv.Atoi (emptyToZero "12345") = (12345, None)
  ∧ (∀ host rows column,
       column ∈ system_info_numbers →
       ingest_system_info host (zero_if_empty column <$> rows)
       = ingest_system_info host rows)
  ∧ (∀ host rows,
       ingest_uptime host (zero_if_empty "total_seconds" <$> rows)
       = ingest_uptime host rows)
  ∧ (∀ host rows,
       ingest_osquery_flags host (zero_if_empty "value" <$> rows)
       = ingest_osquery_flags host rows)
  ∧ (∀ host rows column,
       column ∈ network_interface_numbers →
       ingest_network_interface host (zero_if_empty column <$> rows)
       = ingest_network_interface host rows)
  ∧ (∀ host r0,
       col r0 "total_seconds" = "" →
       ingest_uptime host [r0] = mkIngestOut (set_Uptime 0 host) [] None)
  ∧ (∀ host r0,
       col r0 "total_seconds" = "12345" →
       ingest_uptime host [r0]
       = mkIngestOut (set_Uptime (12345 * Second) host) [] None)
  ∧ (∀ host r0 column,
       column ∈ system_info_numbers →
       parse_fails (col r0 column) →
       is_Some (out_err (ingest_system_info host [r0])))
  ∧ (∀ host r0,
       parse_fails (col r0 "total_seconds") →
       is_Some (out_err (ingest_uptime host [r0])))
  ∧ (∀ host rows r f,
       r ∈ rows → flag_of_name (col r "name") = Some f →
       parse_fails (col r "value") →
       is_Some (out_err (ingest_osquery_flags host rows)))
  ∧ (∀ host rows r,
       r ∈ rows → strict_columns_fail r →
       is_Some (out_err (ingest_network_interface host rows)))
  ∧ (∀ host rows,
       rows ≠ [] → (∀ r, r ∈ rows → ¬ strict_columns_fail r) →
       out_err (ingest_network_interface host rows) = None
       ∧ Forall2 counters_of rows
           (NetworkInterfaces (out_host (ingest_network_interface host rows))))
  ∧ (∀ s, parse_fails s → ParseInt_or_minus1 s = -1)
  ∧ (∀ s v, Strconv.ParseInt (emptyToZero s) = (v, None) →
       ParseInt_or_minus1 s = v)
  ∧ ParseInt_or_minus1 "" = 0.
Proof.
  split; [done|]. split.
  { intros s Hs. unfold emptyToZero. by case_decide. }
  split; [by vm_compute|]. split; [by vm_compute|]. split; [by vm_compute|].
  split.
  { intros host rows column Hc. by apply ingest_system_info_zero_if_empty. }
  split; [exact ingest_uptime_zero_if_empty|].
  split; [exact ingest_osquery_flags_zero_if_empty|].
  split.
  { intros host rows column Hc.
    by apply ingest_network_interface_zero_if_empty. }
  split.
  { intros host r0 H. unfold ingest_uptime. rewrite H. by vm_compute. }
  split.
  { intros host r0 H. unfold ingest_uptime. rewrite H. by vm_compute. }
  split; [exact ingest_system_info_fails|].
  split; [exact ingest_uptime_fails|].
  split; [exact ingest_osquery_flags_fails|].
  split.
  { intros host rows r Hin Hr. unfold ingest_network_interface.
    destruct (network_interface_loop_fails rows r Hin Hr []) as [err E].
    rewrite E. destruct rows; [by apply elem_of_nil in Hin|by eexists]. }
  split.
  { intros host rows Hne Hok. unfold ingest_network_interface.
    destruct (network_interface_loop_succeeds rows Hok []) as (nics & E & HF).
    rewrite E. destruct rows; [done|]. split; [done|]. by destruct host. }
  split; [exact ParseInt_or_minus1_fails|].
  split; [|by vm_compute].
  intros s v H. unfold ParseInt_or_minus1. by rewrite H.
Qed.

(** C6 does not hold as stated: a row of network_interface whose ibytes is
    no number fails to parse after the normalization, and the ingestion
    returns no error and stores minus one. *)
Lemma parse_failure_of_counter_is_no_error :
  (Strconv.ParseInt (emptyToZero (col Sample.nic_row_bad_ibytes "ibytes"))).2
  = Some (NumError "ParseInt" "abc" ErrSyntax)
  ∧ out_err (ingest_network_interface Sample.host [Sample.nic_row_bad_ibytes])
    = None
  ∧ IBytes
      <$> NetworkInterfaces
            (out_host
               (ingest_network_interface Sample.host
                  [Sample.nic_row_bad_ibytes]))
    = [-1].
Proof. by vm_compute. Qed.

(** ** Distributed query results *)

Section Collector.

Context {W : Type} (Quote : string → string) (svc : service W).

Lemma ingestDistributedQuery_collected host name rows failed w campaignID :
  Strconv.Atoi
    (emptyToZero (Strings.TrimPrefix name hostDistributedQueryPrefix))
  = (campaignID, None) →
  collected Quote svc host campaignID rows failed w
    (result_of (ingestDistributedQuery Quote svc host name rows failed) w)
    (trace_of (ingestDistributedQuery Quote svc host name rows failed) w).
Proof.
  intros Hid. unfold result_of, trace_of, ingestDistributedQuery.
  rewrite Hid.
  unfold mbind, M_bind, bind, mret, M_ret, ret, WriteResult,
    DistributedQueryCampaignByID, SaveDistributedQueryCampaign,
    NewDistributedQueryExecution, call.
  fold (envelope host campaignID rows failed).
  fold (execution host campaignID failed).
  destruct (resultStore_WriteResult svc _ w) as [[err|] w1] eqn:E1.
  - destruct (is_NoSubscriber err) eqn:Hns; cbn [negb].
    + destruct (ds_DistributedQueryCampaign svc _ w1) as [[e2|c] w2] eqn:E2.
      { eapply collected_orphan_not_loaded; eauto. }
      destruct (ds_SaveDistributedQueryCampaign svc _ w2) as [[e3|] w3] eqn:E3.
      { eapply collected_orphan_not_closed; eauto. }
      destruct (ds_NewDistributedQueryExecution svc _ w3) as [r w4] eqn:E4.
      pose proof (collected_orphan_closed Quote svc host campaignID rows
                    failed w err w1 c w2 w3 r w4 E1 Hns E2 E3 E4) as H.
      by destruct r.
    + eapply collected_publish_failed; eauto.
  - destruct (ds_NewDistributedQueryExecution svc _ w1) as [r w2] eqn:E2.
    pose proof (collected_published Quote svc host campaignID rows failed w
                  w1 r w2 E1 E2) as H.
    by destruct r.
Qed.

(** C2, as amended. For a campaign identifier that parses and a publication
    that fails.  When the failure is the absence of subscribers, the
    datastore is asked for the campaign: if it does not load, the function
    returns that error and nothing is saved; once loaded, the campaign is
    given to the datastore to save with the status complete, and the
    function returns no error exactly when the datastore saves it and
    records the execution, the error of the save or of the record
    otherwise.  Whatever error it returns is one of the datastore and never
    the failure to publish.  When the failure is another one, the function
    returns it as an [osqueryError] that does not invalidate the node. *)
Theorem orphaned_campaign_closed (host : Host) (name : string)
    (rows : list row) (failed : bool) (w : W) (campaignID : Z)
    (err : error) (w1 : W) :
  Strconv.Atoi
    (emptyToZero (Strings.TrimPrefix name hostDistributedQueryPrefix))
  = (campaignID, None) →
  resultStore_WriteResult svc (envelope host campaignID rows failed) w
  = (Some err, w1) →
  let m := ingestDistributedQuery Quote svc host name rows failed in
  (is_NoSubscriber err = true →
     (∀ err' w2,
        ds_DistributedQueryCampaign svc (to_uint campaignID) w1
        = (inl err', w2) →
        result_of m w
        = Some (osqueryError
                  ("loading orphaned campaign: " ++ Error Quote err') false)
        ∧ trace_of m w
          = [EvWriteResult (envelope host campaignID rows failed);
             EvDistributedQueryCampaign (to_uint campaignID)])
     ∧ (∀ campaign w2,
        ds_DistributedQueryCampaign svc (to_uint campaignID) w1
        = (inr campaign, w2) →
        Status (set_Status QueryComplete campaign) = QueryComplete
        ∧ EvSaveDistributedQueryCampaign (set_Status QueryComplete campaign)
          ∈ trace_of m w
        ∧ (∀ err' w3,
             ds_SaveDistributedQueryCampaign svc
               (set_Status QueryComplete campaign) w2 = (Some err', w3) →
             result_of m w
             = Some (osqueryError
                       ("closing orphaned campaign: " ++ Error Quote err')
                       false))
        ∧ (∀ w3 exec w4,
             ds_SaveDistributedQueryCampaign svc
               (set_Status QueryComplete campaign) w2 = (None, w3) →
             ds_NewDistributedQueryExecution svc
               (execution host campaignID failed) w3 = (inr exec, w4) →
             result_of m w = None)
        ∧ (∀ w3 err' w4,
             ds_SaveDistributedQueryCampaign svc
               (set_Status QueryComplete campaign) w2 = (None, w3) →
             ds_NewDistributedQueryExecution svc
               (execution host campaignID failed) w3 = (inl err', w4) →
             result_of m w
             = Some (osqueryError
                       ("recording execution: " ++ Error Quote err') false)))
     ∧ (result_of m w = None
        ∨ ∃ err',
            result_of m w
            = Some (osqueryError
                      ("loading orphaned campaign: " ++ Error Quote err') false)
            ∨ result_of m w
              = Some (osqueryError
                        ("closing orphaned campaign: " ++ Error Quote err')
                        false)
            ∨ result_of m w
              = Some (osqueryError
                        ("recording execution: " ++ Error Quote err') false)))
  ∧ (is_NoSubscriber err = false →
     result_of m w
     = Some (osqueryError ("writing results: " ++ Error Quote err) false)
     ∧ NodeInvalid (osqueryError ("writing results: " ++ Error Quote err) false)
       = false).
Proof.
  intros Hid Hw m.
  pose proof (ingestDistributedQuery_collected host name rows failed w
                campaignID Hid) as Hrun.
  fold m in Hrun.
  split.
  - intros Hns. split; [|split].
    + intros err' w2 Hload.
      inversion Hrun as [w1' r w2' E1 E2 Hr Ht
                        |e w1' E1 Hn Hr Ht
                        |e w1' e' w2' E1 Hn E2 Hr Ht
                        |e w1' c w2' e' w3 E1 Hn E2 E3 Hr Ht
                        |e w1' c w2' w3 r w4 E1 Hn E2 E3 E4 Hr Ht];
        rewrite Hw in E1; simplify_eq; try congruence;
        rewrite Hload in E2; by simplify_eq.
    + intros campaign w2 Hload. split; [done|].
      inversion Hrun as [w1' r w2' E1 E2 Hr Ht
                        |e w1' E1 Hn Hr Ht
                        |e w1' e' w2' E1 Hn E2 Hr Ht
                        |e w1' c w2' e' w3 E1 Hn E2 E3 Hr Ht
                        |e w1' c w2' w3 r w4 E1 Hn E2 E3 E4 Hr Ht];
        rewrite Hw in E1; simplify_eq; try congruence;
        rewrite Hload in E2; simplify_eq.
      * split; [rewrite !elem_of_cons; tauto|].
        split; [|split].
        -- intros err' w3' Hsave. congruence.
        -- intros w3' exec w4' Hsave. congruence.
        -- intros w3' err' w4' Hsave. congruence.
      * split; [rewrite !elem_of_cons; tauto|].
        split; [|split].
        -- intros err' w3' Hsave. congruence.
        -- intros w3' exec w4' Hsave Hexec.
           rewrite Hsave in E3. simplify_eq.
           rewrite Hexec in E4. by simplify_eq.
        -- intros w3' err' w4' Hsave Hexec.
           rewrite Hsave in E3. simplify_eq.
           rewrite Hexec in E4. by simplify_eq.
    + inversion Hrun as [w1' r w2' E1 E2 Hr Ht
                        |e w1' E1 Hn Hr Ht
                        |e w1' e' w2' E1 Hn E2 Hr Ht
                        |e w1' c w2' e' w3 E1 Hn E2 E3 Hr Ht
                        |e w1' c w2' w3 r w4 E1 Hn E2 E3 E4 Hr Ht];
        rewrite Hw in E1; simplify_eq; try congruence.
      * right. exists e'. by left.
      * right. exists e'. right. by left.
      * destruct r as [e'|exec]; [|by left].
        right. exists e'. right. by right.
  - intros Hns. split; [|done].
    inversion Hrun as [w1' r w2' E1 E2 Hr Ht
                      |e w1' E1 Hn Hr Ht
                      |e w1' e' w2' E1 Hn E2 Hr Ht
                      |e w1' c w2' e' w3 E1 Hn E2 E3 Hr Ht
                      |e w1' c w2' w3 r w4 E1 Hn E2 E3 E4 Hr Ht];
      rewrite Hw in E1; simplify_eq; congruence.
Qed.

(** C3, as amended. For a campaign identifier that parses, the execution
    record of the result, succeeded or failed as reported, is given to the
    datastore exactly when the publication succeeded, or failed for want of
    subscribers with the orphaned campaign then loaded and saved; it is the
    only execution record of the run.  When the publication fails otherwise,
    or the orphaned campaign cannot be loaded or saved, the function returns
    without an execution record. *)
Theorem execution_recorded_when_delivered (host : Host) (name : string)
    (rows : list row) (failed : bool) (w : W) (campaignID : Z) :
  Strconv.Atoi
    (emptyToZero (Strings.TrimPrefix name hostDistributedQueryPrefix))
  = (campaignID, None) →
  let m := ingestDistributedQuery Quote svc host name rows failed in
  (delivered_or_closed svc host campaignID rows failed w ↔
   EvNewDistributedQueryExecution (execution host campaignID failed)
   ∈ trace_of m w)
  ∧ (∀ exec,
       EvNewDistributedQueryExecution exec ∈ trace_of m w →
       exec = execution host campaignID failed)
  ∧ Execution_Status (execution host campaignID failed)
    = (if failed then ExecutionFailed else ExecutionSucceeded).
Proof.
  intros Hid m.
  pose proof (ingestDistributedQuery_collected host name rows failed
                w campaignID Hid) as Hrun.
  fold m in Hrun. unfold delivered_or_closed.
  inversion Hrun as [w1' r w2' E1 E2 Hr Ht
                    |e w1' E1 Hn Hr Ht
                    |e w1' e' w2' E1 Hn E2 Hr Ht
                    |e w1' c w2' e' w3 E1 Hn E2 E3 Hr Ht
                    |e w1' c w2' w3 r w4 E1 Hn E2 E3 E4 Hr Ht];
    (split; [|split; [|done]]);
    try (intros exec Hin; rewrite ?elem_of_cons, elem_of_nil in Hin;
         intuition (try discriminate); by simplify_eq).
  - split; [intros _; rewrite !elem_of_cons; tauto|].
    intros _. left. by eexists.
  - split.
    + intros [(w1 & H)|(e0 & w1 & c & w2 & w3 & H & Hns & _)];
        rewrite E1 in H; simplify_eq; congruence.
    + intros Hin. rewrite ?elem_of_cons, elem_of_nil in Hin.
      intuition discriminate.
  - split.
    + intros [(w1 & H)|(e0 & w1 & c & w2 & w3 & H & Hns & H2 & _)];
        rewrite E1 in H; simplify_eq; congruence.
    + intros Hin. rewrite ?elem_of_cons, elem_of_nil in Hin.
      intuition discriminate.
  - split.
    + intros [(w1 & H)|(e0 & w1 & c0 & w2 & w3' & H & Hns & H2 & H3)];
        rewrite E1 in H; simplify_eq.
      rewrite E2 in H2. simplify_eq. congruence.
    + intros Hin. rewrite ?elem_of_cons, elem_of_nil in Hin.
      intuition discriminate.
  - split; [intros _; rewrite !elem_of_cons; tauto|].
    intros _. right. by exists e, w1', c, w2', w3.
Qed.

End Collector.

Lemma orphaned_campaign_closed_witness :
  result_of
    (ingestDistributedQuery Sample.quote
       (Sample.svc (Some Sample.no_subscriber) None) Sample.host
       "kolide_distributed_query_1" [] false) tt
  = None.
Proof.
  destruct (orphaned_campaign_closed Sample.quote
              (Sample.svc (Some Sample.no_subscriber) None) Sample.host
              "kolide_distributed_query_1" [] false tt 1
              Sample.no_subscriber tt) as [Hns _].
  - vm_compute. reflexivity.
  - reflexivity.
  - destruct (Hns eq_refl) as (_ & Hclose & _).
    destruct (Hclose Sample.campaign tt eq_refl) as (_ & _ & _ & Hr & _).
    exact (Hr tt (execution Sample.host 1 false) tt eq_refl eq_refl).
Defined.

Lemma execution_recorded_when_delivered_witness :
  EvNewDistributedQueryExecution (execution Sample.host 1 false)
  ∈ trace_of
      (ingestDistributedQuery Sample.quote (Sample.svc None None) Sample.host
         "kolide_distributed_query_1" [] false) tt.
Proof.
  destruct (execution_recorded_when_delivered Sample.quote
              (Sample.svc None None) Sample.host
              "kolide_distributed_query_1" [] false tt 1) as [Hiff _].
  - vm_compute. reflexivity.
  - apply Hiff. left. by exists tt.
Defined.

(** C2 does not hold as stated: with a result store without subscribers, a
    submission whose orphaned campaign the datastore fails to save, or does
    not find, fails with an error of ingestion; in the second run no
    campaign is given the status complete. *)
Lemma orphaned_campaign_not_closed :
  Strconv.Atoi
    (emptyToZero
       (Strings.TrimPrefix "kolide_distributed_query_1"
          hostDistributedQueryPrefix))
  = (1, None)
  ∧ is_NoSubscriber Sample.no_subscriber = true
  ∧ SubmitDistributedQueryResults Sample.quote
      (Sample.svc (Some Sample.no_subscriber) (Some Sample.broken_pipe))
      (Some Sample.host) [("kolide_distributed_query_1", [])] ∅ tt
    = (Some (osqueryError
               "failed to ingest result: closing orphaned campaign: broken pipe"
               false),
       tt,
       [EvWriteResult (envelope Sample.host 1 [] false);
        EvDistributedQueryCampaign 1;
        EvSaveDistributedQueryCampaign
          (set_Status QueryComplete Sample.campaign)])
  ∧ SubmitDistributedQueryResults Sample.quote Sample.svc_campaign_missing
      (Some Sample.host) [("kolide_distributed_query_1", [])] ∅ tt
    = (Some (osqueryError
               "failed to ingest result: loading orphaned campaign: not found"
               false),
       tt,
       [EvWriteResult (envelope Sample.host 1 [] false);
        EvDistributedQueryCampaign 1]).
Proof. by vm_compute. Qed.

(** C3 does not hold as stated: when the publication fails with an error
    other than the absence of subscribers, and when the orphaned campaign
    cannot be saved, the run ends without an execution record. *)
Lemma execution_not_recorded_on_failure :
  Strconv.Atoi
    (emptyToZero
       (Strings.TrimPrefix "kolide_distributed_query_1"
          hostDistributedQueryPrefix))
  = (1, None)
  ∧ (ingestDistributedQuery Sample.quote
       (Sample.svc (Some Sample.broken_pipe) None) Sample.host
       "kolide_distributed_query_1" [] false) tt
    = (Some (osqueryError "writing results: broken pipe" false), tt,
       [EvWriteResult (envelope Sample.host 1 [] false)])
  ∧ (ingestDistributedQuery Sample.quote
       (Sample.svc (Some Sample.no_subscriber) (Some Sample.broken_pipe))
       Sample.host "kolide_distributed_query_1" [] false) tt
    = (Some (osqueryError "closing orphaned campaign: broken pipe" false), tt,
       [EvWriteResult (envelope Sample.host 1 [] false);
        EvDistributedQueryCampaign 1;
        EvSaveDistributedQueryCampaign
          (set_Status QueryComplete Sample.campaign)]).
Proof. by vm_compute. Qed.

(** ** The result submission *)

Lemma label_prefix_not_detail query :
  Strings.HasPrefix query hostLabelQueryPrefix = true →
  Strings.HasPrefix query hostDetailQueryPrefix = false.
Proof.
  unfold Strings.HasPrefix, hostLabelQueryPrefix, hostDetailQueryPrefix.
  intros H.
  do 7 (destruct query as [|c query]; [simpl in H; discriminate H|];
        cbn [String.prefix] in H |- *;
        destruct (ascii_dec _ c) as [<-|]; [|discriminate H]).
  destruct query as [|c query]; [simpl in H; discriminate H|].
  cbn [String.prefix] in H |- *.
  destruct (ascii_dec "l" c) as [<-|]; [|discriminate H].
  by destruct (ascii_dec "d" "l").
Qed.

Section Submission.

Context {W : Type} (Quote : string → string) (svc : service W).

Lemma emits_ret {A} P (a : A) : emits P (ret (W:=W) a).
Proof. intros w. constructor. Qed.

Lemma emits_bind {A B} P (m : M W A) (k : A → M W B) :
  emits P m → (∀ a, emits P (k a)) → emits P (bind m k).
Proof.
  intros Hm Hk w. unfold bind.
  specialize (Hm w). destruct (m w) as [[a w1] t1].
  specialize (Hk a w1). destruct (k a w1) as [[b w2] t2].
  by apply Forall_app.
Qed.

Lemma emits_call {R} (P : Event → Prop) ev (op : W → R * W) :
  P ev → emits P (call ev op).
Proof.
  intros Hev w. unfold call. destruct (op w). by repeat constructor.
Qed.

Lemma Logs_run (l : list (list string)) (w : W) :
  Logs l w = (tt, w, EvLog <$> l).
Proof.
  induction l as [|kv l IH]; [done|].
  cbn [Logs]. unfold mbind, M_bind, bind, Log. by rewrite IH.
Qed.

Lemma ingestDetailQuery_emits host name rows :
  emits (λ ev, persists ev = false)
    (ingestDetailQuery (W:=W) Quote host name rows).
Proof.
  intros w. unfold ingestDetailQuery.
  destruct (detailQueries !! _) as [query|]; [|constructor].
  unfold mbind, M_bind, bind. rewrite Logs_run.
  destruct (out_err _); cbn; rewrite app_nil_r;
    apply Forall_fmap, Forall_true; done.
Qed.

Lemma ingestDistributedQuery_emits host name rows failed :
  emits (λ ev, persists ev = false)
    (ingestDistributedQuery Quote svc host name rows failed).
Proof.
  intros w.
  destruct (Strconv.Atoi
              (emptyToZero
                 (Strings.TrimPrefix name hostDistributedQueryPrefix)))
    as [campaignID [err|]] eqn:Hid.
  - unfold ingestDistributedQuery. rewrite Hid. constructor.
  - pose proof (ingestDistributedQuery_collected Quote svc host name rows
                  failed w campaignID Hid) as Hrun.
    unfold trace_of in Hrun.
    inversion Hrun; by repeat constructor.
Qed.

Lemma submit_entry_emits statuses v query rows :
  emits (λ ev, persists ev = false)
    (submit_entry Quote svc statuses v query rows).
Proof.
  unfold submit_entry.
  destruct (Strings.HasPrefix query hostDetailQueryPrefix).
  { apply emits_bind; [apply ingestDetailQuery_emits|].
    intros [host err]. apply emits_ret. }
  destruct (Strings.HasPrefix query hostLabelQueryPrefix).
  { destruct (ingestLabelQuery _ _ _ _). apply emits_ret. }
  destruct (Strings.HasPrefix query hostDistributedQueryPrefix).
  { apply emits_bind; [apply ingestDistributedQuery_emits|].
    intros err. apply emits_ret. }
  apply emits_ret.
Qed.

(** One turn of the loop. *)
Lemma submit_loop_cons statuses query rows results v w :
  submit_loop Quote svc statuses ((query, rows) :: results) v w
  = let '(v1, err, w1, t1) := submit_entry Quote svc statuses v query rows w in
    match err with
    | Some err =>
        (v1,
         Some (osqueryError ("failed to ingest result: " ++ Error Quote err)
                 false),
         w1, t1)
    | None =>
        let '(r, w2, t2) := submit_loop Quote svc statuses results v1 w1 in
        (r, w2, (t1 ++ t2)%list)
    end.
Proof.
  cbn [submit_loop]. unfold mbind, M_bind, bind.
  destruct (submit_entry Quote svc statuses v query rows w)
    as [[[v1 [err|]] w1] t1]; [|done].
  unfold mret, M_ret, ret. by rewrite app_nil_r.
Qed.

Lemma submit_loop_emits statuses results :
  ∀ v, emits (λ ev, persists ev = false)
         (submit_loop Quote svc statuses results v).
Proof.
  induction results as [|[query rows] results IH]; intros v w;
    [constructor|].
  rewrite submit_loop_cons.
  pose proof (submit_entry_emits statuses v query rows w) as He.
  destruct (submit_entry Quote svc statuses v query rows w)
    as [[[v1 [err|]] w1] t1]; [done|].
  specialize (IH v1 w1).
  destruct (submit_loop Quote svc statuses results v1 w1) as [[r w2] t2].
  by apply Forall_app.
Qed.

Lemma submit_entry_unrecognized statuses v query rows w :
  unrecognized query →
  submit_entry Quote svc statuses v query rows w
  = (v, Some (osqueryError ("unknown query prefix: " ++ query) false), w, []).
Proof. intros (Hd & Hl & Hq). unfold submit_entry. by rewrite Hd, Hl, Hq. Qed.

(** The variables after a turn of the loop that did not fail. *)
Lemma submit_entry_vars statuses v query rows w v1 w1 t1 :
  submit_entry Quote svc statuses v query rows w = (v1, None, w1, t1) →
  labelResults v1 = label_step (labelResults v) (query, rows)
  ∧ detailUpdated v1
    = detailUpdated v || Strings.HasPrefix query hostDetailQueryPrefix.
Proof.
  unfold submit_entry, label_step. cbn [fst snd].
  destruct (Strings.HasPrefix query hostDetailQueryPrefix).
  { unfold mbind, M_bind, bind.
    destruct (ingestDetailQuery Quote (host_ v) query rows w)
      as [[[host err] w'] t'].
    intros [= <- _ _ _]. by rewrite orb_true_r. }
  rewrite orb_false_r.
  destruct (Strings.HasPrefix query hostLabelQueryPrefix).
  { unfold ingestLabelQuery, label_id.
    destruct (Strconv.Atoi _) as [n [err|]]; [done|].
    by intros [= <- _ _]. }
  destruct (Strings.HasPrefix query hostDistributedQueryPrefix); [|done].
  unfold mbind, M_bind, bind.
  destruct (ingestDistributedQuery Quote svc (host_ v) query rows _ w)
    as [[err w'] t'].
  by intros [= <- _ _ _].
Qed.

Lemma submit_loop_vars statuses results :
  ∀ v w v1 w1 t1,
    submit_loop Quote svc statuses results v w = (v1, None, w1, t1) →
    labelResults v1 = label_memberships results (labelResults v)
    ∧ detailUpdated v1
      = detailUpdated v
        || existsb (λ e, Strings.HasPrefix e.1 hostDetailQueryPrefix) results.
Proof.
  induction results as [|[query rows] results IH]; intros v w v1 w1 t1.
  - intros [= <- _ _]. by rewrite orb_false_r.
  - rewrite submit_loop_cons.
    destruct (submit_entry Quote svc statuses v query rows w)
      as [[[v' [err|]] w'] t'] eqn:E; [done|].
    apply submit_entry_vars in E as [El Ed].
    destruct (submit_loop Quote svc statuses results v' w')
      as [[[v'' err] w''] t''] eqn:E'.
    intros [= -> -> _ _].
    apply IH in E' as [-> ->].
    rewrite El, Ed. cbn [existsb fst]. by rewrite orb_assoc.
Qed.

(** The host after a turn of the loop that did not fail. *)
Lemma submit_entry_host statuses v query rows w v1 w1 t1 :
  submit_entry Quote svc statuses v query rows w = (v1, None, w1, t1) →
  host_ v1 = detail_step (host_ v) (query, rows).
Proof.
  unfold submit_entry, detail_step. cbn [fst snd].
  destruct (Strings.HasPrefix query hostDetailQueryPrefix).
  { unfold ingestDetailQuery.
    destruct (detailQueries !! _) as [d|]; [|done].
    unfold mbind, M_bind, bind.
    destruct (Logs _ w) as [[[] w'] t'].
    destruct (out_err (Ingest d (host_ v) rows)); cbn; [done|].
    by intros [= <- _ _]. }
  destruct (Strings.HasPrefix query hostLabelQueryPrefix).
  { destruct (ingestLabelQuery _ _ _ _) as [results err].
    by intros [= <- _ _ _]. }
  destruct (Strings.HasPrefix query hostDistributedQueryPrefix); [|done].
  unfold mbind, M_bind, bind.
  destruct (ingestDistributedQuery Quote svc (host_ v) query rows _ w)
    as [[err w'] t'].
  by intros [= <- _ _ _].
Qed.

(** The host after a loop that did not fail. *)
Lemma submit_loop_host statuses results :
  ∀ v w v1 w1 t1,
    submit_loop Quote svc statuses results v w = (v1, None, w1, t1) →
    host_ v1 = ingested_details results (host_ v).
Proof.
  unfold ingested_details.
  induction results as [|[query rows] results IH]; intros v w v1 w1 t1.
  - by intros [= <- _ _].
  - rewrite submit_loop_cons.
    destruct (submit_entry Quote svc statuses v query rows w)
      as [[[v' [err|]] w'] t'] eqn:E; [done|].
    apply submit_entry_host in E.
    destruct (submit_loop Quote svc statuses results v' w')
      as [[[v'' err] w''] t''] eqn:E'.
    intros [= -> -> _ _].
    apply IH in E'. rewrite E'. cbn [foldl]. by rewrite E.
Qed.

Lemma submit_loop_error statuses results :
  ∀ v w v1 err w1 t1,
    submit_loop Quote svc statuses results v w = (v1, Some err, w1, t1) →
    ∃ msg, err = osqueryError ("failed to ingest result: " ++ msg) false.
Proof.
  induction results as [|[query rows] results IH]; intros v w v1 err w1 t1;
    [done|].
  rewrite submit_loop_cons.
  destruct (submit_entry Quote svc statuses v query rows w)
    as [[[v' [err'|]] w'] t'].
  - intros [= _ <- _ _]. by eexists.
  - destruct (submit_loop Quote svc statuses results v' w')
      as [[[v'' err''] w''] t''] eqn:E'.
    intros [= -> -> _ _]. by eapply IH.
Qed.

(** A batch with a name under no prefix: the loop fails, and at that name
    when no entry before it fails. *)
Lemma submit_loop_unrecognized statuses pre query rows post :
  unrecognized query →
  ∀ v w,
    is_Some (submit_loop Quote svc statuses (pre ++ (query, rows) :: post) v w).1.1.2
    ∧ (∀ v1 w1 t1,
         submit_loop Quote svc statuses pre v w = (v1, None, w1, t1) →
         submit_loop Quote svc statuses (pre ++ (query, rows) :: post) v w
         = (v1,
            Some (osqueryError
                    ("failed to ingest result: unknown query prefix: " ++ query)
                    false),
            w1, t1)).
Proof.
  intros Hq. induction pre as [|[query' rows'] pre IH]; intros v w.
  - cbn [app]. rewrite submit_loop_cons, submit_entry_unrecognized by done.
    split; [by eexists|]. by intros v1 w1 t1 [= <- <- <-].
  - cbn [app]. rewrite !submit_loop_cons.
    destruct (submit_entry Quote svc statuses v query' rows' w)
      as [[[v' [err'|]] w'] t'].
    { split; [by eexists|done]. }
    destruct (IH v' w') as [Hfail Hat].
    destruct (submit_loop Quote svc statuses (pre ++ (query, rows) :: post)
                v' w') as [[[v2 e2] w2] t2].
    split; [exact Hfail|].
    destruct (submit_loop Quote svc statuses pre v' w')
      as [[[v3 e3] w3] t3].
    intros v1 w1 t1 ?. simplify_eq.
    specialize (Hat _ _ _ eq_refl). by simplify_eq.
Qed.

(** The run of the whole function from the run of its loop. *)
Lemma SubmitDistributedQueryResults_run host results statuses w :
  SubmitDistributedQueryResults Quote svc (Some host) results statuses w
  = let '(v, err, w1, t1) :=
      submit_loop Quote svc statuses results (mkSubmitVars host false ∅) w in
    match err with
    | Some err => (Some err, w1, t1)
    | None =>
        let '(r, w2, t2) := submit_save Quote svc v w1 in
        (r, w2, (t1 ++ t2)%list)
    end.
Proof.
  unfold SubmitDistributedQueryResults, mbind, M_bind, bind.
  destruct (submit_loop Quote svc statuses results _ w)
    as [[[v [err|]] w1] t1]; [|done].
  unfold mret, M_ret, ret. by rewrite app_nil_r.
Qed.

(** C4, as amended. When a name of the batch is under none of the three
    prefixes, the submission fails with an error of ingestion, and neither
    the label memberships nor the host are given to the datastore.  The
    error is the unknown prefix of that name when no entry that the
    iteration meets before it fails; the entries met before it are ingested,
    and the calls made for them are the calls of the submission. *)
Theorem unknown_prefix_rejects_submission (host : Host)
    (pre : list (string * list row)) (query : string) (rows : list row)
    (post : list (string * list row)) (statuses : gmap string Z) (w : W) :
  unrecognized query →
  let m :=
    SubmitDistributedQueryResults Quote svc (Some host)
      (pre ++ (query, rows) :: post) statuses in
  (∃ msg,
     result_of m w
     = Some (osqueryError ("failed to ingest result: " ++ msg) false))
  ∧ Forall (λ ev, persists ev = false) (trace_of m w)
  ∧ (∀ v1 w1 t1,
       submit_loop Quote svc statuses pre (mkSubmitVars host false ∅) w
       = (v1, None, w1, t1) →
       result_of m w
       = Some (osqueryError
                 ("failed to ingest result: unknown query prefix: " ++ query)
                 false)
       ∧ trace_of m w = t1).
Proof.
  intros Hq m. unfold result_of, trace_of, m.
  rewrite SubmitDistributedQueryResults_run.
  destruct (submit_loop_unrecognized statuses pre query rows post Hq
              (mkSubmitVars host false ∅) w) as [Hfail Hat].
  pose proof (submit_loop_emits statuses
                (pre ++ (query, rows) :: post) (mkSubmitVars host false ∅) w)
    as Hemits.
  destruct (submit_loop Quote svc statuses (pre ++ (query, rows) :: post)
              (mkSubmitVars host false ∅) w) as [[[v err] w'] t'] eqn:E.
  cbn [fst snd] in *. destruct Hfail as [e ->].
  split; [|split; [done|]].
  - apply submit_loop_error in E as [msg ->]. by exists msg.
  - intros v1 w1 t1 Hpre. specialize (Hat v1 w1 t1 Hpre). by simplify_eq.
Qed.

End Submission.

Lemma unknown_prefix_rejects_submission_witness :
  result_of
    (SubmitDistributedQueryResults Sample.quote (Sample.svc None None)
       (Some Sample.host)
       ([("kolide_distributed_query_1", [])] ++ ("bogus", []) :: []) ∅) tt
  = Some (osqueryError
            ("failed to ingest result: unknown query prefix: " ++ "bogus")
            false).
Proof.
  destruct (unknown_prefix_rejects_submission Sample.quote
              (Sample.svc None None) Sample.host
              [("kolide_distributed_query_1", [])] "bogus" [] [] ∅ tt)
    as (_ & _ & Hat).
  - by vm_compute.
  - eapply Hat. vm_compute. reflexivity.
Defined.

(** C4 does not hold as stated: a result of a distributed query that the
    iteration meets before the name under no prefix is ingested, published
    and recorded as executed, before the submission is rejected; and when a
    label query before that name fails to parse, the error is that one. *)
Lemma unknown_prefix_after_ingestion :
  SubmitDistributedQueryResults Sample.quote (Sample.svc None None)
    (Some Sample.host)
    [("kolide_distributed_query_1", []); ("bogus", [])] ∅ tt
  = (Some (osqueryError
             "failed to ingest result: unknown query prefix: bogus" false),
     tt,
     [EvWriteResult (envelope Sample.host 1 [] false);
      EvNewDistributedQueryExecution (execution Sample.host 1 false)])
  ∧ SubmitDistributedQueryResults Sample.quote (Sample.svc None None)
      (Some Sample.host)
      [("kolide_label_query_x", []); ("bogus", [])] ∅ tt
    = (Some (osqueryError
               ("failed to ingest result: "
                  ++ "converting query from string to int: "
                  ++ "strconv.Atoi: parsing " ++ Sample.quote "x"
                  ++ ": invalid syntax") false),
       tt, []).
Proof. by vm_compute. Qed.

(** *** Label memberships *)

Lemma label_step_label m query rows id :
  Strings.HasPrefix query hostLabelQueryPrefix = true →
  label_id query = Some id →
  label_step m (query, rows) = <[id := (0 <? length rows)%nat]> m.
Proof.
  intros Hl Hid. unfold label_step. cbn [fst snd].
  by rewrite (label_prefix_not_detail query Hl), Hl, Hid.
Qed.

Lemma label_step_other m entry id :
  (Strings.HasPrefix entry.1 hostLabelQueryPrefix = true →
   label_id entry.1 ≠ Some id) →
  label_step m entry !! id = m !! id.
Proof.
  intros Hne. unfold label_step.
  destruct (Strings.HasPrefix entry.1 hostDetailQueryPrefix); [done|].
  destruct (Strings.HasPrefix entry.1 hostLabelQueryPrefix); [|done].
  destruct (label_id entry.1) as [id'|]; [|done].
  apply lookup_insert_ne. intros ->. by apply Hne.
Qed.

Lemma label_step_is_Some m entry id :
  is_Some (m !! id) → is_Some (label_step m entry !! id).
Proof.
  intros Hm. unfold label_step.
  destruct (Strings.HasPrefix entry.1 hostDetailQueryPrefix); [done|].
  destruct (Strings.HasPrefix entry.1 hostLabelQueryPrefix); [|done].
  destruct (label_id entry.1) as [id'|]; [|done].
  destruct (decide (id' = id)) as [->|Hne].
  - rewrite lookup_insert_eq. by eexists.
  - by rewrite lookup_insert_ne.
Qed.

Lemma label_memberships_other results id :
  ∀ m,
    (∀ entry, entry ∈ results →
       Strings.HasPrefix entry.1 hostLabelQueryPrefix = true →
       label_id entry.1 ≠ Some id) →
    label_memberships results m !! id = m !! id.
Proof.
  unfold label_memberships.
  induction results as [|e results IH]; intros m Hne; [done|].
  cbn [foldl]. rewrite IH.
  - apply label_step_other, Hne, list_elem_of_here.
  - intros e' He'. by apply Hne, list_elem_of_further.
Qed.

Lemma label_memberships_is_Some results id :
  ∀ m, is_Some (m !! id) → is_Some (label_memberships results m !! id).
Proof.
  unfold label_memberships.
  induction results as [|e results IH]; intros m Hm; [done|].
  cbn [foldl]. by apply IH, label_step_is_Some.
Qed.

(** The membership recorded for the label of an entry of the batch is the
    one of the entry, unless a later entry reports on the same label. *)
Lemma label_memberships_lookup results :
  ∀ m i query rows id,
    results !! i = Some (query, rows) →
    Strings.HasPrefix query hostLabelQueryPrefix = true →
    label_id query = Some id →
    is_Some (label_memberships results m !! id)
    ∧ ((∀ j entry,
          (i < j)%nat → results !! j = Some entry →
          Strings.HasPrefix entry.1 hostLabelQueryPrefix = true →
          label_id entry.1 ≠ Some id) →
       label_memberships results m !! id = Some (0 <? length rows)%nat).
Proof.
  induction results as [|e results IH]; intros m i query rows id Hi Hl Hid;
    [done|].
  destruct i as [|i]; cbn [lookup list_lookup] in Hi.
  - injection Hi as ->. unfold label_memberships. cbn [foldl].
    rewrite (label_step_label m query rows id Hl Hid).
    fold (label_memberships results
            (<[id := (0 <? length rows)%nat]> m)).
    split.
    + apply label_memberships_is_Some. rewrite lookup_insert_eq. by eexists.
    + intros Hlater. rewrite label_memberships_other.
      * apply lookup_insert_eq.
      * intros entry [j Hj]%list_elem_of_lookup.
        apply (Hlater (S j) entry); [lia|done].
  - destruct (IH (label_step m e) i query rows id Hi Hl Hid) as [Hs Hv].
    split; [exact Hs|].
    intros Hlater. apply Hv. intros j entry Hij Hj.
    apply (Hlater (S j) entry); [lia|done].
Qed.

(** Every membership of the map is one the map had, or the one of an entry
    of the batch. *)
Lemma label_memberships_origin results :
  ∀ m id b,
    label_memberships results m !! id = Some b →
    m !! id = Some b
    ∨ ∃ i query rows,
        results !! i = Some (query, rows)
        ∧ Strings.HasPrefix query hostLabelQueryPrefix = true
        ∧ label_id query = Some id
        ∧ b = (0 <? length rows)%nat.
Proof.
  induction results as [|[query rows] results IH]; intros m id b H;
    [by left|].
  unfold label_memberships in H. cbn [foldl] in H.
  apply IH in H as [H|(i & q & r & Hi & Hl & Hid & ->)].
  - unfold label_step in H. cbn [fst snd] in H.
    destruct (Strings.HasPrefix query hostDetailQueryPrefix); [by left|].
    destruct (Strings.HasPrefix query hostLabelQueryPrefix) eqn:Hl;
      [|by left].
    destruct (label_id query) as [id'|] eqn:Hid; [|by left].
    destruct (decide (id' = id)) as [->|Hne].
    + rewrite lookup_insert_eq in H. injection H as <-.
      right. by exists 0%nat, query, rows.
    + rewrite lookup_insert_ne in H by done. by left.
  - right. by exists (S i), q, r.
Qed.

Lemma rows_nonempty (rows : list row) :
  (0 <? length rows)%nat = bool_decide (rows ≠ []).
Proof. by destruct rows. Qed.

Section Persistence.

Context {W : Type} (Quote : string → string) (svc : service W).

Lemma submit_entry_label_id statuses v query rows w v1 w1 t1 :
  submit_entry Quote svc statuses v query rows w = (v1, None, w1, t1) →
  Strings.HasPrefix query hostLabelQueryPrefix = true →
  is_Some (label_id query).
Proof.
  intros H Hl. unfold submit_entry in H.
  rewrite (label_prefix_not_detail query Hl), Hl in H.
  unfold ingestLabelQuery in H. unfold label_id.
  destruct (Strconv.Atoi _) as [n [err|]]; [done|by eexists].
Qed.

Lemma submit_loop_label_ids statuses results :
  ∀ v w v1 w1 t1,
    submit_loop Quote svc statuses results v w = (v1, None, w1, t1) →
    ∀ i query rows,
      results !! i = Some (query, rows) →
      Strings.HasPrefix query hostLabelQueryPrefix = true →
      is_Some (label_id query).
Proof.
  induction results as [|[query' rows'] results IH];
    intros v w v1 w1 t1 Hrun i query rows Hi Hl; [done|].
  rewrite submit_loop_cons in Hrun.
  destruct (submit_entry Quote svc statuses v query' rows' w)
    as [[[v' [err|]] w'] t'] eqn:E; [done|].
  destruct i as [|i]; cbn [lookup list_lookup] in Hi.
  - injection Hi as -> ->. by eapply submit_entry_label_id.
  - destruct (submit_loop Quote svc statuses results v' w')
      as [[[v'' err] w''] t''] eqn:E'.
    injection Hrun as -> -> _ _. by eapply IH.
Qed.

(** The last step: the host is saved when a label or a detail query was
    ingested. *)
Lemma submit_save_host_run v host w :
  (0 <? size (labelResults v))%nat || detailUpdated v = true →
  submit_save_host Quote svc v host w
  = let '(r, w1) := ds_SaveHost svc host w in
    (match r with
     | Some err =>
         Some (osqueryError
                 ("failed to update host details: " ++ Error Quote err) false)
     | None => None
     end, w1, [EvSaveHost host]).
Proof.
  intros Hc. unfold submit_save_host. rewrite Hc.
  unfold mbind, M_bind, bind, SaveHost, call.
  by destruct (ds_SaveHost svc host w) as [[err|] w1].
Qed.

Lemma submit_stamp_emits v :
  emits (λ ev, is_RecordLabelQueryExecutions ev = false)
    (submit_stamp Quote svc v).
Proof.
  assert (Hs : ∀ host,
    emits (λ ev, is_RecordLabelQueryExecutions ev = false)
      (submit_save_host Quote svc v host)).
  { intros host. unfold submit_save_host.
    destruct (_ || _); [|apply emits_ret].
    apply emits_bind; [by apply emits_call|].
    intros [err|]; apply emits_ret. }
  unfold submit_stamp. destruct (detailUpdated v); [|apply Hs].
  apply emits_bind; [by apply emits_call|]. intros now. apply Hs.
Qed.


(** C5, as amended. In a batch whose entries are all ingested without
    error, every label query has its label recorded: with the value true
    exactly when the entry has a row, so false for an entry without rows,
    unless a later entry of the iteration reports on the same label; and
    every membership recorded is the one of an entry of the batch for that
    label.  The label results are given to the datastore in one call, with
    the host and the time the clock shows at that point, when there is at
    least one; otherwise in none. *)
Theorem label_results_recorded (host : Host)
    (results : list (string * list row)) (statuses : gmap string Z) (w : W)
    (v : SubmitVars) (w1 : W) (t1 : list Event) :
  submit_loop Quote svc statuses results (mkSubmitVars host false ∅) w
  = (v, None, w1, t1) →
  let m :=
    SubmitDistributedQueryResults Quote svc (Some host) results statuses in
  (∀ i query rows,
     results !! i = Some (query, rows) →
     Strings.HasPrefix query hostLabelQueryPrefix = true →
     ∃ id,
       label_id query = Some id
       ∧ is_Some (labelResults v !! id)
       ∧ ((∀ j entry,
             (i < j)%nat → results !! j = Some entry →
             Strings.HasPrefix entry.1 hostLabelQueryPrefix = true →
             label_id entry.1 ≠ Some id) →
          labelResults v !! id = Some (bool_decide (rows ≠ []))))
  ∧ (∀ id b,
       labelResults v !! id = Some b →
       ∃ i query rows,
         results !! i = Some (query, rows)
         ∧ Strings.HasPrefix query hostLabelQueryPrefix = true
         ∧ label_id query = Some id
         ∧ b = bool_decide (rows ≠ []))
  ∧ (labelResults v ≠ ∅ →
     ∃ now w2 tr,
       clock_Now svc w1 = (now, w2)
       ∧ trace_of m w
         = (t1 ++ EvNow
               :: EvRecordLabelQueryExecutions (host_ v) (labelResults v) now
               :: tr)%list
       ∧ Forall (λ ev, is_RecordLabelQueryExecutions ev = false) t1
       ∧ Forall (λ ev, is_RecordLabelQueryExecutions ev = false) tr)
  ∧ (labelResults v = ∅ →
     Forall (λ ev, is_RecordLabelQueryExecutions ev = false) (trace_of m w)).
Proof.
  intros Hrun m.
  destruct (submit_loop_vars Quote svc statuses results _ _ _ _ _ Hrun)
    as [Hlabels _]. cbn [labelResults] in Hlabels.
  assert (Ht1 : Forall (λ ev, is_RecordLabelQueryExecutions ev = false) t1).
  { pose proof (submit_loop_emits Quote svc statuses results
                  (mkSubmitVars host false ∅) w) as He.
    rewrite Hrun in He. cbn [snd] in He.
    eapply Forall_impl; [exact He|]. by intros [] Hev. }
  split; [|split; [|split]].
  - intros i query rows Hi Hl.
    destruct (submit_loop_label_ids statuses results _ _ _ _ _ Hrun
                i query rows Hi Hl) as [id Hid].
    exists id. rewrite Hlabels, <- rows_nonempty.
    destruct (label_memberships_lookup results ∅ i query rows id Hi Hl Hid)
      as [Hs Hv].
    done.
  - intros id b Hb. rewrite Hlabels in Hb.
    apply label_memberships_origin in Hb
      as [Hb|(i & query & rows & Hi & Hl & Hid & ->)].
    { by rewrite lookup_empty in Hb. }
    exists i, query, rows. by rewrite <- rows_nonempty.
  - intros Hne. unfold trace_of, m.
    rewrite SubmitDistributedQueryResults_run, Hrun.
    unfold submit_save.
    assert (Hsize : (0 <? size (labelResults v))%nat = true).
    { apply Nat.ltb_lt. apply map_size_non_empty_iff in Hne. lia. }
    rewrite Hsize.
    unfold mbind, M_bind, bind, Now, RecordLabelQueryExecutions, call.
    destruct (clock_Now svc w1) as [now w2].
    destruct (ds_RecordLabelQueryExecutions svc _ _ now w2) as [[err|] w3].
    + exists now, w2, []. by repeat split.
    + pose proof (submit_stamp_emits v w3) as Hs.
      destruct (submit_stamp Quote svc v w3) as [[r w4] t4].
      exists now, w2, t4. by repeat split.
  - intros He. unfold trace_of, m.
    rewrite SubmitDistributedQueryResults_run, Hrun.
    unfold submit_save. rewrite He, map_size_empty. cbn [Nat.ltb Nat.leb].
    pose proof (submit_stamp_emits v w1) as Hs.
    destruct (submit_stamp Quote svc v w1) as [[r w4] t4].
    by apply Forall_app.
Qed.





End Persistence.

Lemma label_results_recorded_witness :
  ∃ now w2 tr,
    clock_Now (Sample.svc None None) tt = (now, w2)
    ∧ trace_of
        (SubmitDistributedQueryResults Sample.quote (Sample.svc None None)
           (Some Sample.host) Sample.label_batch ∅) tt
      = ([] ++ EvNow
            :: EvRecordLabelQueryExecutions Sample.host Sample.label_results
                 now
            :: tr)%list
    ∧ Forall (λ ev, is_RecordLabelQueryExecutions ev = false) []
    ∧ Forall (λ ev, is_RecordLabelQueryExecutions ev = false) tr.
Proof.
  destruct (label_results_recorded Sample.quote (Sample.svc None None)
              Sample.host Sample.label_batch ∅ tt
              (mkSubmitVars Sample.host false Sample.label_results) tt [])
    as (_ & _ & Hrec & _).
  - vm_compute. reflexivity.
  - apply Hrec. intros He. apply (f_equal (λ m, m !! 1)) in He.
    vm_compute in He. discriminate He.
Defined.

(** C5 does not hold as stated: of two names of a batch that stand for the
    same label, the one the iteration visits last decides the membership.
    The label query 1 returned a row, and the membership recorded for the
    label 1 is false when the name with the leading zero, without rows, is
    visited after it; when it is visited before, the membership recorded is
    true, and its result without rows is recorded nowhere. *)
Lemma label_alias_overwrites :
  label_id "kolide_label_query_1" = Some 1
  ∧ label_id "kolide_label_query_01" = Some 1
  ∧ SubmitDistributedQueryResults Sample.quote (Sample.svc None None)
      (Some Sample.host) Sample.alias_batch ∅ tt
    = (None, tt,
       [EvNow;
        EvRecordLabelQueryExecutions Sample.host (<[1 := false]> ∅) 5000;
        EvSaveHost Sample.host])
  ∧ SubmitDistributedQueryResults Sample.quote (Sample.svc None None)
      (Some Sample.host) Sample.alias_batch_reversed ∅ tt
    = (None, tt,
       [EvNow;
        EvRecordLabelQueryExecutions Sample.host (<[1 := true]> ∅) 5000;
        EvSaveHost Sample.host]).
Proof. by vm_compute. Qed.


(** The run of a submission whose only entry is a detail query without rows:
    a warning, no field of the host changed but the time of its detail
    update, and the host saved. *)
Lemma soft_warning_still_refreshes :
  SubmitDistributedQueryResults Sample.quote (Sample.svc None None)
    (Some Sample.host) Sample.uptime_batch ∅ tt
  = (None, tt,
     [EvLog (expected_single "uptime" []);
      EvNow;
      EvSaveHost (set_DetailUpdateTime 5000 Sample.host)]).
Proof. by vm_compute. Qed.

(** * Further properties *)

(** ** The prefixes of the query names *)

Lemma distributed_prefix_exclusive query :
  Strings.HasPrefix query hostDistributedQueryPrefix = true →
  Strings.HasPrefix query hostDetailQueryPrefix = false
  ∧ Strings.HasPrefix query hostLabelQueryPrefix = false.
Proof.
  unfold Strings.HasPrefix, hostLabelQueryPrefix, hostDetailQueryPrefix,
    hostDistributedQueryPrefix.
  intros H.
  do 7 (destruct query as [|c query]; [simpl in H; discriminate H|];
        cbn [String.prefix] in H |- *;
        destruct (ascii_dec _ c) as [<-|]; [|discriminate H]).
  destruct query as [|c query]; [simpl in H; discriminate H|].
  cbn [String.prefix] in H |- *.
  destruct (ascii_dec "d" c) as [<-|]; [|discriminate H].
  destruct query as [|c query]; [simpl in H; discriminate H|].
  cbn [String.prefix] in H |- *.
  destruct (ascii_dec "i" c) as [<-|]; [|discriminate H].
  split; [|done].
  destruct (ascii_dec "d" "d") as [_|Hne]; [|done].
  by destruct (ascii_dec "e" "i").
Qed.

Lemma HasPrefix_app prefix s : Strings.HasPrefix (prefix ++ s) prefix = true.
Proof.
  unfold Strings.HasPrefix. induction prefix as [|c prefix IH]; simpl.
  - by destruct s.
  - by destruct (ascii_dec c c).
Qed.

Lemma drop_app prefix s : Strings.drop (String.length prefix) (prefix ++ s) = s.
Proof. induction prefix as [|c prefix IH]; simpl; [by destruct s|done]. Qed.

(** A name is taken apart as it was put together. *)
Lemma TrimPrefix_app prefix s : Strings.TrimPrefix (prefix ++ s) prefix = s.
Proof. unfold Strings.TrimPrefix. by rewrite HasPrefix_app, drop_app. Qed.

(** ** What a submission persists *)

Section Submitted.

Context {W : Type} (Quote : string → string) (svc : service W).

Lemma calls_app test (t1 t2 : list Event) :
  calls test (t1 ++ t2) = (calls test t1 + calls test t2)%nat.
Proof. unfold calls. by rewrite filter_app, length_app. Qed.

Lemma calls_none test (trace : list Event) :
  Forall (λ ev, test ev = false) trace → calls test trace = 0%nat.
Proof.
  unfold calls. induction 1 as [|ev trace Hev _ IH]; [done|].
  rewrite filter_cons_False; [done|]. by rewrite Hev.
Qed.

Lemma not_persists_SaveHost (trace : list Event) :
  Forall (λ ev, persists ev = false) trace →
  Forall (λ ev, is_SaveHost ev = false) trace.
Proof. intros H. eapply Forall_impl; [exact H|]. by intros []. Qed.

Lemma not_persists_RecordLabel (trace : list Event) :
  Forall (λ ev, persists ev = false) trace →
  Forall (λ ev, is_RecordLabelQueryExecutions ev = false) trace.
Proof. intros H. eapply Forall_impl; [exact H|]. by intros []. Qed.

(** The calls of the steps after the loop. *)
Lemma submit_save_host_calls v host w :
  (submit_save_host Quote svc v host w).2
  = if (0 <? size (labelResults v))%nat || detailUpdated v
    then [EvSaveHost host] else [].
Proof.
  destruct ((0 <? size (labelResults v))%nat || detailUpdated v) eqn:Hc.
  - rewrite submit_save_host_run by done.
    by destruct (ds_SaveHost svc host w).
  - unfold submit_save_host. by rewrite Hc.
Qed.

Lemma submit_stamp_calls v w :
  calls is_SaveHost (submit_stamp Quote svc v w).2
  = (if (0 <? size (labelResults v))%nat || detailUpdated v
     then 1 else 0)%nat
  ∧ calls is_RecordLabelQueryExecutions (submit_stamp Quote svc v w).2
    = 0%nat.
Proof.
  unfold submit_stamp. destruct (detailUpdated v) eqn:Hd.
  - unfold mbind, M_bind, bind, Now, call.
    destruct (clock_Now svc w) as [now w1].
    pose proof (submit_save_host_calls v
                  (set_DetailUpdateTime now (host_ v)) w1) as Hs.
    destruct (submit_save_host Quote svc v _ w1) as [[r w2] t2].
    cbn [snd] in *. subst t2. rewrite Hd, orb_true_r. by vm_compute.
  - pose proof (submit_save_host_calls v (host_ v) w) as Hs.
    rewrite Hs, Hd.
    by destruct ((0 <? size (labelResults v))%nat || false).
Qed.

Lemma submit_save_calls v w :
  (calls is_SaveHost (submit_save Quote svc v w).2 ≤ 1)%nat
  ∧ (calls is_RecordLabelQueryExecutions (submit_save Quote svc v w).2 ≤ 1)%nat
  ∧ ((0 <? size (labelResults v))%nat || detailUpdated v = false →
     (submit_save Quote svc v w).2 = []).
Proof.
  unfold submit_save.
  destruct (0 <? size (labelResults v))%nat eqn:Hl.
  - unfold mbind, M_bind, bind, Now, RecordLabelQueryExecutions, call.
    destruct (clock_Now svc w) as [now w1].
    destruct (ds_RecordLabelQueryExecutions svc _ _ now w1) as [[err|] w2].
    + cbn [snd]. split; [vm_compute; lia|]. split; [vm_compute; lia|done].
    + destruct (submit_stamp_calls v w2) as [Hs Hr].
      destruct (submit_stamp Quote svc v w2) as [[r w3] t3].
      cbn [snd] in *.
      change ([EvNow] ++ [EvRecordLabelQueryExecutions (host_ v)
                            (labelResults v) now] ++ t3)%list
        with ([EvNow; EvRecordLabelQueryExecutions (host_ v)
                        (labelResults v) now] ++ t3)%list.
      rewrite !calls_app, Hs, Hr.
      split; [|split; [|done]].
      * destruct (_ || _); vm_compute; lia.
      * vm_compute. lia.
  - destruct (submit_stamp_calls v w) as [Hs Hr]. rewrite Hs, Hr.
    split; [destruct (_ || _); lia|]. split; [lia|].
    cbn [orb]. intros Hd. unfold submit_stamp. rewrite Hd.
    rewrite submit_save_host_calls, Hl, Hd. done.
Qed.

(** A submission gives the host to the datastore at most once, and the
    label results at most once; a batch without a name under the prefix of
    the detail queries or of the label queries makes neither call. *)
Theorem host_saved_at_most_once (ctx : option Host)
    (results : list (string * list row)) (statuses : gmap string Z) (w : W) :
  let trace :=
    trace_of (SubmitDistributedQueryResults Quote svc ctx results statuses) w in
  (calls is_SaveHost trace ≤ 1)%nat
  ∧ (calls is_RecordLabelQueryExecutions trace ≤ 1)%nat
  ∧ (Forall
       (λ entry,
          Strings.HasPrefix entry.1 hostDetailQueryPrefix = false
          ∧ Strings.HasPrefix entry.1 hostLabelQueryPrefix = false) results →
     Forall (λ ev, persists ev = false) trace).
Proof.
  intros trace. unfold trace, trace_of.
  destruct ctx as [host|]; [|by repeat split; try constructor].
  rewrite SubmitDistributedQueryResults_run.
  pose proof (submit_loop_emits Quote svc statuses results
                (mkSubmitVars host false ∅) w) as He.
  destruct (submit_loop Quote svc statuses results
              (mkSubmitVars host false ∅) w) as [[[v [err|]] w1] t1] eqn:Hrun;
    cbn [snd] in *.
  { rewrite (calls_none _ _ (not_persists_SaveHost _ He)).
    rewrite (calls_none _ _ (not_persists_RecordLabel _ He)).
    split; [lia|]. split; [lia|done]. }
  destruct (submit_save_calls v w1) as (Hs & Hr & Hnone).
  destruct (submit_loop_vars Quote svc statuses results _ _ _ _ _ Hrun)
    as [Hlabels Hdu]. cbn [labelResults detailUpdated orb] in *.
  destruct (submit_save Quote svc v w1) as [[r w2] t2]. cbn [snd] in *.
  rewrite !calls_app.
  rewrite (calls_none _ _ (not_persists_SaveHost _ He)).
  rewrite (calls_none _ _ (not_persists_RecordLabel _ He)).
  split; [lia|]. split; [lia|].
  intros Hnames. rewrite Hnone; [by rewrite app_nil_r|].
  assert (Hno : labelResults v = ∅ ∧ detailUpdated v = false).
  { rewrite Hlabels, Hdu. clear -Hnames.
    unfold label_memberships.
    induction Hnames as [|entry results [Hd Hl] _ [IHl IHd]]; [done|].
    cbn [foldl existsb]. unfold label_step at 2. by rewrite Hd, Hl. }
  destruct Hno as [-> ->]. by rewrite map_size_empty.
Qed.

End Submitted.

Section Rejected.

Context {W : Type} (Quote : string → string) (svc : service W).

(** A submission that fails on the ingestion of an entry, whatever the
    entry and the failure, has given neither the label results nor the host
    to the datastore: what the entries before it wrote to the host is
    dropped. *)
Theorem failed_ingestion_persists_nothing (ctx : option Host)
    (results : list (string * list row)) (statuses : gmap string Z) (w : W)
    (msg : string) :
  let m := SubmitDistributedQueryResults Quote svc ctx results statuses in
  result_of m w
  = Some (osqueryError ("failed to ingest result: " ++ msg) false) →
  Forall (λ ev, persists ev = false) (trace_of m w).
Proof.
  intros m. unfold m, result_of, trace_of.
  destruct ctx as [host|]; [|constructor].
  rewrite SubmitDistributedQueryResults_run.
  pose proof (submit_loop_emits Quote svc statuses results
                (mkSubmitVars host false ∅) w) as He.
  destruct (submit_loop Quote svc statuses results
              (mkSubmitVars host false ∅) w) as [[[v [err|]] w1] t1];
    cbn [snd] in He; [done|].
  unfold submit_save.
  destruct (0 <? size (labelResults v))%nat eqn:Hl.
  - unfold mbind, M_bind, bind, Now, RecordLabelQueryExecutions, call.
    destruct (clock_Now svc w1) as [now w2].
    destruct (ds_RecordLabelQueryExecutions svc _ _ now w2) as [[err|] w3].
    { cbn [fst]. by intros [=]. }
    unfold submit_stamp, submit_save_host. rewrite Hl. cbn [orb].
    unfold mbind, M_bind, bind, Now, SaveHost, call, mret, M_ret, ret.
    destruct (detailUpdated v).
    + destruct (clock_Now svc w3) as [now' w4].
      destruct (ds_SaveHost svc _ w4) as [[err|] w5]; cbn [fst];
        [|done]. by intros [=].
    + destruct (ds_SaveHost svc _ w3) as [[err|] w5]; cbn [fst];
        [|done]. by intros [=].
  - unfold submit_stamp, submit_save_host. rewrite Hl. cbn [orb].
    unfold mbind, M_bind, bind, Now, SaveHost, call, mret, M_ret, ret.
    destruct (detailUpdated v); [|done].
    destruct (clock_Now svc w1) as [now' w4].
    destruct (ds_SaveHost svc _ w4) as [[err|] w5]; cbn [fst];
      [|done]. by intros [=].
Qed.

(** An entry under the prefix of the distributed queries leaves the host,
    the label results and the mark of the detail update as they are.  When
    what follows the prefix is no number, nothing is published or recorded;
    otherwise the first call publishes the rows with the failure mark, which
    is set exactly when the statuses hold a status for the name that is not
    zero, so that a name without a status counts as a success. *)
Theorem distributed_entry_published (statuses : gmap string Z)
    (v : SubmitVars) (query : string) (rows : list row) (w : W) :
  Strings.HasPrefix query hostDistributedQueryPrefix = true →
  (submit_entry Quote svc statuses v query rows w).1.1.1 = v
  ∧ match
      Strconv.Atoi
        (emptyToZero (Strings.TrimPrefix query hostDistributedQueryPrefix))
    with
    | (_, Some _) =>
        submit_entry Quote svc statuses v query rows w
        = (v,
           Some (osqueryError
                   ("unable to parse campaign ID: "
                      ++ Strings.TrimPrefix query hostDistributedQueryPrefix)
                   false),
           w, [])
    | (campaignID, None) =>
        ∃ trace,
          (submit_entry Quote svc statuses v query rows w).2
          = EvWriteResult
              (envelope (host_ v) campaignID rows
                 (reported_failed statuses query))
            :: trace
    end
  ∧ (reported_failed statuses query = true
     ↔ ∃ status, statuses !! query = Some status ∧ status ≠ 0).
Proof.
  intros Hq. destruct (distributed_prefix_exclusive query Hq) as [Hd Hl].
  unfold submit_entry. rewrite Hd, Hl, Hq.
  fold (reported_failed statuses query).
  unfold mbind, M_bind, bind, mret, M_ret, ret.
  split; [|split].
  - by destruct (ingestDistributedQuery Quote svc (host_ v) query rows _ w)
      as [[err w1] t1].
  - destruct (Strconv.Atoi _) as [campaignID [err|]] eqn:Hid.
    + unfold ingestDistributedQuery. by rewrite Hid.
    + pose proof (ingestDistributedQuery_collected Quote svc (host_ v) query
                    rows (reported_failed statuses query) w campaignID Hid)
        as Hrun.
      unfold result_of, trace_of in Hrun.
      destruct (ingestDistributedQuery Quote svc (host_ v) query rows _ w)
        as [[err w1] t1].
      cbn [fst snd] in *. rewrite app_nil_r.
      inversion Hrun; by eexists.
  - unfold reported_failed, StatusOK.
    destruct (statuses !! query) as [status|].
    + rewrite bool_decide_eq_true. split; [by exists status|].
      by intros (status' & [= <-] & Hne).
    + split; [done|]. by intros (status & [=] & _).
Qed.

End Rejected.

Lemma failed_ingestion_persists_nothing_witness :
  Forall (λ ev, persists ev = false)
    (trace_of
       (SubmitDistributedQueryResults Sample.quote (Sample.svc None None)
          (Some Sample.host)
          [("kolide_detail_query_uptime", []); ("kolide_label_query_x", [])]
          ∅) tt).
Proof.
  apply (failed_ingestion_persists_nothing Sample.quote (Sample.svc None None)
           (Some Sample.host)
           [("kolide_detail_query_uptime", []); ("kolide_label_query_x", [])]
           ∅ tt
           ("converting query from string to int: strconv.Atoi: parsing "
              ++ Sample.quote "x" ++ ": invalid syntax")).
  vm_compute. reflexivity.
Defined.

Lemma distributed_entry_published_witness :
  (submit_entry Sample.quote (Sample.svc None None) ∅
     (mkSubmitVars Sample.host false ∅) "kolide_distributed_query_7" [] tt).1.1.1
  = mkSubmitVars Sample.host false ∅.
Proof.
  destruct (distributed_entry_published Sample.quote (Sample.svc None None) ∅
              (mkSubmitVars Sample.host false ∅) "kolide_distributed_query_7"
              [] tt) as [Hvars _].
  - vm_compute. reflexivity.
  - exact Hvars.
Defined.

(** ** The ingestion functions, field by field *)

Lemma network_interface_row_copied r nic :
  network_interface_row r = inr nic → copied_columns r nic.
Proof.
  unfold network_interface_row.
  destruct (match r !! "last_change" with
            | Some lastChange => Strconv.ParseInt (emptyToZero lastChange)
            | None => (0, None)
            end) as [v0 [e0|]]; [done|].
  destruct (Strconv.Atoi (emptyToZero (col r "metric"))) as [v1 [e1|]];
    [done|].
  destruct (Strconv.Atoi (emptyToZero (col r "mtu"))) as [v2 [e2|]]; [done|].
  destruct (Strconv.Atoi (emptyToZero (col r "type"))) as [v3 [e3|]]; [done|].
  by intros [= <-].
Qed.

Lemma network_interface_loop_rows rows :
  ∀ acc res,
    network_interface_loop rows acc = inr res →
    ∃ nics, res = (acc ++ nics)%list ∧ Forall2 copied_columns rows nics.
Proof.
  induction rows as [|r rows IH]; intros acc res.
  - intros [= <-]. exists []. by rewrite app_nil_r.
  - cbn [network_interface_loop].
    destruct (network_interface_row r) as [err|nic] eqn:E; [done|].
    intros (nics & -> & HF)%IH.
    exists (nic :: nics). rewrite <- app_assoc. split; [done|].
    constructor; [by apply network_interface_row_copied|done].
Qed.

(** The ingestion of the network interfaces is all or nothing: when a row
    fails, the host is as it was, with the interfaces it had; otherwise the
    interfaces of the host are replaced by one interface for each row, in
    the order of the rows.  Without rows the host is as it was. *)
Theorem network_interfaces_all_or_nothing (host : Host) (rows : list row) :
  match out_err (ingest_network_interface host rows) with
  | Some _ => out_host (ingest_network_interface host rows) = host
  | None =>
      (rows = [] ∧ out_host (ingest_network_interface host rows) = host)
      ∨ (rows ≠ []
         ∧ ∃ nics,
             out_host (ingest_network_interface host rows)
             = set_NetworkInterfaces nics host
             ∧ NetworkInterfaces (out_host (ingest_network_interface host rows))
               = nics
             ∧ length nics = length rows
             ∧ Forall2 copied_columns rows nics)
  end.
Proof.
  unfold ingest_network_interface.
  destruct rows as [|r rows]; [by left|].
  destruct (network_interface_loop (r :: rows) []) as [err|nics] eqn:E;
    [done|].
  right. split; [done|].
  apply network_interface_loop_rows in E as (nics' & -> & HF).
  exists nics'. repeat split; try done.
  - by destruct host.
  - symmetry. by eapply Forall2_length.
Qed.

Lemma TrimLeftDots_no_dot s : starts_with_dot (Strings.TrimLeftDots s) = false.
Proof.
  induction s as [|c s IH]; [done|]. cbn [Strings.TrimLeftDots].
  destruct (Strings.is_dot c) eqn:E; [done|]. by cbn.
Qed.

Lemma TrimRightDots_no_dot s : ends_with_dot (Strings.TrimRightDots s) = false.
Proof.
  induction s as [|c s IH]; [done|]. cbn [Strings.TrimRightDots].
  destruct (Strings.TrimRightDots s) as [|c' s'] eqn:E.
  - by destruct (Strings.is_dot c) eqn:Ec; cbn; rewrite ?Ec.
  - exact IH.
Qed.

Lemma TrimRightDots_starts s :
  starts_with_dot s = false →
  starts_with_dot (Strings.TrimRightDots s) = false.
Proof.
  destruct s as [|c s]; [done|]. cbn [starts_with_dot Strings.TrimRightDots].
  intros Hc. destruct (Strings.TrimRightDots s); by rewrite ?Hc.
Qed.

Lemma TrimDots_no_dot s :
  starts_with_dot (Strings.TrimDots s) = false
  ∧ ends_with_dot (Strings.TrimDots s) = false.
Proof.
  unfold Strings.TrimDots. split.
  - apply TrimRightDots_starts, TrimLeftDots_no_dot.
  - apply TrimRightDots_no_dot.
Qed.

(** The ingestion of one row of [os_version] never fails.  The version it
    stores neither starts nor ends with a dot; a row without the column
    build leaves the build of the host as it was, while the platform is
    always written: centos when the column is empty or missing and the name
    holds centos in any case of letters, the column otherwise. *)
Theorem os_version_fields (host : Host) (r0 : row) :
  let host' := out_host (ingest_os_version host [r0]) in
  out_err (ingest_os_version host [r0]) = None
  ∧ starts_with_dot (OSVersion host') = false
  ∧ ends_with_dot (OSVersion host') = false
  ∧ Build host' = default (Build host) (r0 !! "build")
  ∧ Platform host'
    = (if bool_decide (col r0 "platform" = "")
          && Strings.Contains (Strings.ToLower (col r0 "name")) "centos"
       then "centos" else col r0 "platform")
  ∧ PlatformLike host' = col r0 "platform_like"
  ∧ CodeName host' = col r0 "code_name".
Proof.
  intros host'. unfold host', ingest_os_version.
  destruct (TrimDots_no_dot
              (col r0 "name" ++ " " ++ col r0 "major" ++ "."
                 ++ col r0 "minor" ++ "." ++ col r0 "patch")) as [Hs He].
  destruct host. host_cbn.
  destruct (r0 !! "build"); host_cbn;
    destruct (bool_decide (col r0 "platform" = "")
              && Strings.Contains (Strings.ToLower (col r0 "name")) "centos");
    host_cbn; done.
Qed.

Lemma osquery_flags_writes_fields rows :
  ∀ di lp tls cr di' lp' tls' cr' d l,
    osquery_flags_writes rows di lp tls cr = (di', lp', tls', cr', None) →
    default d di' = flag_value distributed_interval rows (default d di)
    ∧ default l lp' = flag_value logger_tls_period rows (default l lp).
Proof.
  unfold flag_value.
  induction rows as [|r rows IH]; intros di lp tls cr di' lp' tls' cr' d l H.
  - by injection H as <- <- _ _.
  - cbn [osquery_flags_writes] in H. cbn [foldl].
    destruct (flag_of_name (col r "name")) as [f|] eqn:Hf.
    + apply flag_of_name_Some in Hf. rewrite Hf.
      destruct (Strconv.Atoi (emptyToZero (col r "value"))) as [n [err|]];
        [done|].
      destruct f; apply (IH _ _ _ _ _ _ _ _ d l) in H; exact H.
    + rewrite !bool_decide_eq_false_2 by (by apply flag_of_name_None).
      by apply (IH _ _ _ _ _ _ _ _ d l) in H.
Qed.

Lemma flag_value_uint f rows init :
  0 ≤ init < 2 ^ 64 → 0 ≤ flag_value f rows init < 2 ^ 64.
Proof.
  unfold flag_value. revert init.
  induction rows as [|r rows IH]; intros init Hi; [done|].
  cbn [foldl]. apply IH. case_bool_decide; [|done].
  unfold to_uint. apply Z.mod_pos_bound. done.
Qed.

Lemma flag_value_absent f rows init :
  Forall (λ r, col r "name" ≠ flag_name f) rows →
  flag_value f rows init = init.
Proof.
  unfold flag_value. intros H. revert init.
  induction H as [|r rows Hr _ IH]; intros init; [done|].
  cbn [foldl]. by rewrite bool_decide_eq_false_2.
Qed.

(** When the ingestion of the osquery flags returns no error, the two
    intervals of the host hold the last value reported for
    distributed_interval and logger_tls_period, and stay as they were when
    no row reports on them; the refresh of the configuration, instead, is
    written in every case, so that it is zero when no row reports on either
    of its two flags.  The values stored are those of an unsigned integer of
    64 bits: a negative value is stored wrapped around. *)
Theorem osquery_flags_intervals (host : Host) (rows : list row) :
  out_err (ingest_osquery_flags host rows) = None →
  let host' := out_host (ingest_osquery_flags host rows) in
  DistributedInterval host'
  = flag_value distributed_interval rows (DistributedInterval host)
  ∧ LoggerTLSPeriod host'
    = flag_value logger_tls_period rows (LoggerTLSPeriod host)
  ∧ (Forall (λ r, col r "name" ≠ "distributed_interval") rows →
     DistributedInterval host' = DistributedInterval host)
  ∧ (Forall (λ r, col r "name" ≠ "logger_tls_period") rows →
     LoggerTLSPeriod host' = LoggerTLSPeriod host)
  ∧ (Forall (λ r, col r "name" ≠ "config_tls_refresh"
                  ∧ col r "name" ≠ "config_refresh") rows →
     ConfigTLSRefresh host' = 0)
  ∧ 0 ≤ ConfigTLSRefresh host' < 2 ^ 64.
Proof.
  unfold ingest_osquery_flags. rewrite osquery_flags_loop_from.
  destruct (osquery_flags_writes rows None None 0 0)
    as [[[[di lp] tls] cr] [err|]] eqn:E; [done|].
  intros _. cbn [out_host].
  remember (if bool_decide (tls ≠ 0)
            then set_ConfigTLSRefresh tls (write_intervals di lp host)
            else set_ConfigTLSRefresh cr (write_intervals di lp host))
    as host' eqn:Hhost.
  destruct (osquery_flags_writes_fields rows _ _ _ _ _ _ _ _
              (DistributedInterval host) (LoggerTLSPeriod host) E)
    as [Hdi Hlp].
  apply osquery_flags_writes_locals in E as [Htls Hcr].
  cbn [default] in Hdi, Hlp.
  assert (Hd : DistributedInterval host'
               = default (DistributedInterval host) di).
  { subst host'. destruct (bool_decide (tls ≠ 0)); by destruct host, di, lp. }
  assert (Hl : LoggerTLSPeriod host' = default (LoggerTLSPeriod host) lp).
  { subst host'. destruct (bool_decide (tls ≠ 0)); by destruct host, di, lp. }
  assert (Hc : ConfigTLSRefresh host' = if bool_decide (tls ≠ 0) then tls else cr).
  { subst host'. destruct (bool_decide (tls ≠ 0)); by destruct host, di, lp. }
  clear Hhost.
  rewrite Hd, Hl, Hc, Hdi, Hlp.
  split; [done|]. split; [done|].
  split; [apply (flag_value_absent distributed_interval)|].
  split; [apply (flag_value_absent logger_tls_period)|].
  split.
  - intros Habs. rewrite Htls, Hcr.
    rewrite (flag_value_absent config_tls_refresh),
      (flag_value_absent config_refresh).
    + done.
    + eapply Forall_impl; [exact Habs|]. by intros r [_ ?].
    + eapply Forall_impl; [exact Habs|]. by intros r [? _].
  - pose proof (flag_value_uint config_tls_refresh rows 0) as H1.
    pose proof (flag_value_uint config_refresh rows 0) as H2.
    rewrite <- Htls in H1. rewrite <- Hcr in H2.
    case_bool_decide; [apply H1|apply H2]; lia.
Qed.

Lemma osquery_flags_intervals_witness :
  DistributedInterval
    (out_host (ingest_osquery_flags Sample.host Sample.flags_negative))
  = flag_value distributed_interval Sample.flags_negative
      (DistributedInterval Sample.host)
  ∧ flag_value distributed_interval Sample.flags_negative 0
    = 18446744073709551615.
Proof.
  split; [|vm_compute; reflexivity].
  destruct (osquery_flags_intervals Sample.host Sample.flags_negative)
    as [H _].
  - vm_compute. reflexivity.
  - exact H.
Defined.

(** No ingestion function of the registry changes the identifier of the
    host or the time of its detail update, whatever the rows and also when
    it fails. *)
Theorem detail_ingestion_keeps_identity (name : string) (query : DetailQuery)
    (host : Host) (rows : list row) :
  detailQueries !! name = Some query →
  ID (out_host (Ingest query host rows)) = ID host
  ∧ DetailUpdateTime (out_host (Ingest query host rows))
    = DetailUpdateTime host.
Proof.
  intros Hq.
  destruct (detailQueries_ingest _ _ Hq)
    as [[_ E]|[[_ E]|[[_ E]|[[_ E]|[[_ E]|[_ E]]]]]]; rewrite E; clear E.
  - unfold ingest_network_interface. destruct rows as [|r rows]; [done|].
    destruct (network_interface_loop (r :: rows) []); [done|].
    by destruct host.
  - unfold ingest_os_version. destruct rows as [|r0 [|r1 rows]]; try done.
    destruct host. host_cbn.
    destruct (r0 !! "build"); host_cbn;
      destruct (bool_decide (col r0 "platform" = "")
                && Strings.Contains (Strings.ToLower (col r0 "name")) "centos");
      host_cbn; done.
  - unfold ingest_osquery_flags. rewrite osquery_flags_loop_from.
    destruct (osquery_flags_writes rows None None 0 0)
      as [[[[di lp] tls] cr] [err|]].
    + by destruct host, di, lp.
    + destruct (bool_decide (tls ≠ 0)); by destruct host, di, lp.
  - unfold ingest_osquery_info. destruct rows as [|r0 [|r1 rows]]; try done.
    by destruct host.
  - unfold ingest_system_info. destruct rows as [|r0 [|r1 rows]]; try done.
    destruct (Strconv.Atoi (emptyToZero (col r0 "physical_memory")))
      as [n1 [e1|]]; [by destruct host|].
    destruct (Strconv.Atoi (emptyToZero (col r0 "cpu_physical_cores")))
      as [n2 [e2|]]; [by destruct host|].
    destruct (Strconv.Atoi (emptyToZero (col r0 "cpu_logical_cores")))
      as [n3 [e3|]]; by destruct host.
  - unfold ingest_uptime. destruct rows as [|r0 [|r1 rows]]; try done.
    destruct (Strconv.Atoi (emptyToZero (col r0 "total_seconds")))
      as [n [e|]]; [done|]. by destruct host.
Qed.

Lemma detail_ingestion_keeps_identity_witness :
  ID (out_host (ingest_os_version Sample.host [Sample.centos_row]))
  = ID Sample.host.
Proof.
  destruct (detail_ingestion_keeps_identity "os_version"
              (mkDetailQuery "select * from os_version limit 1"
                 ingest_os_version)
              Sample.host [Sample.centos_row]) as [H _].
  - exact detailQueries_lookup_os_version.
  - exact H.
Defined.

(** ** Numbers written and read back *)

Lemma ParseUint_loop_digit (d : N) (s : string) (n : Z) :
  (d < 10)%N →
  n < Strconv.maxUint64 / 10 + 1 →
  n * 10 + Z.of_N d ≤ Strconv.maxUint64 →
  Strconv.ParseUint_loop (String (pretty_N_char d) s) n
  = Strconv.ParseUint_loop s (n * 10 + Z.of_N d).
Proof.
  assert (Hcutoff : Strconv.maxUint64 / 10 + 1 = 1844674407370955162)
    by (vm_compute; reflexivity).
  assert (Hmaxv : Strconv.maxUint64 = 18446744073709551615)
    by (vm_compute; reflexivity).
  rewrite Hcutoff, Hmaxv. intros Hd Hn Hmax.
  assert (Hdigit :
    Z.of_N (N_of_ascii (pretty_N_char d)) = 48 + Z.of_N d).
  { assert (d = 0 ∨ d = 1 ∨ d = 2 ∨ d = 3 ∨ d = 4 ∨ d = 5 ∨ d = 6 ∨ d = 7
            ∨ d = 8 ∨ d = 9)%N as Hcases by lia.
    repeat (destruct Hcases as [->|Hcases]; [done|]). by subst d. }
  cbn [Strconv.ParseUint_loop]. rewrite Hdigit.
  replace ((48 <=? 48 + Z.of_N d) && (48 + Z.of_N d <=? 57)) with true
    by (symmetry; apply andb_true_intro; split; apply Z.leb_le; lia).
  rewrite Hcutoff, Hmaxv.
  destruct (Z.leb_spec 1844674407370955162 n) as [?|_]; [lia|].
  replace (48 + Z.of_N d - 48) with (Z.of_N d) by lia.
  destruct (Z.ltb_spec 18446744073709551615 (n * 10 + Z.of_N d)) as [?|_];
    [lia|done].
Qed.

Lemma ParseUint_loop_pretty (x : N) :
  ∀ acc,
    Z.of_N x ≤ Strconv.maxUint64 →
    Strconv.ParseUint_loop (pretty_N_go x acc) 0
    = Strconv.ParseUint_loop acc (Z.of_N x).
Proof.
  assert (Hcutoff : Strconv.maxUint64 / 10 + 1 = 1844674407370955162)
    by (vm_compute; reflexivity).
  assert (Hmaxv : Strconv.maxUint64 = 18446744073709551615)
    by (vm_compute; reflexivity).
  induction (N.lt_wf_0 x) as [x _ IH]; intros acc Hx.
  assert (x = 0 ∨ 0 < x)%N as [->|Hpos] by lia; [done|].
  rewrite pretty_N_go_step by done.
  rewrite IH.
  - rewrite ParseUint_loop_digit.
    + f_equal. rewrite (N.div_mod x 10) at 3 by done.
      rewrite N2Z.inj_add, N2Z.inj_mul. lia.
    + by apply N.mod_lt.
    + rewrite Hcutoff. rewrite N2Z.inj_div. change (Z.of_N 10) with 10.
      assert (Z.of_N x / 10 ≤ 18446744073709551615 / 10)
        by (apply Z.div_le_mono; lia).
      change (18446744073709551615 / 10) with 1844674407370955161 in *. lia.
    + rewrite (N.div_mod x 10) in Hx at 1 by done.
      rewrite N2Z.inj_add, N2Z.inj_mul in Hx. lia.
  - by apply N.div_lt.
  - rewrite N2Z.inj_div. change (Z.of_N 10) with 10.
    assert (Z.of_N x / 10 ≤ Z.of_N x) by (apply Z.div_le_upper_bound; lia).
    lia.
Qed.

(** The first byte of the digits of a positive number is a digit. *)
Lemma pretty_N_go_head (x : N) :
  ∀ acc, (0 < x)%N →
    ∃ d r, (d < 10)%N ∧ pretty_N_go x acc = String (pretty_N_char d) r.
Proof.
  induction (N.lt_wf_0 x) as [x _ IH]; intros acc Hpos.
  rewrite pretty_N_go_step by done.
  destruct (N.eq_0_gt_0_cases (x `div` 10)) as [->|Hdiv].
  - rewrite pretty_N_go_0. eexists _, _. split; [|done]. by apply N.mod_lt.
  - apply IH; [by apply N.div_lt|done].
Qed.

Lemma pretty_N_char_no_sign (d : N) :
  Ascii.eqb (pretty_N_char d) "+" = false
  ∧ Ascii.eqb (pretty_N_char d) "-" = false.
Proof. unfold pretty_N_char. by repeat case_match. Qed.

Lemma ParseUint_pretty_positive (p : positive) :
  Z.pos p ≤ Strconv.maxUint64 →
  ∃ d r, (d < 10)%N
    ∧ pretty (N.pos p) = String (pretty_N_char d) r
    ∧ Strconv.ParseUint (pretty (N.pos p)) = (Z.pos p, None).
Proof.
  intros Hp. unfold pretty, pretty_N.
  destruct (decide (N.pos p = 0%N)) as [?|_]; [done|].
  destruct (pretty_N_go_head (N.pos p) "") as (d & r & Hd & E); [lia|].
  exists d, r. split; [done|]. split; [done|].
  pose proof (ParseUint_loop_pretty (N.pos p) "" Hp) as Hl.
  unfold Strconv.ParseUint. rewrite E in Hl |- *. exact Hl.
Qed.

Lemma emptyToZero_nonempty s : s ≠ "" → emptyToZero s = s.
Proof. intros Hs. unfold emptyToZero. by rewrite decide_False. Qed.

(** What [Itoa] writes for an [int], [Atoi] reads back: the same integer,
    without error, also through the replacement of the empty string. *)
Lemma Atoi_Itoa (i : Z) :
  - 2 ^ 63 ≤ i < 2 ^ 63 →
  Strconv.Atoi (emptyToZero (Itoa i)) = (i, None).
Proof.
  intros Hi.
  assert (Hmaxv : Strconv.maxUint64 = 18446744073709551615)
    by (vm_compute; reflexivity).
  assert (H63 : 2 ^ 63 = 9223372036854775808) by (vm_compute; reflexivity).
  unfold Itoa.
  destruct i as [|p|p]; [by vm_compute| |].
  - destruct (ParseUint_pretty_positive p) as (d & r & Hd & E & Hparse);
      [lia|].
    change (pretty (Z.pos p)) with (pretty (N.pos p)).
    rewrite emptyToZero_nonempty by (by rewrite E).
    unfold Strconv.Atoi, Strconv.with_NumError, Strconv.ParseInt_raw.
    rewrite E in Hparse |- *.
    destruct (pretty_N_char_no_sign d) as [-> ->]. cbn [orb negb andb].
    rewrite Hparse.
    destruct (Z.leb_spec (2 ^ 63) (Z.pos p)) as [?|_]; [lia|done].
  - destruct (ParseUint_pretty_positive p) as (d & r & Hd & E & Hparse);
      [lia|].
    change (pretty (Z.neg p)) with (String "-" (pretty (N.pos p))).
    rewrite emptyToZero_nonempty by done.
    unfold Strconv.Atoi, Strconv.with_NumError, Strconv.ParseInt_raw.
    cbn [Ascii.eqb Bool.eqb orb negb andb]. rewrite Hparse.
    destruct (Z.ltb_spec (2 ^ 63) (Z.pos p)) as [?|_]; [lia|done].
Qed.

Lemma to_uint_wrap64 (id : Z) : 0 ≤ id < 2 ^ 64 → to_uint (wrap64 id) = id.
Proof.
  intros Hid. unfold to_uint, wrap64.
  rewrite Zminus_mod_idemp_l.
  replace (id + 2 ^ 63 - 2 ^ 63) with id by lia.
  by apply Z.mod_small.
Qed.

Lemma wrap64_range (z : Z) : - 2 ^ 63 ≤ wrap64 z < 2 ^ 63.
Proof.
  unfold wrap64.
  pose proof (Z.mod_pos_bound (z + 2 ^ 63) (2 ^ 64)) as H.
  assert (2 ^ 64 = 2 * 2 ^ 63) by (vm_compute; reflexivity). lia.
Qed.

(** ** The names of the queries handed out *)

Section Offered.

Context {W : Type} (Quote : string → string) (svc : service W).

Lemma offered_names (l : list (string * DetailQuery)) :
  ((λ '(name, query), (hostDetailQueryPrefix ++ name, Query query)) <$> l).*1
  = String.append hostDetailQueryPrefix <$> l.*1.
Proof.
  induction l as [|[name query] l IH]; [done|].
  rewrite !fmap_cons. by rewrite IH.
Qed.

Lemma offered_NoDup :
  NoDup
    ((λ '(name, query), (hostDetailQueryPrefix ++ name, Query query))
       <$> map_to_list detailQueries).*1.
Proof.
  rewrite offered_names. apply NoDup_fmap_2; [apply _|].
  apply NoDup_fst_map_to_list.
Qed.

(** The map of all the detail queries, under their names with the prefix. *)
Lemma offered_lookup key text :
  (list_to_map
     ((λ '(name, query), (hostDetailQueryPrefix ++ name, Query query))
        <$> map_to_list detailQueries) : gmap string string) !! key
  = Some text
  ↔ ∃ name query,
      key = hostDetailQueryPrefix ++ name
      ∧ detailQueries !! name = Some query
      ∧ Query query = text.
Proof.
  rewrite <- elem_of_list_to_map.
  - rewrite list_elem_of_fmap. split.
    + intros ([name query] & [= -> ->] & Hin).
      apply elem_of_map_to_list in Hin. by exists name, query.
    + intros (name & query & -> & Hq & <-).
      exists (name, query). split; [done|]. by apply elem_of_map_to_list.
  - apply offered_NoDup.
Qed.

Lemma offered_size :
  size
    (list_to_map
       ((λ '(name, query), (hostDetailQueryPrefix ++ name, Query query))
          <$> map_to_list detailQueries) : gmap string string)
  = 6%nat.
Proof.
  rewrite map_size_list_to_map.
  - rewrite length_fmap, length_map_to_list. unfold detailQueries.
    rewrite map_size_list_to_map; [done|apply detailQueries_names_NoDup].
  - apply offered_NoDup.
Qed.

(** When the details of a host are not fresh, [hostDetailQueries] offers the
    six definitions of the registry and nothing else: each under its name
    with the prefix of the detail queries, with its text. *)
Theorem detail_queries_offered (host : Host) (w : W) (t : Z) (w1 : W) :
  clock_Now svc w = (t, w1) →
  DetailUpdateTime host + detailUpdateInterval ≤ t →
  let queries := result_of (hostDetailQueries svc host) w in
  (∀ key text,
     queries !! key = Some text
     ↔ ∃ name query,
         key = hostDetailQueryPrefix ++ name
         ∧ detailQueries !! name = Some query
         ∧ Query query = text)
  ∧ size queries = 6%nat.
Proof.
  intros Hclock Hstale queries. unfold queries.
  unfold result_of, hostDetailQueries, mbind, M_bind, bind, Now, call,
    mret, M_ret, ret.
  rewrite Hclock.
  destruct (Z.ltb_spec (t - detailUpdateInterval) (DetailUpdateTime host))
    as [?|_]; [lia|].
  cbn [fst]. split; [apply offered_lookup|apply offered_size].
Qed.

Lemma hostDetailQueries_accepted host w :
  map_Forall accepted_name (result_of (hostDetailQueries svc host) w).
Proof.
  unfold result_of, hostDetailQueries, mbind, M_bind, bind, Now, call,
    mret, M_ret, ret.
  destruct (clock_Now svc w) as [t w1].
  destruct (t - detailUpdateInterval <? DetailUpdateTime host); cbn [fst].
  - apply map_Forall_empty.
  - intros key text (name & query & -> & Hq & Ht)%offered_lookup.
    left. split; [apply HasPrefix_app|].
    exists query. by rewrite TrimPrefix_app.
Qed.

Lemma add_label_queries_accepted labelQueries :
  Forall (λ e, (Strconv.Atoi (emptyToZero e.1)).2 = None) labelQueries →
  ∀ queries,
    map_Forall accepted_name queries →
    map_Forall accepted_name (add_label_queries labelQueries queries).
Proof.
  unfold add_label_queries.
  induction labelQueries as [|[name query] l IH]; intros Hl queries Hq;
    [done|].
  apply Forall_cons in Hl as [Hname Hl]. cbn [fst] in Hname.
  cbn [foldl]. apply IH; [done|]. apply map_Forall_insert_2; [|done].
  right. left. split; [apply HasPrefix_app|].
  rewrite TrimPrefix_app.
  destruct (Strconv.Atoi (emptyToZero name)) as [id err].
  cbn [snd] in Hname. subst err. by exists id.
Qed.

Lemma add_distributed_queries_accepted distributedQueries :
  ∀ queries,
    map_Forall accepted_name queries →
    map_Forall accepted_name
      (add_distributed_queries distributedQueries queries).
Proof.
  unfold add_distributed_queries.
  induction distributedQueries as [|[id query] l IH]; intros queries Hq;
    [done|].
  cbn [foldl]. apply IH. apply map_Forall_insert_2; [|done].
  right. right. split; [apply HasPrefix_app|].
  exists (wrap64 id). rewrite TrimPrefix_app.
  apply Atoi_Itoa, wrap64_range.
Qed.

Lemma accepted_name_recognized key text :
  accepted_name key text → ¬ unrecognized key.
Proof.
  intros [[Hd _]|[[Hl _]|[Hq _]]] (Hd' & Hl' & Hq'); congruence.
Qed.

(** The submission takes an accepted name under the prefix of the label
    queries: the turn of the loop for it records the membership of its
    label and returns no error. *)
Lemma accepted_label_ingested key text statuses v rows w :
  accepted_name key text →
  Strings.HasPrefix key hostLabelQueryPrefix = true →
  ∃ id,
    label_id key = Some id
    ∧ submit_entry Quote svc statuses v key rows w
      = (mkSubmitVars (host_ v) (detailUpdated v)
           (<[id := bool_decide (rows ≠ [])]> (labelResults v)),
         None, w, []).
Proof.
  intros Hacc Hl.
  pose proof (label_prefix_not_detail key Hl) as Hd.
  destruct Hacc as [[Hd' _]|[[_ [n Hn]]|[Hq _]]]; [congruence| |].
  - exists (to_uint n). unfold label_id, submit_entry, ingestLabelQuery.
    rewrite Hd, Hl, Hn. split; [done|].
    by rewrite rows_nonempty.
  - apply distributed_prefix_exclusive in Hq as [_ Hl']. congruence.
Qed.

(** The name of a campaign is read back as it was written: for every
    identifier of a campaign, an unsigned integer of 64 bits, the result
    submitted under the name that [GetDistributedQueries] builds for it is
    published for that campaign. *)
Theorem campaign_name_round_trip (host : Host) (id : Z) (rows : list row)
    (failed : bool) (w : W) :
  0 ≤ id < 2 ^ 64 →
  let name := hostDistributedQueryPrefix ++ Itoa (wrap64 id) in
  Strings.HasPrefix name hostDistributedQueryPrefix = true
  ∧ ∃ trace,
      trace_of (ingestDistributedQuery Quote svc host name rows failed) w
      = EvWriteResult
          (mkResult id host rows (if failed then Some "failed" else None))
        :: trace.
Proof.
  intros Hid name. split; [apply HasPrefix_app|].
  assert (Hparse :
    Strconv.Atoi
      (emptyToZero (Strings.TrimPrefix name hostDistributedQueryPrefix))
    = (wrap64 id, None)).
  { unfold name. rewrite TrimPrefix_app. apply Atoi_Itoa, wrap64_range. }
  pose proof (ingestDistributedQuery_collected Quote svc host name rows
                failed w (wrap64 id) Hparse) as Hrun.
  assert (Henv :
    envelope host (wrap64 id) rows failed
    = mkResult id host rows (if failed then Some "failed" else None)).
  { unfold envelope. by rewrite (to_uint_wrap64 id Hid). }
  unfold result_of, trace_of in *.
  destruct (ingestDistributedQuery Quote svc host name rows failed w)
    as [[err w1] t1].
  cbn [fst snd] in *. rewrite <- Henv. inversion Hrun; by eexists.
Qed.

End Offered.

Lemma detail_queries_offered_witness :
  size
    (result_of (hostDetailQueries (Sample.svc None None) Sample.stale_host) tt)
  = 6%nat.
Proof.
  destruct (detail_queries_offered (Sample.svc None None) Sample.stale_host tt
              5000 tt) as [_ H].
  - reflexivity.
  - vm_compute. discriminate.
  - exact H.
Defined.

Lemma campaign_name_round_trip_witness :
  ∃ trace,
    trace_of
      (ingestDistributedQuery Sample.quote (Sample.svc None None) Sample.host
         (hostDistributedQueryPrefix ++ Itoa (wrap64 18446744073709551615))
         [] false) tt
    = EvWriteResult (mkResult 18446744073709551615 Sample.host [] None)
      :: trace.
Proof.
  destruct (campaign_name_round_trip Sample.quote (Sample.svc None None)
              Sample.host 18446744073709551615 [] false tt) as [_ H].
  - vm_compute. split; [discriminate|reflexivity].
  - exact H.
Defined.

(** ** The session of an agent *)

Section SessionProperties.

Context {W : Type} (Quote : string → string) (svc : service W)
  (store : session_store W) (config : OsqueryConfig).

(** When the names of the label queries that the datastore hands out are
    numbers of an [int], as the identifiers of the labels are, every name of
    the map that [GetDistributedQueries] returns is one that the submission
    takes: it is under one of the three prefixes; under the prefix of the
    detail queries it names a definition of the registry, with the text of
    that definition; under the prefix of the label queries and under the
    prefix of the distributed queries it ends with a number that parses, and
    the turn of the loop of the submission for a label name records the
    membership of that label and returns no error.  The second result asks
    the agent to come back sooner, with the value ten, exactly when the host
    has neither a host name nor a platform, and is zero otherwise. *)
Theorem handed_out_names_accepted (ctx : option Host) (w : W)
    (queries : gmap string string) (accelerate : Z) :
  (∀ host cutoff w' labelQueries w'',
     ds_LabelQueriesForHost store host cutoff w' = (inr labelQueries, w'') →
     Forall (λ e, (Strconv.Atoi (emptyToZero e.1)).2 = None) labelQueries) →
  (GetDistributedQueries Quote svc store config ctx w).1.1
  = inr (queries, accelerate) →
  map_Forall accepted_name queries
  ∧ (∀ key text, queries !! key = Some text → ¬ unrecognized key)
  ∧ (∀ key text,
       queries !! key = Some text →
       Strings.HasPrefix key hostLabelQueryPrefix = true →
       ∀ statuses v rows w',
         ∃ id,
           label_id key = Some id
           ∧ submit_entry Quote svc statuses v key rows w'
             = (mkSubmitVars (host_ v) (detailUpdated v)
                  (<[id := bool_decide (rows ≠ [])]> (labelResults v)),
                None, w', []))
  ∧ ∃ host,
      ctx = Some host
      ∧ (accelerate = 10 ↔ HostName host = "" ∧ Platform host = "")
      ∧ (accelerate = 0 ∨ accelerate = 10).
Proof.
  intros Hnames.
  unfold GetDistributedQueries. destruct ctx as [host|]; [|done].
  unfold bindS, liftS, callS, retS.
  pose proof (hostDetailQueries_accepted svc host w) as Hdetail.
  unfold result_of in Hdetail.
  destruct (hostDetailQueries svc host w) as [[detail w1] t1].
  cbn [fst] in Hdetail.
  destruct (Now svc w1) as [[now w2] t2].
  destruct (ds_LabelQueriesForHost store host _ w2) as [[err|labels] w3]
    eqn:Hlabels; [done|].
  apply Hnames in Hlabels.
  destruct (ds_DistributedQueriesForHost store host w3) as [[err|campaigns] w4];
    [done|].
  cbn [fst]. intros [= <- <-].
  assert (Hall : map_Forall accepted_name
                   (add_distributed_queries campaigns
                      (add_label_queries labels detail))).
  { by apply add_distributed_queries_accepted, add_label_queries_accepted. }
  split; [exact Hall|]. split; [|split].
  - intros key text Hkey. eapply accepted_name_recognized. by apply Hall.
  - intros key text Hkey Hl statuses v rows w'.
    eapply accepted_label_ingested; [by eapply Hall|done].
  - exists host. split; [done|].
    repeat case_bool_decide; cbn [andb]; split; try tauto;
      split; try done; intros [??]; done.
Qed.

(** The authentication of a host.  Without a node key no call is made.  A
    host is returned only when the datastore knows the node key and has
    marked the host as seen at the time the clock shows, and it is the host
    as that call left it.  The error invalidates the node exactly when the
    node key is missing or not found: an error of the datastore, in looking
    up the key or in marking the host, does not. *)
Theorem authentication_outcomes (nodeKey : string) (w : W) :
  let m := AuthenticateHost Quote svc store nodeKey in
  (nodeKey = "" →
   m w
   = (inl (osqueryError "authentication error: missing node key" true),
      w, []))
  ∧ match (m w).1.1 with
    | inr host' =>
        ∃ host w1 now w2 w3,
          nodeKey ≠ ""
          ∧ ds_AuthenticateHost store nodeKey w = (AuthOk host, w1)
          ∧ clock_Now svc w1 = (now, w2)
          ∧ ds_MarkHostSeen store host now w2 = (None, host', w3)
          ∧ (m w).2
            = [SvAuthenticateHost nodeKey; SvCore EvNow;
               SvMarkHostSeen host now]
    | inl err =>
        NodeInvalid err = true
        ↔ nodeKey = ""
          ∨ ∃ e w1, ds_AuthenticateHost store nodeKey w = (AuthNotFound e, w1)
    end.
Proof.
  intros m. unfold m, AuthenticateHost.
  case_bool_decide as Hkey.
  { split; [done|]. cbn. split; [by left|done]. }
  split; [done|].
  unfold bindS, liftS, callS, retS, Now, call.
  destruct (ds_AuthenticateHost store nodeKey w) as [[host|e|e] w1] eqn:E1.
  - destruct (clock_Now svc w1) as [now w2] eqn:E2.
    destruct (ds_MarkHostSeen store host now w2) as [[[e|] host'] w3] eqn:E3;
      cbn [fst snd].
    + split; [done|]. intros [?|(e' & w' & [=])]. done.
    + by exists host, w1, now, w2, w3.
  - cbn. split; [|done]. intros _. right. by exists e, w1.
  - cbn. split; [done|]. intros [?|(e' & w' & [=])]. done.
Qed.

(** The enrollment of an agent.  A node key is returned only when the
    secret is the one of the application configuration and the datastore
    has enrolled the host; with another secret the datastore is not asked to
    enroll anything.  Every error of the enrollment invalidates the node. *)
Theorem enrollment_outcomes (enrollSecret hostIdentifier : string) (w : W) :
  let m := EnrollAgent Quote store config enrollSecret hostIdentifier in
  match (m w).1.1 with
  | inr nodeKey =>
      ∃ appConfig w1 w2,
        ds_AppConfig store w = (inr appConfig, w1)
        ∧ enrollSecret = EnrollSecret appConfig
        ∧ ds_EnrollHost store hostIdentifier (NodeKeySize config) w1
          = (inr nodeKey, w2)
  | inl err => NodeInvalid err = true
  end
  ∧ (∀ appConfig w1,
       ds_AppConfig store w = (inr appConfig, w1) →
       enrollSecret ≠ EnrollSecret appConfig →
       m w = (inl (osqueryError "invalid enroll secret" true), w1,
              [SvAppConfig])).
Proof.
  intros m. unfold m, EnrollAgent, bindS, callS, retS.
  destruct (ds_AppConfig store w) as [[e|appConfig] w1] eqn:E1.
  { split; [done|]. by intros appConfig w1' [=]. }
  case_bool_decide as Hsecret.
  { split; [done|]. by intros appConfig' w1' [= <- <-] _. }
  destruct (ds_EnrollHost store hostIdentifier (NodeKeySize config) w1)
    as [[e|nodeKey] w2] eqn:E2; cbn [fst snd].
  - split; [done|]. intros appConfig' w1' [= <- <-] Hne. done.
  - split; [by exists appConfig, w1, w2|].
    intros appConfig' w1' [= <- <-] Hne. done.
Qed.

End SessionProperties.

Lemma handed_out_names_accepted_witness :
  ∃ host,
    Some Sample.host = Some host
    ∧ (10 = 10 ↔ HostName host = "" ∧ Platform host = "")
    ∧ (10 = 0 ∨ 10 = 10).
Proof.
  destruct (handed_out_names_accepted Sample.quote (Sample.svc None None)
              Sample.store Sample.osquery_config (Some Sample.host) tt
              Sample.handed_out 10) as (_ & _ & _ & H).
  - intros host cutoff w' labelQueries w'' Hl. injection Hl as <- _.
    constructor; [vm_compute; reflexivity|constructor].
  - vm_compute. reflexivity.
  - exact H.
Defined.

(** ** Edge values *)

(** The seconds of the uptime are stored as nanoseconds, exactly as long as
    they are at most 9223372036 in absolute value; the ingestion then
    returns no error. *)
Theorem uptime_nanoseconds (host : Host) (r0 : row) (seconds : Z) :
  Strconv.Atoi (emptyToZero (col r0 "total_seconds")) = (seconds, None) →
  - 9223372036 ≤ seconds ≤ 9223372036 →
  out_err (ingest_uptime host [r0]) = None
  ∧ Uptime (out_host (ingest_uptime host [r0])) = seconds * 1000000000.
Proof.
  intros Hparse Hs. unfold ingest_uptime. rewrite Hparse.
  split; [done|]. destruct host. host_cbn.
  unfold wrap64, Second.
  change (2 ^ 63) with 9223372036854775808.
  change (2 ^ 64) with 18446744073709551616.
  rewrite Z.mod_small by lia. lia.
Qed.

Lemma uptime_nanoseconds_witness :
  Uptime (out_host (ingest_uptime Sample.host [Sample.uptime_row]))
  = 86400 * 1000000000.
Proof.
  destruct (uptime_nanoseconds Sample.host Sample.uptime_row 86400) as [_ H].
  - vm_compute. reflexivity.
  - lia.
  - exact H.
Defined.

Section EmptyIdentifier.

Context {W : Type} (Quote : string → string) (svc : service W).

(** A name that ends with its prefix, without an identifier, is taken for
    the identifier zero: the label query records the membership of the
    label 0, and the result of the distributed query is published for the
    campaign 0. *)
Theorem empty_identifier_is_zero (host : Host) (rows : list row)
    (results : gmap Z bool) (failed : bool) (w : W) :
  ingestLabelQuery host hostLabelQueryPrefix rows results
  = (<[0 := bool_decide (rows ≠ [])]> results, None)
  ∧ ∃ trace,
      trace_of
        (ingestDistributedQuery Quote svc host hostDistributedQueryPrefix rows
           failed) w
      = EvWriteResult
          (mkResult 0 host rows (if failed then Some "failed" else None))
        :: trace.
Proof.
  split.
  - unfold ingestLabelQuery. rewrite <- rows_nonempty. by vm_compute.
  - assert (Hparse :
      Strconv.Atoi
        (emptyToZero
           (Strings.TrimPrefix hostDistributedQueryPrefix
              hostDistributedQueryPrefix))
      = (0, None)) by (by vm_compute).
    pose proof (ingestDistributedQuery_collected Quote svc host
                  hostDistributedQueryPrefix rows failed w 0 Hparse) as Hrun.
    unfold result_of, trace_of in *.
    destruct (ingestDistributedQuery Quote svc host
                hostDistributedQueryPrefix rows failed w) as [[err w1] t1].
    cbn [fst snd] in *.
    change (mkResult 0 host rows (if failed then Some "failed" else None))
      with (envelope host 0 rows failed).
    inversion Hrun; by eexists.
Qed.

End EmptyIdentifier.

(** ** The statements of the policies *)

Lemma count_byte_app c s1 s2 :
  count_byte c (s1 ++ s2) = (count_byte c s1 + count_byte c s2)%nat.
Proof.
  induction s1 as [|c' s1 IH]; [reflexivity|].
  change (String c' s1 ++ s2) with (String c' (s1 ++ s2)).
  cbn [count_byte]. rewrite IH. lia.
Qed.

Lemma count_byte_groups (n : nat) :
  count_byte "?" (Policies.Join (replicate n "(?,?,?,?)") ",") = (4 * n)%nat.
Proof.
  induction n as [|n IH]; [reflexivity|].
  destruct n as [|n]; [reflexivity|].
  change (Policies.Join (replicate (S (S n)) "(?,?,?,?)") ",")
    with ("(?,?,?,?)" ++ "," ++ Policies.Join (replicate (S n) "(?,?,?,?)") ",").
  rewrite !count_byte_app, IH.
  change (count_byte "?" "(?,?,?,?)") with 4%nat.
  change (count_byte "?" ",") with 0%nat. lia.
Qed.

Lemma length_policy_rows results updated host ids :
  length (ids ≫= Policies.policy_row results updated host)
  = (4 * length ids)%nat.
Proof.
  induction ids as [|x ids IH]; [done|].
  rewrite bind_cons, length_app, IH. cbn [Policies.policy_row length]. lia.
Qed.

(** The statement of the policy recorder has as many placeholders as it
    binds values: four for each key that the iteration over the result map
    yields, whatever the map and the order. *)
Theorem policy_placeholders_match (iter : list Z) (host : Host)
    (results : gmap Z (option bool)) (updated : Z) :
  let stmt := Policies.policy_insert iter host results updated in
  count_byte "?" stmt.1 = length stmt.2
  ∧ length stmt.2 = (4 * length iter)%nat.
Proof.
  intros stmt. unfold stmt, Policies.policy_insert.
  rewrite bind_loop_spec. cbn [fst snd app].
  rewrite count_byte_app, count_byte_groups, length_policy_rows.
  change (count_byte "?" Policies.insert_head) with 0%nat.
  rewrite (Permutation_length (orderedIDs_Permutation iter)). lia.
Qed.

Lemma add_policy_rows_lookup rows :
  ∀ results id,
    add_policy_rows rows results !! id
    = match last_query id rows with
      | Some query => Some query
      | None => results !! id
      end.
Proof.
  unfold add_policy_rows, last_query.
  induction rows as [|[id' query] rows IH] using rev_ind; intros results id;
    [done|].
  rewrite !foldl_app. cbn [foldl].
  case_bool_decide as Hid.
  - subst id'. apply lookup_insert_eq.
  - rewrite lookup_insert_ne by done. apply IH.
Qed.

(** The policy queries of a host.  When the selection of the global
    policies fails, no other selection is made; the policies of a team are
    selected only for a host with a team.  In the map returned, an
    identifier has the query of the last row of the team that carries it,
    else that of the last global row that carries it, and is absent when no
    row carries it: a row of the team overrides the global one. *)
Theorem policy_queries_team_overrides
    (SelectContext : string → list Policies.SqlArg → error + policy_rows)
    (teamID : option Z) :
  let run := PolicyQueriesForHost SelectContext teamID in
  (∀ err,
     SelectContext select_global_policies [] = inl err →
     run = ([(select_global_policies, [])],
            inl (Wrapped err "selecting policies for host")))
  ∧ (teamID = None → run.1 = [(select_global_policies, [])])
  ∧ (∀ results,
       run.2 = inr results →
       ∃ globalRows teamRows,
         SelectContext select_global_policies [] = inr globalRows
         ∧ match teamID with
           | Some teamID =>
               SelectContext select_team_policies [Policies.ArgUint teamID]
               = inr teamRows
           | None => teamRows = []
           end
         ∧ ∀ id,
             results !! id
             = match last_query id teamRows with
               | Some query => Some query
               | None => last_query id globalRows
               end).
Proof.
  intros run. unfold run, PolicyQueriesForHost.
  destruct (SelectContext select_global_policies []) as [err|globalRows].
  { split; [by intros err' [= <-]|]. split; [done|]. by intros results [=]. }
  split; [by intros err [=]|].
  assert (Hmap : ∀ teamRows id,
    add_policy_rows teamRows (add_policy_rows globalRows ∅) !! id
    = match last_query id teamRows with
      | Some query => Some query
      | None => last_query id globalRows
      end).
  { intros teamRows id. rewrite !add_policy_rows_lookup, lookup_empty.
    by destruct (last_query id globalRows). }
  destruct teamID as [teamID|].
  - split; [done|].
    destruct (SelectContext select_team_policies [Policies.ArgUint teamID])
      as [err|teamRows]; [by intros results [=]|].
    intros results [= <-]. by exists globalRows, teamRows.
  - split; [done|]. intros results [= <-]. exists globalRows, [].
    split; [done|]. split; [done|]. exact (Hmap []).
Qed.

(** The selections of policies have as many placeholders as arguments: one
    for the identifier in [policyDB], and one more, after it, for the team
    when the selection is that of a team; [TeamPolicy] gives the policy
    before the team, in the order of the placeholders. *)
Theorem policy_selection_placeholders (id : Z) (teamID : option Z) :
  count_byte "?" (policyDB_statement id teamID).1
  = length (policyDB_statement id teamID).2
  ∧ count_byte "?" (listPoliciesDB_statement teamID).1
    = length (listPoliciesDB_statement teamID).2
  ∧ (policyDB_statement id teamID).2
    = Policies.ArgUint id
      :: match teamID with
         | Some teamID => [Policies.ArgUint teamID]
         | None => []
         end
  ∧ ∀ (Policy : Type) GetContext team policy,
      TeamPolicy (Policy:=Policy) GetContext team policy
      = match
          GetContext (select_policies ++ "p.id=? AND team_id = ?")
            [Policies.ArgUint policy; Policies.ArgUint team]
        with
        | inl err => inl (Wrapped err "getting policy")
        | inr found => inr found
        end.
Proof.
  destruct teamID as [teamID|]; repeat split; by vm_compute.
Qed.

(** ** The order of the entries of a batch *)

(** Case analysis of two ingestion functions run one after the other: on
    the rows, on the numbers parsed and on the writes of the flags. *)
Ltac ingest_cases :=
  repeat first
    [ progress host_cbn
    | match goal with
      | H : bool_decide _ && _ = _ |- _ => rewrite H
      | |- context [match ?l with [] => _ | _ :: _ => _ end] =>
          is_var l; destruct l
      | |- context [Strconv.Atoi ?s] =>
          destruct (Strconv.Atoi s) as [? [?|]]
      | |- context [network_interface_loop ?a ?b] =>
          destruct (network_interface_loop a b)
      | |- context [osquery_flags_writes ?r None None 0 0] =>
          destruct (osquery_flags_writes r None None 0 0)
            as [[[[[?|] [?|]] ?] ?] [?|]]
      | |- context [?r !! "build"] => destruct (r !! "build")
      | |- context [bool_decide (?z ≠ 0)] => destruct (bool_decide (z ≠ 0))
      | |- context [bool_decide ?P && ?b] =>
          destruct (bool_decide P && b) eqn:?
      end ].

Ltac commute_by_cases :=
  intros host rows1 rows2; destruct host;
  unfold ingest_network_interface, ingest_os_version, ingest_osquery_flags,
    ingest_osquery_info, ingest_system_info, ingest_uptime;
  rewrite ?osquery_flags_loop_from;
  ingest_cases; reflexivity.

Lemma commute_sym f g : commute f g → commute g f.
Proof. intros H host rows1 rows2. symmetry. apply H. Qed.

Lemma commute_network_os : commute ingest_network_interface ingest_os_version.
Proof. commute_by_cases. Qed.

Lemma commute_network_flags : commute ingest_network_interface ingest_osquery_flags.
Proof. commute_by_cases. Qed.

Lemma commute_network_info : commute ingest_network_interface ingest_osquery_info.
Proof. commute_by_cases. Qed.

Lemma commute_network_system : commute ingest_network_interface ingest_system_info.
Proof. commute_by_cases. Qed.

Lemma commute_network_uptime : commute ingest_network_interface ingest_uptime.
Proof. commute_by_cases. Qed.

Lemma commute_os_flags : commute ingest_os_version ingest_osquery_flags.
Proof. commute_by_cases. Qed.

Lemma commute_os_info : commute ingest_os_version ingest_osquery_info.
Proof. commute_by_cases. Qed.

Lemma commute_os_system : commute ingest_os_version ingest_system_info.
Proof. commute_by_cases. Qed.

Lemma commute_os_uptime : commute ingest_os_version ingest_uptime.
Proof. commute_by_cases. Qed.

Lemma commute_flags_info : commute ingest_osquery_flags ingest_osquery_info.
Proof. commute_by_cases. Qed.

Lemma commute_flags_system : commute ingest_osquery_flags ingest_system_info.
Proof. commute_by_cases. Qed.

Lemma commute_flags_uptime : commute ingest_osquery_flags ingest_uptime.
Proof. commute_by_cases. Qed.

Lemma commute_info_system : commute ingest_osquery_info ingest_system_info.
Proof. commute_by_cases. Qed.

Lemma commute_info_uptime : commute ingest_osquery_info ingest_uptime.
Proof. commute_by_cases. Qed.

Lemma commute_system_uptime : commute ingest_system_info ingest_uptime.
Proof. commute_by_cases. Qed.

Lemma HasPrefix_inv s prefix :
  Strings.HasPrefix s prefix = true → s = prefix ++ Strings.TrimPrefix s prefix.
Proof.
  unfold Strings.TrimPrefix. intros H. rewrite H. revert s H.
  unfold Strings.HasPrefix.
  induction prefix as [|c prefix IH]; intros [|c' s]; simpl; try done.
  destruct (ascii_dec c c') as [<-|]; [|done].
  intros H. exact (f_equal (String c) (IH s H)).
Qed.

(** Two names under the prefix of the detail queries that name the same
    definition of the registry are one name. *)
Lemma detail_names_inj query1 query2 :
  Strings.HasPrefix query1 hostDetailQueryPrefix = true →
  Strings.HasPrefix query2 hostDetailQueryPrefix = true →
  Strings.TrimPrefix query1 hostDetailQueryPrefix
  = Strings.TrimPrefix query2 hostDetailQueryPrefix →
  query1 = query2.
Proof.
  intros H1 H2 E.
  rewrite (HasPrefix_inv _ _ H1), (HasPrefix_inv _ _ H2). by rewrite E.
Qed.

Ltac commute_registry :=
  first
    [ apply commute_network_os | apply commute_network_flags
    | apply commute_network_info | apply commute_network_system
    | apply commute_network_uptime | apply commute_os_flags
    | apply commute_os_info | apply commute_os_system
    | apply commute_os_uptime | apply commute_flags_info
    | apply commute_flags_system | apply commute_flags_uptime
    | apply commute_info_system | apply commute_info_uptime
    | apply commute_system_uptime ].

(** The entries of two different names of a batch are ingested in either
    order with the same host at the end. *)
Lemma detail_step_commute host entry1 entry2 :
  entry1.1 ≠ entry2.1 →
  detail_step (detail_step host entry1) entry2
  = detail_step (detail_step host entry2) entry1.
Proof.
  destruct entry1 as [query1 rows1], entry2 as [query2 rows2].
  unfold detail_step. cbn [fst snd]. intros Hne.
  destruct (Strings.HasPrefix query1 hostDetailQueryPrefix) eqn:H1; [|done].
  destruct (Strings.HasPrefix query2 hostDetailQueryPrefix) eqn:H2; [|done].
  destruct (detailQueries !! Strings.TrimPrefix query1 hostDetailQueryPrefix)
    as [d1|] eqn:D1; [|done].
  destruct (detailQueries !! Strings.TrimPrefix query2 hostDetailQueryPrefix)
    as [d2|] eqn:D2; [|done].
  assert (Strings.TrimPrefix query1 hostDetailQueryPrefix
          ≠ Strings.TrimPrefix query2 hostDetailQueryPrefix) as Hnames.
  { intros E. by apply Hne, detail_names_inj. }
  apply detailQueries_ingest in D1, D2.
  destruct D1 as [[N1 ->]|[[N1 ->]|[[N1 ->]|[[N1 ->]|[[N1 ->]|[N1 ->]]]]]];
    destruct D2 as [[N2 ->]|[[N2 ->]|[[N2 ->]|[[N2 ->]|[[N2 ->]|[N2 ->]]]]]];
    first [ by (exfalso; apply Hnames; rewrite N1, N2)
          | commute_registry
          | symmetry; commute_registry ].
Qed.

(** A loop whose turns for different names commute ends in the same state
    over every order of a list without a name twice. *)
Lemma foldl_permutation_names {A B} (f : B → string * A → B) :
  (∀ b e1 e2, e1.1 ≠ e2.1 → f (f b e1) e2 = f (f b e2) e1) →
  ∀ l1 l2, l1 ≡ₚ l2 → NoDup l1.*1 → ∀ b, foldl f b l1 = foldl f b l2.
Proof.
  intros Hf l1 l2 Hp.
  induction Hp as [|x l1 l2 Hp IH|x y l|l1 l2 l3 Hp1 IH1 Hp2 IH2];
    intros Hnd b.
  - done.
  - cbn [foldl]. apply IH. rewrite fmap_cons in Hnd.
    by apply NoDup_cons in Hnd as [_ Hnd].
  - cbn [foldl]. rewrite Hf; [done|].
    rewrite !fmap_cons in Hnd. apply NoDup_cons in Hnd as [Hin _].
    intros E. apply Hin. rewrite E. apply list_elem_of_here.
  - rewrite IH1 by done. apply IH2. by rewrite <- Hp1.
Qed.

Lemma ingested_details_permutation results1 results2 host :
  results1 ≡ₚ results2 → NoDup results1.*1 →
  ingested_details results1 host = ingested_details results2 host.
Proof.
  intros Hp Hnd. unfold ingested_details.
  apply foldl_permutation_names; [|done..].
  intros b e1 e2. apply detail_step_commute.
Qed.

Section Order.

Context {W : Type} (Quote : string → string) (svc : service W).

(** X18.  The host a batch leaves does not depend on the order in which
    the iteration over the map visits its entries: two runs of the loop
    from the same variables over the same entries, each name once, in two
    orders, whatever the collaborators' states and the statuses, that both
    end without error, end with the same host and the same mark of a detail
    update; the host is the one the six ingestion functions of the
    registry, which write different fields, leave in any order. *)
Theorem submitted_host_order_independent statuses1 statuses2 results1 results2
    v w1 w2 :
  results1 ≡ₚ results2 →
  NoDup results1.*1 →
  (result_of (submit_loop Quote svc statuses1 results1 v) w1).2 = None →
  (result_of (submit_loop Quote svc statuses2 results2 v) w2).2 = None →
  host_ (result_of (submit_loop Quote svc statuses1 results1 v) w1).1
  = host_ (result_of (submit_loop Quote svc statuses2 results2 v) w2).1
  ∧ host_ (result_of (submit_loop Quote svc statuses1 results1 v) w1).1
    = ingested_details results1 (host_ v)
  ∧ detailUpdated (result_of (submit_loop Quote svc statuses1 results1 v) w1).1
    = detailUpdated
        (result_of (submit_loop Quote svc statuses2 results2 v) w2).1.
Proof.
  intros Hp Hnd. unfold result_of.
  destruct (submit_loop Quote svc statuses1 results1 v w1)
    as [[[v1 err1] w1'] t1] eqn:E1.
  destruct (submit_loop Quote svc statuses2 results2 v w2)
    as [[[v2 err2] w2'] t2] eqn:E2.
  cbn [fst snd]. intros -> ->.
  pose proof (submit_loop_host Quote svc _ _ _ _ _ _ _ E1) as H1.
  pose proof (submit_loop_host Quote svc _ _ _ _ _ _ _ E2) as H2.
  apply submit_loop_vars in E1 as [_ D1], E2 as [_ D2].
  split; [|split; [done|]].
  - rewrite H1, H2. by apply ingested_details_permutation.
  - rewrite D1, D2. f_equal.
    clear -Hp. induction Hp as [|x l1 l2 Hp IH|x y l|l1 l2 l3 Hp1 IH1 Hp2 IH2];
      cbn [existsb]; [done| by rewrite IH| |by rewrite IH1].
    by rewrite !orb_assoc, (orb_comm (Strings.HasPrefix y.1 _)).
Qed.

End Order.

Lemma submitted_host_order_independent_witness :
  host_
    (result_of
       (submit_loop Sample.quote (Sample.svc None None) ∅ Sample.details_batch
          (mkSubmitVars Sample.host false ∅)) tt).1
  = host_
      (result_of
         (submit_loop Sample.quote (Sample.svc None None) ∅
            Sample.details_batch_reversed
            (mkSubmitVars Sample.host false ∅)) tt).1
  ∧ host_
      (result_of
         (submit_loop Sample.quote (Sample.svc None None) ∅
            Sample.details_batch (mkSubmitVars Sample.host false ∅)) tt).1
    = ingested_details Sample.details_batch Sample.host
  ∧ detailUpdated
      (result_of
         (submit_loop Sample.quote (Sample.svc None None) ∅
            Sample.details_batch (mkSubmitVars Sample.host false ∅)) tt).1
    = detailUpdated
        (result_of
           (submit_loop Sample.quote (Sample.svc None None) ∅
              Sample.details_batch_reversed
              (mkSubmitVars Sample.host false ∅)) tt).1.
Proof.
  apply (submitted_host_order_independent Sample.quote (Sample.svc None None)
           ∅ ∅ Sample.details_batch Sample.details_batch_reversed
           (mkSubmitVars Sample.host false ∅) tt tt).
  - apply perm_swap.
  - apply (bool_decide_unpack _). vm_compute. reflexivity.
  - vm_compute. reflexivity.
  - vm_compute. reflexivity.
Defined.
